(** * Lookout Gallery: the thumbnail cache-and-generation engine

    A shallow embedding of [custom_components/lookout_gallery/thumbnail.py]
    (class [ThumbnailGenerator]) and of the constants of [const.py] it
    uses, with the properties of the engine stated and proved over it.

    Conventions of the embedding.
    - A Python [str] is a [string]: the bytes the text stands for under
      the encoding of the file system (UTF-8 with [surrogateescape]), so
      that a file name that is not valid UTF-8, which [os.walk] hands out
      with lone surrogates, is the string of its bytes.  [encode()] gives
      these bytes when they are valid UTF-8 and raises UnicodeEncodeError
      otherwise.  Only ASCII letters change under [lower()].
    - [pathlib.Path] is the pure POSIX path of CPython 3.11: a root
      ([""], ["/"] or ["//"]) and a list of components.
    - The file system is a tree of directories and files with modification
      times; relative paths are resolved from a working directory.  What
      [stat] fails with for reasons the tree does not show (a name too
      long, a directory that cannot be searched, a dangling link) is given
      per path, as pathlib normalises it.
    - An [async] method is a computation over the state of the generator
      and of its environment (file system, subprocess invocations, log);
      [await] is sequencing.  A Python exception that leaves a method is
      the [Raise] outcome. *)

From Stdlib Require Import ZArith String Ascii List Lia QArith Qround Bool.
From stdpp Require Import gmap strings pretty.
Import ListNotations.

Local Open Scope string_scope.
Local Open Scope Z_scope.

(* ===================================================================== *)
(** ** Python strings *)
(* ===================================================================== *)

Module Py.

(** [s.startswith(p)] *)
Fixpoint startswith (s p : string) {struct p} : bool :=
  match p with
  | EmptyString => true
  | String a p' =>
      match s with
      | EmptyString => false
      | String b s' => Ascii.eqb a b && startswith s' p'
      end
  end.

(** [s[n:]] *)
Fixpoint drop (n : nat) (s : string) : string :=
  match n, s with
  | O, _ => s
  | S _, EmptyString => EmptyString
  | S n', String _ s' => drop n' s'
  end.

(** [s[:n]] *)
Fixpoint take (n : nat) (s : string) : string :=
  match n, s with
  | O, _ => EmptyString
  | S _, EmptyString => EmptyString
  | S n', String c s' => String c (take n' s')
  end.

(** [p in s]: [p] occurs in [s] as a substring. *)
Fixpoint contains (s p : string) : bool :=
  startswith s p ||
  match s with
  | EmptyString => false
  | String _ s' => contains s' p
  end.

(** [s.replace(old, "")] for a non-empty [old]: every non-overlapping
    occurrence, found from the left, is removed.  [skip] counts the
    characters of the current occurrence still to be dropped. *)
Fixpoint remove_from (skip : nat) (old s : string) : string :=
  match s with
  | EmptyString => EmptyString
  | String c s' =>
      match skip with
      | S k => remove_from k old s'
      | O =>
          if startswith s old
          then remove_from (Nat.pred (String.length old)) old s'
          else String c (remove_from O old s')
      end
  end.

Definition remove_all (old s : string) : string := remove_from O old s.

(** [s.lower()] on ASCII. *)
Definition lower_ascii (c : ascii) : ascii :=
  let n := nat_of_ascii c in
  if (65 <=? n)%nat && (n <=? 90)%nat then ascii_of_nat (n + 32) else c.

Fixpoint lower (s : string) : string :=
  match s with
  | EmptyString => EmptyString
  | String c s' => String (lower_ascii c) (lower s')
  end.

(** [s.rfind(".")]; [None] stands for [-1]. *)
Fixpoint rfind_dot (s : string) : option nat :=
  match s with
  | EmptyString => None
  | String c s' =>
      match rfind_dot s' with
      | Some i => Some (S i)
      | None => if Ascii.eqb c "." then Some O else None
      end
  end.

(** [s.split("/")] *)
Fixpoint split_slash (s : string) : list string :=
  match s with
  | EmptyString => [EmptyString]
  | String c s' =>
      let r := split_slash s' in
      if Ascii.eqb c "/" then EmptyString :: r
      else match r with
           | h :: t => String c h :: t
           | [] => [String c EmptyString]
           end
  end.

(** ["/".join(l)] *)
Fixpoint join_slash (l : list string) : string :=
  match l with
  | [] => EmptyString
  | [x] => x
  | x :: rest => x +:+ "/" +:+ join_slash rest
  end.

(** [s.lstrip("/")] together with the number of characters removed. *)
Fixpoint lstrip_slash (s : string) : nat * string :=
  match s with
  | String c s' =>
      if Ascii.eqb c "/"
      then let '(n, r) := lstrip_slash s' in (S n, r)
      else (O, s)
  | EmptyString => (O, EmptyString)
  end.

(** [str(n)] for an [int]. *)
Definition str_int (n : Z) : string := pretty n.

(** The bytes a string stands for. *)
Fixpoint bytes (s : string) : list Z :=
  match s with
  | EmptyString => []
  | String c s' => Z.of_nat (nat_of_ascii c) :: bytes s'
  end.

(** A continuation byte of UTF-8. *)
Definition continuation (b : Z) : bool := (128 <=? b) && (b <=? 191).

(** Whether bytes are well-formed UTF-8 as Python decodes it: no overlong
    form, no surrogate, nothing above U+10FFFF. *)
Fixpoint utf8_valid (bs : list Z) : bool :=
  match bs with
  | [] => true
  | b0 :: r0 =>
      if b0 <? 128 then utf8_valid r0
      else
        match r0 with
        | [] => false
        | b1 :: r1 =>
            if (194 <=? b0) && (b0 <=? 223)
            then continuation b1 && utf8_valid r1
            else
              match r1 with
              | [] => false
              | b2 :: r2 =>
                  if (224 <=? b0) && (b0 <=? 239) then
                    (if b0 =? 224 then (160 <=? b1) && (b1 <=? 191)
                     else if b0 =? 237 then (128 <=? b1) && (b1 <=? 159)
                     else continuation b1)
                    && continuation b2 && utf8_valid r2
                  else
                    match r2 with
                    | [] => false
                    | b3 :: r3 =>
                        (240 <=? b0) && (b0 <=? 244)
                        && (if b0 =? 240 then (144 <=? b1) && (b1 <=? 191)
                            else if b0 =? 244
                            then (128 <=? b1) && (b1 <=? 143)
                            else continuation b1)
                        && continuation b2 && continuation b3
                        && utf8_valid r3
                    end
              end
        end
  end.

(** [s.encode()]: [None] is UnicodeEncodeError. *)
Definition encode (s : string) : option (list Z) :=
  if utf8_valid (bytes s) then Some (bytes s) else None.

(** [b.decode()] for bytes held as a string: [None] is
    UnicodeDecodeError. *)
Definition decode (b : string) : option string :=
  if utf8_valid (bytes b) then Some b else None.

(** [int(x)] for a number: truncation towards zero. *)
Definition int_trunc (x : Q) : Z := Z.quot (Qnum x) (Z.pos (Qden x)).

(** [round(x)]: nearest integer, ties to the even one. *)
Definition round (x : Q) : Z :=
  let f := Qfloor x in
  let d := Qcompare (x - inject_Z f) (1 # 2) in
  match d with
  | Lt => f
  | Gt => f + 1
  | Eq => if Z.even f then f else f + 1
  end.

End Py.

(* ===================================================================== *)
(** ** hashlib.md5 *)
(* ===================================================================== *)

Module MD5.

Definition w32 (x : Z) : Z := x mod 2 ^ 32.
Definition add32 (a b : Z) : Z := w32 (a + b).
Definition not32 (x : Z) : Z := Z.lxor x 0xffffffff.
Definition rotl32 (x c : Z) : Z :=
  Z.lor (w32 (Z.shiftl x c)) (Z.shiftr x (32 - c)).

Definition K : list Z :=
  [ 0xd76aa478; 0xe8c7b756; 0x242070db; 0xc1bdceee;
    0xf57c0faf; 0x4787c62a; 0xa8304613; 0xfd469501;
    0x698098d8; 0x8b44f7af; 0xffff5bb1; 0x895cd7be;
    0x6b901122; 0xfd987193; 0xa679438e; 0x49b40821;
    0xf61e2562; 0xc040b340; 0x265e5a51; 0xe9b6c7aa;
    0xd62f105d; 0x02441453; 0xd8a1e681; 0xe7d3fbc8;
    0x21e1cde6; 0xc33707d6; 0xf4d50d87; 0x455a14ed;
    0xa9e3e905; 0xfcefa3f8; 0x676f02d9; 0x8d2a4c8a;
    0xfffa3942; 0x8771f681; 0x6d9d6122; 0xfde5380c;
    0xa4beea44; 0x4bdecfa9; 0xf6bb4b60; 0xbebfbc70;
    0x289b7ec6; 0xeaa127fa; 0xd4ef3085; 0x04881d05;
    0xd9d4d039; 0xe6db99e5; 0x1fa27cf8; 0xc4ac5665;
    0xf4292244; 0x432aff97; 0xab9423a7; 0xfc93a039;
    0x655b59c3; 0x8f0ccc92; 0xffeff47d; 0x85845dd1;
    0x6fa87e4f; 0xfe2ce6e0; 0xa3014314; 0x4e0811a1;
    0xf7537e82; 0xbd3af235; 0x2ad7d2bb; 0xeb86d391 ].

Definition R : list Z :=
  [ 7; 12; 17; 22; 7; 12; 17; 22; 7; 12; 17; 22; 7; 12; 17; 22;
    5;  9; 14; 20; 5;  9; 14; 20; 5;  9; 14; 20; 5;  9; 14; 20;
    4; 11; 16; 23; 4; 11; 16; 23; 4; 11; 16; 23; 4; 11; 16; 23;
    6; 10; 15; 21; 6; 10; 15; 21; 6; 10; 15; 21; 6; 10; 15; 21 ].

Record state := mk_state { sa : Z; sb : Z; sc : Z; sd : Z }.

Definition init : state :=
  mk_state 0x67452301 0xefcdab89 0x98badcfe 0x10325476.

(** One of the 64 operations of a block; [m] holds its 16 words. *)
Definition op (m : list Z) (s : state) (i : nat) : state :=
  let '(mk_state a b c d) := s in
  let iz := Z.of_nat i in
  let '(f, g) :=
    if iz <? 16 then (Z.lor (Z.land b c) (Z.land (not32 b) d), iz)
    else if iz <? 32 then
      (Z.lor (Z.land d b) (Z.land (not32 d) c), (5 * iz + 1) mod 16)
    else if iz <? 48 then (Z.lxor (Z.lxor b c) d, (3 * iz + 5) mod 16)
    else (Z.lxor c (Z.lor b (not32 d)), (7 * iz) mod 16) in
  let f' := add32 (add32 (add32 f a) (nth i K 0)) (nth (Z.to_nat g) m 0) in
  mk_state d (add32 b (rotl32 f' (nth i R 0))) b c.

Definition block (s : state) (m : list Z) : state :=
  let s' := fold_left (op m) (seq 0 64) s in
  mk_state (add32 (sa s) (sa s')) (add32 (sb s) (sb s'))
           (add32 (sc s) (sc s')) (add32 (sd s) (sd s')).

(** The [n] low bytes of [x], least significant first. *)
Fixpoint le_bytes (n : nat) (x : Z) : list Z :=
  match n with
  | O => []
  | S n' => x mod 256 :: le_bytes n' (x / 256)
  end.

Fixpoint le_word (bs : list Z) : Z :=
  match bs with
  | [] => 0
  | b :: rest => b + 256 * le_word rest
  end.

Definition pad (msg : list Z) : list Z :=
  let len := Z.of_nat (length msg) in
  let zeros := Z.to_nat ((55 - len) mod 64) in
  msg ++ [0x80] ++ repeat 0 zeros ++ le_bytes 8 ((8 * len) mod 2 ^ 64).

(** The words of the successive 64-byte blocks of [bs]. *)
Fixpoint blocks (n : nat) (bs : list Z) : list (list Z) :=
  match n with
  | O => []
  | S n' =>
      map (fun j => le_word (firstn 4 (skipn (4 * j) bs))) (seq 0 16)
      :: blocks n' (skipn 64 bs)
  end.

Definition digest (msg : list Z) : list Z :=
  let p := pad msg in
  let s := fold_left block (blocks (Nat.div (length p) 64) p) init in
  le_bytes 4 (sa s) ++ le_bytes 4 (sb s) ++ le_bytes 4 (sc s)
  ++ le_bytes 4 (sd s).

Definition hex_digit (n : Z) : ascii :=
  if n <? 10 then ascii_of_nat (Z.to_nat (48 + n))
  else ascii_of_nat (Z.to_nat (87 + n)).

Fixpoint hex (bs : list Z) : string :=
  match bs with
  | [] => EmptyString
  | b :: rest =>
      String (hex_digit ((b / 16) mod 16))
        (String (hex_digit (b mod 16)) (hex rest))
  end.

(** [hashlib.md5(data).hexdigest()] *)
Definition hexdigest (data : list Z) : string := hex (digest data).

End MD5.

(* ===================================================================== *)
(** ** pathlib and os.path (POSIX flavour) *)
(* ===================================================================== *)

Module PurePath.

Record t := mk { root : string; parts : list string }.

(** The root of a path string and what follows it: exactly two leading
    slashes are kept as the root ["//"], any other number gives ["/"]. *)
Definition splitroot (part : string) : string * string :=
  let '(n, rel) := Py.lstrip_slash part in
  match n with
  | O => ("", part)
  | 2%nat => ("//", rel)
  | _ => ("/", rel)
  end.

Definition keep_component (x : string) : bool :=
  negb (String.eqb x "") && negb (String.eqb x ".").

Definition components (rel : string) : list string :=
  List.filter keep_component (Py.split_slash rel).

(** [Path(s)] *)
Definition of_string (s : string) : t :=
  let '(r, rel) := splitroot s in mk r (components rel).

(** [p / s]: an absolute right operand replaces the left one. *)
Definition joinpath (p : t) (s : string) : t :=
  let q := of_string s in
  if String.eqb (root q) "" then mk (root p) (parts p ++ parts q) else q.

(** [str(p)] *)
Definition to_string (p : t) : string :=
  match root p, parts p with
  | EmptyString, [] => "."
  | r, ps => r +:+ Py.join_slash ps
  end.

(** [p.name] *)
Definition name (p : t) : string := List.last (parts p) "".

(** [p.parent] *)
Definition parent (p : t) : t := mk (root p) (removelast (parts p)).

(** Where the suffix of a file name starts: the last dot, when it is
    neither the first nor the last character. *)
Definition suffix_start (n : string) : option nat :=
  match Py.rfind_dot n with
  | Some i =>
      if (0 <? i)%nat && (i <? String.length n - 1)%nat then Some i else None
  | None => None
  end.

(** [p.suffix] *)
Definition suffix (p : t) : string :=
  match suffix_start (name p) with
  | Some i => Py.drop i (name p)
  | None => ""
  end.

(** [p.stem] *)
Definition stem (p : t) : string :=
  match suffix_start (name p) with
  | Some i => Py.take i (name p)
  | None => name p
  end.

End PurePath.

Module OsPath.

Definition endswith_slash (s : string) : bool :=
  match List.last (list_ascii_of_string s) "x"%char with
  | "/"%char => true
  | _ => false
  end.

(** [os.path.join(a, b)] *)
Definition join (a b : string) : string :=
  if Py.startswith b "/" then b
  else if String.eqb a "" || endswith_slash a then a +:+ b
  else a +:+ "/" +:+ b.

End OsPath.

(* ===================================================================== *)
(** ** The file system *)
(* ===================================================================== *)

Module FS.

(** A directory lists its entries in the order the operating system
    reports them; a name is looked up from the front. *)
#[warnings="-register-all"] Inductive node :=
| File (mtime : Z)
| Dir (mtime : Z) (entries : list (string * node)).

(** What [stat] fails with: the not-found errors ([ENOENT], [ENOTDIR],
    ...), or another error of the operating system ([ENAMETOOLONG],
    [EACCES], ...) with its text. *)
Inductive error :=
| NotFound
| Failure (what : string).

(** A file system: its tree, the working directory, and the paths on
    which [stat] fails whatever the tree holds. *)
Record t := make {
  tree : node;
  cwd : list string;
  faults : PurePath.t -> option error
}.

(** A file system on which [stat] fails only for what the tree lacks. *)
Definition mk (tree : node) (cwd : list string) : t :=
  make tree cwd (fun _ => None).

Definition st_mtime (n : node) : Z :=
  match n with File m => m | Dir m _ => m end.

Definition is_dir (n : node) : bool :=
  match n with Dir _ _ => true | File _ => false end.

Fixpoint lookup_entry (name : string) (es : list (string * node))
  : option node :=
  match es with
  | [] => None
  | (k, n) :: rest => if String.eqb k name then Some n else lookup_entry name rest
  end.

(** One component of a path, from the directory on top of [stack] (the
    directories entered so far, innermost first). *)
Definition step (stack : list node) (comp : string) : option (list node) :=
  match stack with
  | Dir _ es :: ups =>
      if String.eqb comp "" || String.eqb comp "." then Some stack
      else if String.eqb comp ".." then
        Some (match ups with [] => stack | _ => ups end)
      else match lookup_entry comp es with
           | Some n => Some (n :: stack)
           | None => None
           end
  | _ => None
  end.

Fixpoint steps (stack : list node) (comps : list string)
  : option (list node) :=
  match comps with
  | [] => Some stack
  | c :: cs =>
      match step stack c with
      | Some st => steps st cs
      | None => None
      end
  end.

(** What the tree holds at a path. *)
Definition lookup (fs : t) (path : string) : option node :=
  if String.eqb path "" then None
  else
    let start :=
      if Py.startswith path "/" then Some [tree fs]
      else steps [tree fs] (cwd fs) in
    match start with
    | Some st =>
        match steps st (Py.split_slash path) with
        | Some (n :: _) => Some n
        | _ => None
        end
    | None => None
    end.

(** The failure of [stat] that the tree does not show, if any; it
    depends on where the path leads, not on how it is spelled. *)
Definition fault (fs : t) (path : string) : option error :=
  faults fs (PurePath.of_string path).

(** [os.stat(path)], with the error it raises. *)
Definition os_stat (fs : t) (path : string) : error + node :=
  match fault fs path with
  | Some e => inl e
  | None =>
      match lookup fs path with
      | Some n => inr n
      | None => inl NotFound
      end
  end.

(** [os.stat(path)] when it succeeds. *)
Definition stat (fs : t) (path : string) : option node :=
  match os_stat fs path with
  | inr n => Some n
  | inl _ => None
  end.

(** [os.path.exists(path)]: false for every error of [stat]. *)
Definition exists_ (fs : t) (path : string) : bool :=
  match stat fs path with Some _ => true | None => false end.

(** A name a directory can list: not empty, not ["."] or [".."], without
    a slash.  Another entry of the tree cannot be reached by a path, and
    is not listed. *)
Definition listable (name : string) : bool :=
  negb (String.eqb name "") && negb (String.eqb name ".")
  && negb (String.eqb name "..") && negb (Py.contains name "/").

Definition dirnames (es : list (string * node)) : list string :=
  map fst (List.filter (fun e => listable (fst e) && is_dir (snd e)) es).

Definition filenames (es : list (string * node)) : list string :=
  map fst
      (List.filter (fun e => listable (fst e) && negb (is_dir (snd e))) es).

(** What one step of [os.walk] reads at [top]: the names of the
    sub-directories and of the other entries; [None] when [top] cannot be
    listed, which [os.walk] passes over in silence. *)
Definition listdir (fs : t) (top : string)
  : option (list string * list string) :=
  match stat fs top with
  | Some (Dir _ es) => Some (dirnames es, filenames es)
  | _ => None
  end.

(** The depth at which a walk ends.  It is not reached: a path of that
    many components is longer than [PATH_MAX] (4096 bytes), and a
    directory with such a path cannot be listed. *)
Definition walk_depth : nat := 4096.

(** [list(os.walk(top))], top-down, on a file system that does not
    change during the walk: the triple of the directory itself, then the
    walks of its sub-directories under [os.path.join(top, name)]. *)
Fixpoint walk_from (depth : nat) (fs : t) (top : string)
  : list (string * list string * list string) :=
  match depth with
  | O => []
  | S depth' =>
      match listdir fs top with
      | None => []
      | Some (dirs, files) =>
          (top, dirs, files)
          :: flat_map (fun name => walk_from depth' fs (OsPath.join top name))
                      dirs
      end
  end.

Definition walk (fs : t) (top : string)
  : list (string * list string * list string) :=
  walk_from walk_depth fs top.

End FS.

(* ===================================================================== *)
(** ** State, environment and effects *)
(* ===================================================================== *)

Inductive exn :=
| FileNotFoundError
| TimeoutError
| OSError (what : string)
| UnicodeEncodeError
| UnicodeDecodeError.

(** The exception of a failing [stat]. *)
Definition stat_exn (e : FS.error) : exn :=
  match e with
  | FS.NotFound => FileNotFoundError
  | FS.Failure what => OSError what
  end.

(** A subprocess that was started: its exit status, what it wrote on its
    standard error, the seconds it runs for, and the file system it leaves
    to the caller. *)
Record process := mk_process {
  returncode : Z;
  stderr : string;
  run_time : Q;
  fs_after : FS.t
}.

(** The environment as the generator meets it: what starting a command
    gives (the first argument of [spawn] is the number of subprocesses
    started before), what creating a directory with its parents gives, and
    the decimal form [str] gives a [float]. *)
Record Host := mk_host {
  spawn : nat -> list string -> FS.t -> exn + process;
  mkdir_parents : string -> FS.t -> exn + FS.t;
  str_float : Q -> string
}.

Inductive level := DEBUG | INFO | WARNING | ERROR.

Definition log_record : Type := level * string * list string.

(** The mutable fields of a [ThumbnailGenerator] and its surroundings. *)
Record World := mk_world {
  fs : FS.t;
  _ffmpeg_available : option bool;
  _cache : gmap string string;
  spawned : list (list string);
  logged : list log_record
}.

Definition with_fs (f : FS.t) (w : World) : World :=
  mk_world f (_ffmpeg_available w) (_cache w) (spawned w) (logged w).
Definition with_ffmpeg_available (b : option bool) (w : World) : World :=
  mk_world (fs w) b (_cache w) (spawned w) (logged w).
Definition with_cache (c : gmap string string) (w : World) : World :=
  mk_world (fs w) (_ffmpeg_available w) c (spawned w) (logged w).
Definition with_spawned (l : list (list string)) (w : World) : World :=
  mk_world (fs w) (_ffmpeg_available w) (_cache w) l (logged w).
Definition with_logged (l : list log_record) (w : World) : World :=
  mk_world (fs w) (_ffmpeg_available w) (_cache w) (spawned w) l.

Inductive outcome (A : Type) :=
| Return (a : A) (w : World)
| Raise (e : exn) (w : World).
Arguments Return {A} a w.
Arguments Raise {A} e w.

Definition M (A : Type) : Type := World -> outcome A.

Definition ret {A} (a : A) : M A := fun w => Return a w.

Definition bind {A B} (m : M A) (k : A -> M B) : M B :=
  fun w =>
    match m w with
    | Return a w' => k a w'
    | Raise e w' => Raise e w'
    end.

Definition raise {A} (e : exn) : M A := fun w => Raise e w.

(** [try: body except ...: handler] *)
Definition try_except {A} (body : M A) (handler : exn -> M A) : M A :=
  fun w =>
    match body w with
    | Return a w' => Return a w'
    | Raise e w' => handler e w'
    end.

Declare Scope py_scope.
Delimit Scope py_scope with py.
Notation "x <-- m ;; k" := (bind m (fun x => k))
  (at level 100, m at next level, right associativity) : py_scope.
Notation "m ;;; k" := (bind m (fun _ => k))
  (at level 100, right associativity) : py_scope.
Local Open Scope py_scope.

(** A [for] loop that threads an accumulator. *)
Fixpoint for_each {A S} (l : list A) (body : A -> S -> M S) (s : S) : M S :=
  match l with
  | [] => ret s
  | x :: rest => s' <-- body x s ;; for_each rest body s'
  end.

Definition gets {A} (f : World -> A) : M A := fun w => Return (f w) w.
Definition modify (f : World -> World) : M unit := fun w => Return tt (f w).

Definition log (l : level) (msg : string) (args : list string) : M unit :=
  modify (fun w => with_logged (logged w ++ [(l, msg, args)])%list w).

Definition str_exn (e : exn) : string :=
  match e with
  | FileNotFoundError => "FileNotFoundError"
  | TimeoutError => "TimeoutError"
  | OSError what => what
  | UnicodeEncodeError => "UnicodeEncodeError"
  | UnicodeDecodeError => "UnicodeDecodeError"
  end.

(** A call of a method that returns or raises without touching the
    state. *)
Definition lift {A} (r : exn + A) : M A :=
  fun w =>
    match r with
    | inl e => Raise e w
    | inr a => Return a w
    end.

Section Effects.

Variable os : Host.

(** [asyncio.create_subprocess_exec] on a command: every call is recorded,
    whether or not the program could be started. *)
Definition create_subprocess_exec (cmd : list string) : M process :=
  fun w =>
    let w' := with_spawned (spawned w ++ [cmd])%list w in
    match spawn os (length (spawned w)) cmd (fs w) with
    | inl e => Raise e w'
    | inr p => Return p w'
    end.

(** [await process.wait()] *)
Definition wait (p : process) : M unit :=
  modify (with_fs (fs_after p)).

(** [await asyncio.wait_for(process.communicate(), timeout)]; the
    result is the captured standard error. *)
Definition wait_for_communicate (p : process) (timeout : Q) : M string :=
  modify (with_fs (fs_after p)) ;;;
  if Qle_bool (run_time p) timeout then ret (stderr p)
  else raise TimeoutError.

(** [path.mkdir(parents=True, exist_ok=True)] *)
Definition mkdir (path : PurePath.t) : M unit :=
  fun w =>
    match mkdir_parents os (PurePath.to_string path) (fs w) with
    | inl e => Raise e w
    | inr f => Return tt (with_fs f w)
    end.

(** [os.path.exists(path)] *)
Definition os_path_exists (path : string) : M bool :=
  gets (fun w => FS.exists_ (fs w) path).

(** [path.exists()] of pathlib (CPython 3.11 to 3.13): false for the
    not-found errors of [stat]; another error of the operating system is
    raised. *)
Definition Path_exists (f : FS.t) (path : PurePath.t) : exn + bool :=
  match FS.os_stat f (PurePath.to_string path) with
  | inr _ => inr true
  | inl FS.NotFound => inr false
  | inl (FS.Failure what) => inl (OSError what)
  end.

Definition path_exists (path : PurePath.t) : M bool :=
  fun w => lift (Path_exists (fs w) path) w.

(** [path.stat().st_mtime] *)
Definition path_st_mtime (path : PurePath.t) : M Z :=
  fun w =>
    match FS.os_stat (fs w) (PurePath.to_string path) with
    | inr n => Return (FS.st_mtime n) w
    | inl e => Raise (stat_exn e) w
    end.

End Effects.

(* ===================================================================== *)
(** ** const.py *)
(* ===================================================================== *)

Definition DEFAULT_THUMBNAIL_WIDTH : Z := 320.
Definition DEFAULT_THUMBNAIL_HEIGHT : Z := 180.
Definition DEFAULT_THUMBNAIL_QUALITY : Z := 70.
Definition DEFAULT_FRAME_POSITION : Q := 1 # 2.
Definition DEFAULT_THUMBNAIL_FOLDER : string := ".thumbnails".

Definition VIDEO_EXTENSIONS : gset string :=
  {[ ".mp4"; ".mkv"; ".avi"; ".mov"; ".webm"; ".m4v"; ".ts" ]}.
Definition IMAGE_EXTENSIONS : gset string :=
  {[ ".jpg"; ".jpeg"; ".png"; ".gif"; ".webp" ]}.

(* ===================================================================== *)
(** ** thumbnail.py: class ThumbnailGenerator *)
(* ===================================================================== *)

(** The fields set by [__init__] and never assigned again. *)
Record ThumbnailGenerator := mk_generator {
  media_paths : list string;
  width : Z;
  height : Z;
  quality : Z;
  frame_position : Q;
  thumbnail_folder : string
}.

(** The statistics of one bulk scan. *)
Record Stats := mk_stats {
  scanned : Z;
  generated : Z;
  skipped : Z;
  failed : Z
}.

Section Generator.

Variable os : Host.
Variable self : ThumbnailGenerator.

Definition async_check_ffmpeg : M bool :=
  known <-- gets _ffmpeg_available ;;
  match known with
  | Some b => ret b
  | None =>
      available <--
        try_except
          (process <-- create_subprocess_exec os ["ffmpeg"; "-version"] ;;
           wait process ;;;
           ret (returncode process =? 0))
          (fun e =>
             match e with
             | FileNotFoundError => ret false
             | _ => raise e
             end) ;;
      modify (with_ffmpeg_available (Some available)) ;;;
      (if negb available
       then log WARNING "ffmpeg not found - thumbnail generation disabled" []
       else log INFO "ffmpeg found - thumbnail generation enabled" []) ;;;
      ret available
  end.

(** [_get_thumbnail_path]; it raises where [media_path.encode()]
    does. *)
Definition _get_thumbnail_path (media_path : string) : exn + PurePath.t :=
  let media_file := PurePath.of_string media_path in
  match Py.encode media_path with
  | None => inl UnicodeEncodeError
  | Some encoded =>
      let path_hash := Py.take 8 (MD5.hexdigest encoded) in
      let thumb_name :=
        PurePath.stem media_file +:+ "_" +:+ path_hash +:+ ".jpg" in
      let thumb_dir := PurePath.joinpath (PurePath.parent media_file)
                                         (thumbnail_folder self) in
      inr (PurePath.joinpath thumb_dir thumb_name)
  end.

Definition _is_video (path : string) : bool :=
  bool_decide
    (Py.lower (PurePath.suffix (PurePath.of_string path)) ∈ VIDEO_EXTENSIONS).

Definition _is_image (path : string) : bool :=
  bool_decide
    (Py.lower (PurePath.suffix (PurePath.of_string path)) ∈ IMAGE_EXTENSIONS).

(** The loop over [self.media_paths] of [_resolve_media_path]. *)
Fixpoint first_under (f : FS.t) (relative_path : string)
         (bases : list string) : exn + option string :=
  match bases with
  | [] => inr None
  | base_path :: rest =>
      let test_path :=
        PurePath.joinpath (PurePath.of_string base_path) relative_path in
      match Path_exists f test_path with
      | inl e => inl e
      | inr true => inr (Some (PurePath.to_string test_path))
      | inr false => first_under f relative_path rest
      end
  end.

(** [_resolve_media_path], on the file system [f]; it raises where an
    [exists()] of pathlib does. *)
Definition _resolve_media_path (f : FS.t) (media_content_id : string)
  : exn + option string :=
  if Py.startswith media_content_id "media-source://media_source/" then
    let relative_path :=
      Py.remove_all "media-source://media_source/" media_content_id in
    let relative_path :=
      if Py.startswith relative_path "local/"
      then Py.drop 6 relative_path else relative_path in
    let media_base := PurePath.of_string "/media" in
    let full_path := PurePath.joinpath media_base relative_path in
    match Path_exists f full_path with
    | inl e => inl e
    | inr true => inr (Some (PurePath.to_string full_path))
    | inr false => first_under f relative_path (media_paths self)
    end
  else if FS.exists_ f media_content_id then inr (Some media_content_id)
  else inr None.

Definition scale_filter : string :=
  "scale=" +:+ Py.str_int (width self) +:+ ":" +:+ Py.str_int (height self)
  +:+ ":force_original_aspect_ratio=decrease,pad="
  +:+ Py.str_int (width self) +:+ ":" +:+ Py.str_int (height self)
  +:+ ":(ow-iw)/2:(oh-ih)/2".

(** [str(int((100 - self.quality) / 3.33))].  Python divides in binary
    floating point; the quotient is taken here as the exact rational.  For
    a quality of the configured range 10..100 the exact quotient is 0 or
    at least 1/333 away from every integer, much further than the
    rounding error of the division, so that both truncate to the same
    integer. *)
Definition quality_argument : string :=
  Py.str_int (Py.int_trunc (inject_Z (100 - quality self) / (333 # 100))).

Definition video_command (video_path : string) (thumb_path : PurePath.t)
  : list string :=
  [ "ffmpeg"; "-y";
    "-ss"; str_float os (frame_position self);
    "-i"; video_path;
    "-vframes"; "1";
    "-vf"; scale_filter;
    "-q:v"; quality_argument;
    PurePath.to_string thumb_path ].

Definition image_command (image_path : string) (thumb_path : PurePath.t)
  : list string :=
  [ "ffmpeg"; "-y";
    "-i"; image_path;
    "-vf"; scale_filter;
    "-q:v"; quality_argument;
    PurePath.to_string thumb_path ].

(** [stderr.decode() if stderr else "Unknown error"] *)
Definition stderr_text (err : string) : M string :=
  if String.eqb err "" then ret "Unknown error"
  else match Py.decode err with
       | Some text => ret text
       | None => raise UnicodeDecodeError
       end.

Definition _generate_video_thumbnail (video_path : string)
           (thumb_path : PurePath.t) : M bool :=
  available <-- async_check_ffmpeg ;;
  if negb available then ret false
  else
    mkdir os (PurePath.parent thumb_path) ;;;
    try_except
      (let cmd := video_command video_path thumb_path in
       process <-- create_subprocess_exec os cmd ;;
       err <-- wait_for_communicate process 30 ;;
       if negb (returncode process =? 0) then
         text <-- stderr_text err ;;
         log WARNING "ffmpeg failed for %s: %s" [video_path; text] ;;;
         ret false
       else
         log DEBUG "Generated thumbnail for: %s" [video_path] ;;;
         ret true)
      (fun ex =>
         match ex with
         | TimeoutError =>
             log WARNING "Thumbnail generation timed out for: %s"
                 [video_path] ;;;
             ret false
         | _ =>
             log ERROR "Error generating thumbnail for %s: %s"
                 [video_path; str_exn ex] ;;;
             ret false
         end).

Definition _generate_image_thumbnail (image_path : string)
           (thumb_path : PurePath.t) : M bool :=
  available <-- async_check_ffmpeg ;;
  if negb available then ret false
  else
    mkdir os (PurePath.parent thumb_path) ;;;
    try_except
      (let cmd := image_command image_path thumb_path in
       process <-- create_subprocess_exec os cmd ;;
       err <-- wait_for_communicate process 15 ;;
       if negb (returncode process =? 0) then
         text <-- stderr_text err ;;
         log WARNING "ffmpeg failed for %s: %s" [image_path; text] ;;;
         ret false
       else ret true)
      (fun ex =>
         match ex with
         | TimeoutError =>
             log WARNING "Thumbnail generation timed out for: %s"
                 [image_path] ;;;
             ret false
         | _ =>
             log ERROR "Error generating thumbnail for %s: %s"
                 [image_path; str_exn ex] ;;;
             ret false
         end).

(** [async_get_thumbnail] from the comment "Resolve actual file path"
    on: what runs when the memoized mapping gave no answer. *)
Definition get_thumbnail_resolved (media_path : string) : M (option string) :=
  actual <-- (fun w => lift (_resolve_media_path (fs w) media_path) w) ;;
  found <--
    match actual with
    | None => ret false
    | Some actual_path =>
        if String.eqb actual_path "" then ret false
        else os_path_exists actual_path
    end ;;
  match actual, found with
  | Some actual_path, true =>
      thumb_path <-- lift (_get_thumbnail_path actual_path) ;;
      thumb_exists <-- path_exists thumb_path ;;
      current <--
        (if thumb_exists then
           thumb_mtime <-- path_st_mtime thumb_path ;;
           media_mtime <-- path_st_mtime (PurePath.of_string actual_path) ;;
           ret (thumb_mtime >=? media_mtime)
         else ret false) ;;
      if current then
        modify (fun w =>
          with_cache (<[media_path := PurePath.to_string thumb_path]> (_cache w)) w) ;;;
        ret (Some (PurePath.to_string thumb_path))
      else
        generation <--
          (if _is_video actual_path then
             success <-- _generate_video_thumbnail actual_path thumb_path ;;
             ret (Some success)
           else if _is_image actual_path then
             success <-- _generate_image_thumbnail actual_path thumb_path ;;
             ret (Some success)
           else
             log DEBUG "Unsupported file type: %s" [actual_path] ;;;
             ret None) ;;
        match generation with
        | None => ret None
        | Some true =>
            modify (fun w =>
              with_cache (<[media_path := PurePath.to_string thumb_path]> (_cache w)) w) ;;;
            ret (Some (PurePath.to_string thumb_path))
        | Some false => ret None
        end
  | _, _ =>
      log DEBUG "Media file not found: %s" [media_path] ;;;
      ret None
  end.

Definition async_get_thumbnail (media_path : string) : M (option string) :=
  memo <-- gets (fun w => _cache w !! media_path) ;;
  match memo with
  | Some thumb_path =>
      still_there <-- os_path_exists thumb_path ;;
      if still_there then ret (Some thumb_path)
      else get_thumbnail_resolved media_path
  | None => get_thumbnail_resolved media_path
  end.

Definition count_scanned (s : Stats) : Stats :=
  mk_stats (scanned s + 1) (generated s) (skipped s) (failed s).
Definition count_generated (s : Stats) : Stats :=
  mk_stats (scanned s) (generated s + 1) (skipped s) (failed s).
Definition count_skipped (s : Stats) : Stats :=
  mk_stats (scanned s) (generated s) (skipped s + 1) (failed s).
Definition count_failed (s : Stats) : Stats :=
  mk_stats (scanned s) (generated s) (skipped s) (failed s + 1).

(** The body of [for filename in files]. *)
Definition scan_file (root filename : string) (stats : Stats) : M Stats :=
  let file_path := OsPath.join root filename in
  let ext := Py.lower (PurePath.suffix (PurePath.of_string filename)) in
  if negb (bool_decide (ext ∈ VIDEO_EXTENSIONS))
     && negb (bool_decide (ext ∈ IMAGE_EXTENSIONS))
  then ret stats
  else
    let stats := count_scanned stats in
    thumb_path <-- lift (_get_thumbnail_path file_path) ;;
    thumb_exists <-- path_exists thumb_path ;;
    current <--
      (if thumb_exists then
         thumb_mtime <-- path_st_mtime thumb_path ;;
         media_mtime <-- path_st_mtime (PurePath.of_string file_path) ;;
         ret (thumb_mtime >=? media_mtime)
       else ret false) ;;
    if current then ret (count_skipped stats)
    else
      success <--
        (if bool_decide (ext ∈ VIDEO_EXTENSIONS)
         then _generate_video_thumbnail file_path thumb_path
         else _generate_image_thumbnail file_path thumb_path) ;;
      if success then ret (count_generated stats)
      else ret (count_failed stats).

(** The body of [for root, _, files in os.walk(base_path)]. *)
Definition scan_directory (entry : string * list string * list string)
           (stats : Stats) : M Stats :=
  let '(root, _, files) := entry in
  if Py.contains root (thumbnail_folder self) then ret stats
  else for_each files (scan_file root) stats.

(** [for root, _, files in os.walk(top)] with its body: [os.walk] lists
    [top] when it reaches it, hands the triple to the body, and then walks
    the sub-directories it listed, each as the file system holds it by
    then. *)
Fixpoint scan_walk (depth : nat) (top : string) (stats : Stats) : M Stats :=
  match depth with
  | O => ret stats
  | S depth' =>
      listing <-- gets (fun w => FS.listdir (fs w) top) ;;
      match listing with
      | None => ret stats
      | Some (dirs, files) =>
          stats <-- scan_directory (top, dirs, files) stats ;;
          for_each dirs
                   (fun name => scan_walk depth' (OsPath.join top name))
                   stats
      end
  end.

(** The body of [for base_path in paths_to_scan]. *)
Definition scan_base_path (base_path : string) (stats : Stats) : M Stats :=
  there <-- os_path_exists base_path ;;
  if negb there then
    log WARNING "Media path does not exist: %s" [base_path] ;;;
    ret stats
  else scan_walk FS.walk_depth base_path stats.

Definition async_generate_all_thumbnails (path : option string) : M Stats :=
  let stats := mk_stats 0 0 0 0 in
  let paths_to_scan :=
    match path with
    | Some p => if String.eqb p "" then media_paths self else [p]
    | None => media_paths self
    end in
  stats <-- for_each paths_to_scan scan_base_path stats ;;
  log INFO "Thumbnail generation: %d scanned, %d generated, %d skipped, %d failed"
      [Py.str_int (scanned stats); Py.str_int (generated stats);
       Py.str_int (skipped stats); Py.str_int (failed stats)] ;;;
  ret stats.

Definition clear_cache : M unit :=
  modify (with_cache ∅).

End Generator.

(* ===================================================================== *)
(** ** Vocabulary of the properties *)
(* ===================================================================== *)

(** The world an operation leaves behind, whether it returned or raised. *)
Definition world_after {A} (o : outcome A) : World :=
  match o with
  | Return _ w => w
  | Raise _ w => w
  end.

(** The command of the tool probe. *)
Definition probe_command : list string := ["ffmpeg"; "-version"].

Definition is_probe (cmd : list string) : bool :=
  bool_decide (cmd = probe_command).

Definition count_probes (l : list (list string)) : nat :=
  length (List.filter is_probe l).

(** The calls a client can make on a generator. *)
Inductive operation :=
| CheckFfmpeg
| GetThumbnail (media_path : string)
| GenerateAll (path : option string)
| GenerateVideo (video_path : string) (thumb_path : PurePath.t)
| GenerateImage (image_path : string) (thumb_path : PurePath.t)
| ClearCache.

Definition run_operation (os : Host) (self : ThumbnailGenerator)
           (op : operation) : M unit :=
  match op with
  | CheckFfmpeg => async_check_ffmpeg os ;;; ret tt
  | GetThumbnail media_path => async_get_thumbnail os self media_path ;;; ret tt
  | GenerateAll path => async_generate_all_thumbnails os self path ;;; ret tt
  | GenerateVideo v t => _generate_video_thumbnail os self v t ;;; ret tt
  | GenerateImage i t => _generate_image_thumbnail os self i t ;;; ret tt
  | ClearCache => clear_cache
  end.

(** A client running operations one after the other, going on after an
    operation that raised. *)
Definition run_operations (os : Host) (self : ThumbnailGenerator)
           (ops : list operation) (w : World) : World :=
  fold_left (fun w op => world_after (run_operation os self op w)) ops w.

(** The quotient [(100 - q) / 3.33], truncated and rounded. *)
Definition truncated_below_rounded (q : Z) : bool :=
  let x := (inject_Z (100 - q) / (333 # 100))%Q in
  (Py.int_trunc x =? Qfloor x)
  && (Py.int_trunc x <=? Py.round x) && (Py.round x <=? Py.int_trunc x + 1).

(** Whether a started render subprocess counts as a success for a caller
    that waits [timeout] seconds: it was started, it ended in time, and it
    exited with code 0. *)
Definition exited_zero (r : exn + process) (timeout : Q) : bool :=
  match r with
  | inr p => Qle_bool (run_time p) timeout && (returncode p =? 0)
  | inl _ => false
  end.

Definition is_diagnostic (r : log_record) : bool :=
  match r with
  | (WARNING, _, _) | (ERROR, _, _) => true
  | _ => false
  end.

(* ===================================================================== *)
(** ** Concrete generators, hosts and worlds *)
(* ===================================================================== *)

Definition default_generator : ThumbnailGenerator :=
  mk_generator ["/media"] DEFAULT_THUMBNAIL_WIDTH DEFAULT_THUMBNAIL_HEIGHT
               DEFAULT_THUMBNAIL_QUALITY DEFAULT_FRAME_POSITION
               DEFAULT_THUMBNAIL_FOLDER.

Definition generator_q95 : ThumbnailGenerator :=
  mk_generator ["/media"] 320 180 95 (1 # 2) ".thumbnails".

(** A host whose ffmpeg exits with code 0 at once and writes nothing, and
    whose [mkdir] finds the directory in place. *)
Definition quiet_host : Host :=
  mk_host (fun _ _ f => inr (mk_process 0 "" 1 f)) (fun _ f => inr f)
          (fun _ => "0.5").

(** A host without ffmpeg. *)
Definition bare_host : Host :=
  mk_host (fun _ _ _ => inl FileNotFoundError) (fun _ f => inr f)
          (fun _ => "0.5").

(** [/media] holding one video and no cache directory. *)
Definition one_video_fs : FS.t :=
  FS.mk (FS.Dir 0 [("media", FS.Dir 10 [("clip.mp4", FS.File 100)])]) [].

(** [/media] holding one video and an empty cache directory. *)
Definition empty_cache_fs : FS.t :=
  FS.mk (FS.Dir 0 [("media", FS.Dir 10 [("clip.mp4", FS.File 100);
                                         ("photo.png", FS.File 100);
                                         (".thumbnails", FS.Dir 10 [])])]) [].

Definition fresh_world (f : FS.t) : World := mk_world f None ∅ [] [].

(** An operation is quiet when, run with the availability of the tool
    known to be [b], it leaves that knowledge in place and starts no probe. *)
Definition quiet (b : bool) {A} (m : M A) : Prop :=
  forall w,
    _ffmpeg_available w = Some b ->
    _ffmpeg_available (world_after (m w)) = Some b
    /\ count_probes (spawned (world_after (m w))) = count_probes (spawned w).

(** The namespace of media-source identifiers. *)
Definition media_source_prefix : string := "media-source://media_source/".

(** The relative path of a media-source identifier. *)
Definition relative_path_of (media_content_id : string) : string :=
  let r := Py.remove_all media_source_prefix media_content_id in
  if Py.startswith r "local/" then Py.drop 6 r else r.

(** The places where a media-source identifier is looked for, in order:
    under [/media], then under each configured media path. *)
Definition candidates (self : ThumbnailGenerator) (media_content_id : string)
  : list PurePath.t :=
  map (fun base =>
         PurePath.joinpath (PurePath.of_string base)
                           (relative_path_of media_content_id))
      ("/media" :: media_paths self).

(** A working directory that holds [media-source:/media_source/x.mp4], and
    no [/media]. *)
Definition odd_directory_fs : FS.t :=
  FS.mk (FS.Dir 0 [("media-source:",
                    FS.Dir 0 [("media_source",
                               FS.Dir 0 [("x.mp4", FS.File 100)])])]) [].

(** [/media/clip.mp4] with a cache entry newer than it, and the same after
    the video was touched. *)
Definition cached_fs (video_mtime : Z) : FS.t :=
  FS.mk (FS.Dir 0
           [("media",
             FS.Dir 10 [("clip.mp4", FS.File video_mtime);
                        ("notes.txt", FS.File 100);
                        (".thumbnails",
                         FS.Dir 10 [("clip_83c80c7b.jpg", FS.File 200)])])])
        [].

(** The freshness of a cache file with respect to its source: the cache
    file exists and its modification time is not earlier than that of the
    source. *)
Definition isFresh (f : FS.t) (cachePath sourcePath : string) : bool :=
  match FS.stat f cachePath, FS.stat f sourcePath with
  | Some c, Some s => FS.st_mtime c >=? FS.st_mtime s
  | _, _ => false
  end.

(** Whether a file name has one of the recognized extensions. *)
Definition extension_of (filename : string) : string :=
  Py.lower (PurePath.suffix (PurePath.of_string filename)).

Definition recognized (filename : string) : bool :=
  bool_decide (extension_of filename ∈ VIDEO_EXTENSIONS)
  || bool_decide (extension_of filename ∈ IMAGE_EXTENSIONS).

(** One file was counted: [scanned] went up by one, and so did exactly
    one of [generated], [skipped] and [failed]. *)
Definition counted_once (s s' : Stats) : Prop :=
  scanned s' = scanned s + 1
  /\ ((generated s' = generated s + 1 /\ skipped s' = skipped s
       /\ failed s' = failed s)
      \/ (generated s' = generated s /\ skipped s' = skipped s + 1
          /\ failed s' = failed s)
      \/ (generated s' = generated s /\ skipped s' = skipped s
          /\ failed s' = failed s + 1)).

Definition consistent (s : Stats) : Prop :=
  scanned s = generated s + skipped s + failed s
  /\ 0 <= generated s /\ 0 <= skipped s /\ 0 <= failed s.

Definition total (l : list Z) : Z := fold_right Z.add 0 l.

(** The number of file names with a recognized extension. *)
Definition media_files (files : list string) : Z :=
  Z.of_nat (length (List.filter recognized files)).

(** [/media/old.thumbnails] holding one video and its cache directory. *)
Definition old_thumbnails_fs : FS.t :=
  FS.mk (FS.Dir 0
           [("media",
             FS.Dir 10
               [("old.thumbnails",
                 FS.Dir 10 [("clip.mp4", FS.File 100);
                            (".thumbnails",
                             FS.Dir 10 [("clip_d6d83906.jpg", FS.File 200)])])])])
        [].

(** [/media] holding one video and its cache directory, up to date. *)
Definition video_and_cache_fs : FS.t :=
  FS.mk (FS.Dir 0
           [("media",
             FS.Dir 10 [("clip.mp4", FS.File 100);
                        (".thumbnails",
                         FS.Dir 10 [("clip_83c80c7b.jpg", FS.File 200)])])])
        [].


(** The cache path of a source in the examples; the empty path stands
    for none. *)
Definition thumbnail_of (self : ThumbnailGenerator) (media_path : string)
  : PurePath.t :=
  match _get_thumbnail_path self media_path with
  | inr thumb_path => thumb_path
  | inl _ => PurePath.mk "" []
  end.

(** A file name in Latin-1, [caf\xe9.mp4]: its bytes are not UTF-8, and
    [os.walk] hands it out as ["caf\udce9.mp4"]. *)
Definition latin1_name : string :=
  "caf" +:+ String (ascii_of_nat 233) ".mp4".

(** [/media] holding one video whose name is not UTF-8. *)
Definition latin1_fs : FS.t :=
  FS.mk (FS.Dir 0 [("media", FS.Dir 10 [(latin1_name, FS.File 100)])]) [].

(** A generator that keeps its cache files in the sibling directory
    [zz] of each media directory. *)
Definition sibling_cache_generator : ThumbnailGenerator :=
  mk_generator ["/media"] 320 180 70 (1 # 2) "../zz".

(** [/media] holding the directory [b] with one video and the directory
    [zz], which holds the given files. *)
Definition sibling_cache_fs (cached : list (string * FS.node)) : FS.t :=
  FS.mk (FS.Dir 0
           [("media",
             FS.Dir 10 [("b", FS.Dir 10 [("clip.mp4", FS.File 100)]);
                        ("zz", FS.Dir 10 cached)])])
        [].

(** A host whose ffmpeg writes the cache file of [/media/b/clip.mp4]
    into [/media/zz]. *)
Definition writing_host : Host :=
  mk_host (fun _ cmd f =>
             inr (mk_process 0 "" 1
                    (if bool_decide (cmd = probe_command) then f
                     else sibling_cache_fs
                            [(PurePath.name
                                (thumbnail_of sibling_cache_generator
                                              "/media/b/clip.mp4"),
                              FS.File 200)])))
          (fun _ f => inr f) (fun _ => "0.5").

Fixpoint has_slash (s : string) : bool :=
  match s with
  | EmptyString => false
  | String c s' => Ascii.eqb c "/" || has_slash s'
  end.

Definition hex_digits : list ascii := list_ascii_of_string "0123456789abcdef".


(* ===================================================================== *)
(** ** Vocabulary of the further properties *)
(* ===================================================================== *)

(** An operation leaves the memoized mapping as it is, whether it returns
    or raises. *)
Definition cache_stable {A} (m : M A) : Prop :=
  forall w, _cache (world_after (m w)) = _cache w.

(** Every value of the memoized mapping is the cache path of some source. *)
Definition memo_holds_cache_paths (self : ThumbnailGenerator) (w : World)
  : Prop :=
  forall media_path thumb,
    _cache w !! media_path = Some thumb ->
    exists actual_path thumb_path,
      _get_thumbnail_path self actual_path = inr thumb_path
      /\ thumb = PurePath.to_string thumb_path.

(** An operation keeps a property of the world, whether it returns or
    raises. *)
Definition keeps (I : World -> Prop) {A} (m : M A) : Prop :=
  forall w, I w -> I (world_after (m w)).

(** A property of the world that does not look at the log. *)
Definition log_blind (I : World -> Prop) : Prop :=
  forall w records, I w -> I (with_logged records w).

(** The tool is known to be missing, and the file system and the list of
    started subprocesses are the given ones. *)
Definition idle_without_tool (f : FS.t) (started : list (list string))
           (w : World) : Prop :=
  _ffmpeg_available w = Some false /\ fs w = f /\ spawned w = started.

(** The paths a bulk scan goes through: the given one, or the configured
    media paths when none (or the empty string) is given. *)
Definition scanned_paths (self : ThumbnailGenerator) (path : option string)
  : list string :=
  match path with
  | Some p => if String.eqb p "" then media_paths self else [p]
  | None => media_paths self
  end.

(** Every file of a listing that the scan would process has a fresh
    cache file. *)
Definition all_fresh (self : ThumbnailGenerator) (f : FS.t)
           (listing : list (string * list string * list string)) : bool :=
  forallb
    (fun entry =>
       let '(root, _, files) := entry in
       Py.contains root (thumbnail_folder self)
       || forallb
            (fun filename =>
               let file_path := OsPath.join root filename in
               negb (recognized filename)
               || match _get_thumbnail_path self file_path with
                  | inr thumb_path =>
                      isFresh f (PurePath.to_string thumb_path) file_path
                  | inl _ => false
                  end)
            files)
    listing.

(** [/media] holding a video and a directory with another one. *)
Definition private_fs : FS.t :=
  FS.mk (FS.Dir 0
           [("media",
             FS.Dir 10 [("clip.mp4", FS.File 100);
                        ("private", FS.Dir 10 [("clip.mp4", FS.File 100)])])])
        [].

(** A file system that refuses the test of one path with [EACCES], as
    for a file in a directory that the process may not search. *)
Definition denying_fs (f : FS.t) (denied : string) : FS.t :=
  FS.make (FS.tree f) (FS.cwd f)
          (fun path =>
             if String.eqb (PurePath.to_string path) denied
             then Some (FS.Failure "Permission denied") else None).

(** The warning for a media path that does not exist. *)
Definition missing_path_warning (base_path : string) : log_record :=
  (WARNING, "Media path does not exist: %s", [base_path]).

(** The summary line of a scan that found nothing. *)
Definition empty_summary : log_record :=
  (INFO,
   "Thumbnail generation: %d scanned, %d generated, %d skipped, %d failed",
   ["0"; "0"; "0"; "0"]).

(** What a scan of files that are all fresh keeps: the world apart from
    its log, and statistics that only count skipped files. *)
Definition only_skipped (w : World) (s : Stats) (w0 : World) : Prop :=
  (fs w0 = fs w /\ spawned w0 = spawned w
   /\ _ffmpeg_available w0 = _ffmpeg_available w /\ _cache w0 = _cache w)
  /\ generated s = 0 /\ failed s = 0 /\ skipped s = scanned s.

(* ===================================================================== *)
(** ** config_flow.py *)
(* ===================================================================== *)

(** More of Python's [str].  As for [lower()], the model is that of ASCII
    text: [strip()] removes the whitespace characters below code 128. *)
Module PyStr.

(** [c.isspace()]: tab, line feed, vertical tab, form feed, carriage
    return, the four separators 28-31, and the space. *)
Definition isspace (c : ascii) : bool :=
  let n := nat_of_ascii c in
  ((9 <=? n)%nat && (n <=? 13)%nat) || ((28 <=? n)%nat && (n <=? 32)%nat).

(** [s.lstrip()] *)
Fixpoint lstrip (s : string) : string :=
  match s with
  | EmptyString => EmptyString
  | String c s' => if isspace c then lstrip s' else s
  end.

(** [s.rstrip()] *)
Fixpoint rstrip (s : string) : string :=
  match s with
  | EmptyString => EmptyString
  | String c s' =>
      match rstrip s' with
      | EmptyString => if isspace c then EmptyString else String c EmptyString
      | r => String c r
      end
  end.

(** [s.strip()] *)
Definition strip (s : string) : string := rstrip (lstrip s).

(** [s.split(sep)] for a separator of one character. *)
Fixpoint split (sep : ascii) (s : string) : list string :=
  match s with
  | EmptyString => [EmptyString]
  | String c s' =>
      let r := split sep s' in
      if Ascii.eqb c sep then EmptyString :: r
      else match r with
           | h :: t => String c h :: t
           | [] => [String c EmptyString]
           end
  end.

(** A string that does not start with whitespace. *)
Definition starts_plain (s : string) : bool :=
  match s with
  | EmptyString => true
  | String c _ => negb (isspace c)
  end.

(** [sep.join(l)] *)
Fixpoint join (sep : string) (l : list string) : string :=
  match l with
  | [] => EmptyString
  | [x] => x
  | x :: rest => x +:+ sep +:+ join sep rest
  end.

End PyStr.

(** [os.path.isdir(path)] *)
Definition os_path_isdir (f : FS.t) (path : string) : bool :=
  match FS.stat f path with
  | Some n => FS.is_dir n
  | None => false
  end.

Definition DEFAULT_AUTO_GENERATE : bool := true.

Module ConfigFlow.

(** [validate_media_paths(paths)], run on the file system [f]. *)
Definition validate_media_paths (f : FS.t) (paths : list string)
  : list string :=
  fold_left
    (fun valid_paths path =>
       let path := PyStr.strip path in
       if negb (String.eqb path "") && os_path_isdir f path
       then (valid_paths ++ [path])%list
       else valid_paths)
    paths [].

(** [[p.strip() for p in paths_str.split(",") if p.strip()]] *)
Definition split_paths (paths_str : string) : list string :=
  map PyStr.strip
      (List.filter (fun p => negb (String.eqb (PyStr.strip p) ""))
                   (PyStr.split "," paths_str)).

(** The input of a form, as its schema validates it: a key that is
    present has a value of the type the schema names. *)
Record UserInput := mk_user_input {
  input_media_paths : option string;
  input_thumbnail_width : option Z;
  input_thumbnail_height : option Z;
  input_thumbnail_quality : option Z;
  input_frame_position : option Q;
  input_thumbnail_folder : option string;
  input_auto_generate : option bool
}.

(** The data of a created entry. *)
Record EntryData := mk_entry_data {
  conf_media_paths : list string;
  conf_thumbnail_width : Z;
  conf_thumbnail_height : Z;
  conf_thumbnail_quality : Z;
  conf_frame_position : Q;
  conf_thumbnail_folder : string;
  conf_auto_generate : bool
}.

(** What is stored of a configuration ([config_entry.data] or
    [config_entry.options]): a key may be missing. *)
Record Stored := mk_stored {
  stored_media_paths : option (list string);
  stored_thumbnail_width : option Z;
  stored_thumbnail_height : option Z;
  stored_thumbnail_quality : option Z;
  stored_frame_position : option Q;
  stored_thumbnail_folder : option string;
  stored_auto_generate : option bool
}.

(** The defaults a form is shown with. *)
Record FormDefaults := mk_form_defaults {
  default_media_paths : string;
  default_thumbnail_width : Z;
  default_thumbnail_height : Z;
  default_thumbnail_quality : Z;
  default_frame_position : Q;
  default_thumbnail_folder : string;
  default_auto_generate : bool
}.

Inductive FlowResult :=
| CreateEntry (title : string) (data : EntryData)
| ShowForm (step_id : string) (defaults : FormDefaults)
           (errors : list (string * string))
| AbortFlow (reason : string).

(** The [data] both steps create an entry with. *)
Definition entry_data (valid_paths : list string) (user_input : UserInput)
  : EntryData :=
  mk_entry_data
    valid_paths
    (default DEFAULT_THUMBNAIL_WIDTH (input_thumbnail_width user_input))
    (default DEFAULT_THUMBNAIL_HEIGHT (input_thumbnail_height user_input))
    (default DEFAULT_THUMBNAIL_QUALITY (input_thumbnail_quality user_input))
    (default DEFAULT_FRAME_POSITION (input_frame_position user_input))
    (default DEFAULT_THUMBNAIL_FOLDER (input_thumbnail_folder user_input))
    (default DEFAULT_AUTO_GENERATE (input_auto_generate user_input)).

(** The media paths a submitted form is taken to name. *)
Definition submitted_paths (f : FS.t) (user_input : UserInput) : list string :=
  let paths_str := default "/media" (input_media_paths user_input) in
  validate_media_paths f (split_paths paths_str).

(** [LookoutGalleryConfigFlow.async_step_user]; [configured] tells
    whether an entry with the unique id of the integration exists, in
    which case [_abort_if_unique_id_configured] aborts the flow. *)
Definition async_step_user (f : FS.t) (configured : bool)
           (user_input : option UserInput) : FlowResult :=
  let form errors :=
    let default_path :=
      if FS.exists_ f "/media/frigate" then "/media/frigate" else "/media" in
    ShowForm "user"
      (mk_form_defaults default_path DEFAULT_THUMBNAIL_WIDTH
         DEFAULT_THUMBNAIL_HEIGHT DEFAULT_THUMBNAIL_QUALITY
         DEFAULT_FRAME_POSITION DEFAULT_THUMBNAIL_FOLDER
         DEFAULT_AUTO_GENERATE)
      errors in
  match user_input with
  | Some user_input =>
      let valid_paths := submitted_paths f user_input in
      match valid_paths with
      | [] => form [("media_paths", "no_valid_paths")]
      | _ =>
          if configured then AbortFlow "already_configured"
          else CreateEntry "Lookout Gallery" (entry_data valid_paths user_input)
      end
  | None => form []
  end.

(** [{**data, **options}] *)
Definition merge (data options : Stored) : Stored :=
  let pick {A} (field : Stored -> option A) :=
    match field options with
    | Some v => Some v
    | None => field data
    end in
  mk_stored (pick stored_media_paths) (pick stored_thumbnail_width)
    (pick stored_thumbnail_height) (pick stored_thumbnail_quality)
    (pick stored_frame_position) (pick stored_thumbnail_folder)
    (pick stored_auto_generate).

(** The defaults of the options form: the current configuration, the
    media paths joined with [", "]. *)
Definition options_defaults (data options : Stored) : FormDefaults :=
  let current := merge data options in
  let current_paths :=
    PyStr.join ", " (default ["/media"] (stored_media_paths current)) in
  mk_form_defaults
    current_paths
    (default DEFAULT_THUMBNAIL_WIDTH (stored_thumbnail_width current))
    (default DEFAULT_THUMBNAIL_HEIGHT (stored_thumbnail_height current))
    (default DEFAULT_THUMBNAIL_QUALITY (stored_thumbnail_quality current))
    (default DEFAULT_FRAME_POSITION (stored_frame_position current))
    (default DEFAULT_THUMBNAIL_FOLDER (stored_thumbnail_folder current))
    (default DEFAULT_AUTO_GENERATE (stored_auto_generate current)).

(** [LookoutGalleryOptionsFlow.async_step_init], for an entry whose
    stored media paths are a list. *)
Definition async_step_init (f : FS.t) (data options : Stored)
           (user_input : option UserInput) : FlowResult :=
  let form errors := ShowForm "init" (options_defaults data options) errors in
  match user_input with
  | Some user_input =>
      let valid_paths := submitted_paths f user_input in
      match valid_paths with
      | [] => form [("media_paths", "no_valid_paths")]
      | _ => CreateEntry "" (entry_data valid_paths user_input)
      end
  | None => form []
  end.

(** A form submitted with the defaults it was shown with. *)
Definition submit_unchanged (defaults : FormDefaults) : UserInput :=
  mk_user_input
    (Some (default_media_paths defaults))
    (Some (default_thumbnail_width defaults))
    (Some (default_thumbnail_height defaults))
    (Some (default_thumbnail_quality defaults))
    (Some (default_frame_position defaults))
    (Some (default_thumbnail_folder defaults))
    (Some (default_auto_generate defaults)).

(** What an entry stores once created. *)
Definition stored_of (data : EntryData) : Stored :=
  mk_stored
    (Some (conf_media_paths data)) (Some (conf_thumbnail_width data))
    (Some (conf_thumbnail_height data)) (Some (conf_thumbnail_quality data))
    (Some (conf_frame_position data)) (Some (conf_thumbnail_folder data))
    (Some (conf_auto_generate data)).

(** Whether a character occurs in a string. *)
Fixpoint has_char (x : ascii) (s : string) : bool :=
  match s with
  | EmptyString => false
  | String c s' => Ascii.eqb c x || has_char x s'
  end.

(** A path as [split_paths] yields it: not empty, without whitespace at
    its ends, without a comma. *)
Definition plain_path (p : string) : bool :=
  negb (String.eqb p "") && String.eqb (PyStr.strip p) p
  && negb (has_char "," p).

End ConfigFlow.

(* ===================================================================== *)
(** ** __init__.py *)
(* ===================================================================== *)

(** The part of the integration that keeps the generator and answers the
    websocket commands.  [hass.data[DOMAIN]] is a dictionary in insertion
    order; it holds the flag ["frontend_loaded"] and, under the id of each
    entry, the dictionary of the entry.  The registrations with the host
    (static path, websocket commands, services, the start-up task, the
    update listener) and the version string of the card URL do not enter
    what is modelled here. *)
Module Integration.

Inductive domain_value :=
| Flag (b : bool)
| EntryDict (generator : ThumbnailGenerator) (config : ConfigFlow.Stored).

Definition domain_data := list (string * domain_value).

(** [key in d] *)
Definition dict_contains (key : string) (d : domain_data) : bool :=
  existsb (fun item => String.eqb (fst item) key) d.

(** [d[key] = value]: a key that is present keeps its place. *)
Fixpoint dict_set (key : string) (value : domain_value) (d : domain_data)
  : domain_data :=
  match d with
  | [] => [(key, value)]
  | (k, v) :: rest =>
      if String.eqb k key then (key, value) :: rest
      else (k, v) :: dict_set key value rest
  end.

(** [d.pop(key)] for a key that is present. *)
Fixpoint dict_pop (key : string) (d : domain_data) : domain_data :=
  match d with
  | [] => []
  | (k, v) :: rest =>
      if String.eqb k key then rest else (k, v) :: dict_pop key rest
  end.

(** The generator [async_setup_entry] constructs from the merged
    configuration (a stored list of media paths). *)
Definition make_generator (config_data : ConfigFlow.Stored)
  : ThumbnailGenerator :=
  mk_generator
    (default ["/media"] (ConfigFlow.stored_media_paths config_data))
    (default DEFAULT_THUMBNAIL_WIDTH
             (ConfigFlow.stored_thumbnail_width config_data))
    (default DEFAULT_THUMBNAIL_HEIGHT
             (ConfigFlow.stored_thumbnail_height config_data))
    (default DEFAULT_THUMBNAIL_QUALITY
             (ConfigFlow.stored_thumbnail_quality config_data))
    (default DEFAULT_FRAME_POSITION
             (ConfigFlow.stored_frame_position config_data))
    (default DEFAULT_THUMBNAIL_FOLDER
             (ConfigFlow.stored_thumbnail_folder config_data)).

(** The state of a generator that was just constructed: availability
    unknown, nothing memoized. *)
Definition new_generator_state (w : World) : World :=
  with_ffmpeg_available None (with_cache ∅ w).

Definition FRONTEND_SCRIPT_URL : string :=
  "/lookout_gallery/lookout-gallery-card.js".

(** [async_setup_entry]: what it leaves in [hass.data[DOMAIN]], and its
    outcome.  [registered] tells whether registering the card succeeded
    ([false]: it raised RuntimeError). *)
Definition async_setup_entry (os : Host) (registered : bool)
           (entry_id : string) (data options : ConfigFlow.Stored)
           (d : option domain_data) (w : World)
  : domain_data * outcome bool :=
  let d := default [] d in
  let '(d, w) :=
    if dict_contains "frontend_loaded" d then (d, w)
    else if registered then
      (dict_set "frontend_loaded" (Flag true) d,
       world_after (log INFO "Lookout Gallery card registered at %s"
                        [FRONTEND_SCRIPT_URL] w))
    else
      (d, world_after (log DEBUG "Lookout Gallery card already registered"
                           [] w)) in
  let config_data := ConfigFlow.merge data options in
  let generator := make_generator config_data in
  match async_check_ffmpeg os (new_generator_state w) with
  | Raise e w => (d, Raise e w)
  | Return _ w =>
      (dict_set entry_id (EntryDict generator config_data) d,
       (log INFO "Lookout Gallery integration loaded successfully" [] ;;;
        ret true) w)
  end.

(** [async_unload_entry]: what it leaves in [hass.data[DOMAIN]], and
    whether it removed the two services. *)
Definition async_unload_entry (entry_id : string) (d : domain_data)
  : domain_data * bool :=
  let d := if dict_contains entry_id d then dict_pop entry_id d else d in
  (d, match d with [] => true | _ => false end).

(** What [_get_generator] comes to: a generator, [None], or the
    TypeError of [in] applied to a value that is not a container. *)
Inductive generator_lookup :=
| Generator (generator : ThumbnailGenerator)
| NoGenerator
| TypeError.

(** [_get_generator]: the loop over the values ends at the first one, by
    [return] for the dictionary of an entry (which always has the key
    ["generator"]), by the TypeError of ["generator" in True] for the
    flag. *)
Definition _get_generator (d : option domain_data) : generator_lookup :=
  match map snd (default [] d) with
  | [] => NoGenerator
  | EntryDict generator _ :: _ => Generator generator
  | Flag _ :: _ => TypeError
  end.

(** The life of the entries of the integration. *)
Inductive event :=
| Setup (registered : bool) (entry_id : string)
        (data options : ConfigFlow.Stored)
| Unload (entry_id : string).

Definition event_entry_id (ev : event) : string :=
  match ev with
  | Setup _ entry_id _ _ => entry_id
  | Unload entry_id => entry_id
  end.

Definition run_event (os : Host) (state : domain_data * World) (ev : event)
  : domain_data * World :=
  let '(d, w) := state in
  match ev with
  | Setup registered entry_id data options =>
      let '(d, o) :=
        async_setup_entry os registered entry_id data options (Some d) w in
      (d, world_after o)
  | Unload entry_id => (fst (async_unload_entry entry_id d), w)
  end.

(** What a websocket handler sends. *)
Inductive ws_reply :=
| ThumbnailResult (thumbnail : string)
| FailureResult (error : string)
| StatsResult (stats : Stats)
| ErrorReply (code message : string).

(** What calling a handler comes to: it runs to a reply, or the
    TypeError of [_get_generator] leaves it. *)
Inductive handler :=
| Runs (body : M ws_reply)
| RaisesTypeError.

Section Handlers.

Variable os : Host.

(** [read_thumbnail]: the content of a file in base64, or the error of
    opening or reading it. *)
Variable read_thumbnail : FS.t -> string -> exn + string.

(** [websocket_get_thumbnail] from [media_content_id = ...] on. *)
Definition get_thumbnail_reply (generator : ThumbnailGenerator)
           (media_content_id : string) : M ws_reply :=
  try_except
    (thumb_path <-- async_get_thumbnail os generator media_content_id ;;
     present <--
       match thumb_path with
       | Some p => if String.eqb p "" then ret false else os_path_exists p
       | None => ret false
       end ;;
     match thumb_path, present with
     | Some p, true =>
         thumb_data <--
           (fun w => match read_thumbnail (fs w) p with
                     | inl e => Raise e w
                     | inr encoded => Return encoded w
                     end) ;;
         ret (ThumbnailResult thumb_data)
     | _, _ => ret (FailureResult "Could not generate thumbnail")
     end)
    (fun ex =>
       log ERROR "Error getting thumbnail: %s" [str_exn ex] ;;;
       ret (ErrorReply "thumbnail_error" (str_exn ex))).

Definition websocket_get_thumbnail (d : option domain_data)
           (media_content_id : string) : handler :=
  match _get_generator d with
  | TypeError => RaisesTypeError
  | NoGenerator =>
      Runs (ret (ErrorReply "not_configured"
                            "Lookout Gallery integration not configured"))
  | Generator generator =>
      Runs (get_thumbnail_reply generator media_content_id)
  end.

(** [websocket_generate_thumbnails] *)
Definition websocket_generate_thumbnails (d : option domain_data)
           (path : option string) : handler :=
  match _get_generator d with
  | TypeError => RaisesTypeError
  | NoGenerator =>
      Runs (ret (ErrorReply "not_configured"
                            "Lookout Gallery integration not configured"))
  | Generator generator =>
      Runs (try_except
              (stats <-- async_generate_all_thumbnails os generator path ;;
               ret (StatsResult stats))
              (fun ex =>
                 log ERROR "Error generating thumbnails: %s" [str_exn ex] ;;;
                 ret (ErrorReply "generation_error" (str_exn ex))))
  end.

End Handlers.

(** The flag is the first item of the dictionary. *)
Definition flag_first (d : domain_data) : Prop :=
  exists b rest, d = ("frontend_loaded", Flag b) :: rest.

End Integration.
Example md5_empty : MD5.hexdigest (Py.bytes "") = "d41d8cd98f00b204e9800998ecf8427e".
Proof. vm_compute. reflexivity. Qed.

Example md5_abc : MD5.hexdigest (Py.bytes "abc") = "900150983cd24fb0d6963f7d28e17f72".
Proof. vm_compute. reflexivity. Qed.

Example md5_clip :
  MD5.hexdigest (Py.bytes "/media/cam/clip.mp4") = "352b2d8a81f317aa30cae48dac6e5a5c".
Proof. vm_compute. reflexivity. Qed.

Example md5_two_blocks :
  MD5.hexdigest
    (Py.bytes
       "/media/frigate/recordings/2024-01-01/12/front_door/very_long_file_name_00.41.mp4")
  = "758d9e9059c97b1e37db66b7a3f5a5ba".
Proof. vm_compute. reflexivity. Qed.

Example path_examples :
  map (fun s => let p := PurePath.of_string s in
                (PurePath.to_string p, PurePath.name p, PurePath.suffix p,
                 PurePath.stem p, PurePath.to_string (PurePath.parent p)))
      ["foo."; ".mp4"; "a.tar.gz"; "/"; "//a"; "///a"; "a//b/./c/"; "";
       "a/.."; "x.MP4"]
  = [("foo.", "foo.", "", "foo.", ".");
     (".mp4", ".mp4", "", ".mp4", ".");
     ("a.tar.gz", "a.tar.gz", ".gz", "a.tar", ".");
     ("/", "", "", "", "/");
     ("//a", "a", "", "a", "//");
     ("/a", "a", "", "a", "/");
     ("a/b/c", "c", "", "c", "a/b");
     (".", "", "", "", ".");
     ("a/..", "..", "", "..", "a");
     ("x.MP4", "x.MP4", ".MP4", "x", ".")].
Proof. vm_compute. reflexivity. Qed.

Example joinpath_examples :
  map (fun '(a, b) =>
         PurePath.to_string (PurePath.joinpath (PurePath.of_string a) b))
      [("/media", "/etc/x"); ("/media", ""); ("a", "//b"); ("/a", "b//c/");
       ("", ".thumbnails")]
  = ["/etc/x"; "/media"; "//b"; "/a/b/c"; ".thumbnails"].
Proof. vm_compute. reflexivity. Qed.

Example encode_examples :
  map Py.encode ["clip.mp4"; latin1_name]
  = [Some (Py.bytes "clip.mp4"); None].
Proof. vm_compute. reflexivity. Qed.

(* ===================================================================== *)
(** ** Strings: substrings, pieces between slashes, lengths *)
(* ===================================================================== *)

Lemma append_associative (a b c : string) :
  (a +:+ b) +:+ c = a +:+ b +:+ c.
Proof.
  induction a as [| x a IH]; [reflexivity |].
  change (String x ((a +:+ b) +:+ c) = String x (a +:+ b +:+ c)).
  rewrite IH. reflexivity.
Qed.

Lemma startswith_refl (s : string) : Py.startswith s s = true.
Proof.
  induction s as [| c s IH]; simpl; [reflexivity |].
  rewrite Ascii.eqb_refl. exact IH.
Qed.

Lemma startswith_empty (s : string) : Py.startswith s "" = true.
Proof. destruct s; reflexivity. Qed.

Lemma startswith_app (a b p : string) :
  Py.startswith a p = true -> Py.startswith (a +:+ b) p = true.
Proof.
  revert a. induction p as [| c p IH]; intros a H; [reflexivity |].
  destruct a as [| d a]; simpl in *; [discriminate |].
  apply andb_true_iff in H. destruct H as [-> H]. simpl. apply IH. exact H.
Qed.

Lemma contains_empty (s : string) : Py.contains s "" = true.
Proof. destruct s; reflexivity. Qed.

Lemma contains_app_l (a b x : string) :
  Py.contains a x = true -> Py.contains (a +:+ b) x = true.
Proof.
  induction a as [| c a IH]; intros H.
  - cbn [Py.contains] in H. rewrite orb_false_r in H.
    destruct x; [| discriminate H]. apply contains_empty.
  - cbn [Py.contains] in H. apply orb_true_iff in H.
    change (String c a +:+ b) with (String c (a +:+ b)).
    cbn [Py.contains]. apply orb_true_iff. destruct H as [H | H].
    + left. apply (startswith_app (String c a) b x H).
    + right. apply IH. exact H.
Qed.

Lemma contains_app_r (a b : string) : Py.contains (a +:+ b) b = true.
Proof.
  induction a as [| c a IH].
  - change ("" +:+ b) with b. destruct b; [reflexivity |].
    cbn [Py.contains]. rewrite startswith_refl. reflexivity.
  - change (String c a +:+ b) with (String c (a +:+ b)).
    cbn [Py.contains]. rewrite IH. apply orb_true_r.
Qed.

(** The first piece of a split string starts the string. *)
Lemma split_slash_head (s : string) :
  Py.startswith s (hd "" (Py.split_slash s)) = true.
Proof.
  induction s as [| c s IH]; [reflexivity |].
  cbn [Py.split_slash].
  destruct (Ascii.eqb c "/"); [reflexivity |].
  destruct (Py.split_slash s) as [| h t]; cbn [hd Py.startswith] in *.
  - rewrite Ascii.eqb_refl. reflexivity.
  - rewrite Ascii.eqb_refl. exact IH.
Qed.

(** A component of a path occurs in it as a substring. *)
Lemma component_is_substring (root x : string) :
  In x (Py.split_slash root) -> Py.contains root x = true.
Proof.
  induction root as [| c s IH]; intros Hin.
  - simpl in Hin. destruct Hin as [<- | []]. reflexivity.
  - cbn [Py.split_slash] in Hin. cbn [Py.contains].
    apply orb_true_iff.
    destruct (Ascii.eqb c "/").
    + destruct Hin as [<- | Hin]; [left; reflexivity | right; auto].
    + pose proof (split_slash_head s) as Hhd.
      destruct (Py.split_slash s) as [| h t].
      * destruct Hin as [<- | []]. left. cbn [Py.startswith].
        rewrite Ascii.eqb_refl. reflexivity.
      * destruct Hin as [<- | Hin].
        -- left. cbn [Py.startswith hd] in *. rewrite Ascii.eqb_refl.
           exact Hhd.
        -- right. apply IH. right. exact Hin.
Qed.

Lemma has_slash_app (a b : string) :
  has_slash (a +:+ b) = has_slash a || has_slash b.
Proof.
  induction a as [| c a IH]; [reflexivity |].
  change (String c a +:+ b) with (String c (a +:+ b)).
  cbn [has_slash]. rewrite IH. apply orb_assoc.
Qed.

Lemma has_slash_take (n : nat) (s : string) :
  has_slash s = false -> has_slash (Py.take n s) = false.
Proof.
  revert s. induction n as [| n IH]; intros s H; [reflexivity |].
  destruct s as [| c s]; [reflexivity |].
  cbn [has_slash Py.take] in *. apply orb_false_iff in H.
  destruct H as [-> H]. apply IH. exact H.
Qed.

Lemma split_slash_pieces (s x : string) :
  In x (Py.split_slash s) -> has_slash x = false.
Proof.
  revert x. induction s as [| c s IH]; intros x Hin.
  - destruct Hin as [<- | []]. reflexivity.
  - cbn [Py.split_slash] in Hin.
    destruct (Ascii.eqb c "/") eqn:Hc.
    + destruct Hin as [<- | Hin]; [reflexivity | auto].
    + destruct (Py.split_slash s) as [| h t].
      * destruct Hin as [<- | []]. cbn [has_slash]. rewrite Hc. reflexivity.
      * destruct Hin as [<- | Hin].
        -- cbn [has_slash]. rewrite Hc. apply IH. left. reflexivity.
        -- apply IH. right. exact Hin.
Qed.

Lemma split_slash_whole (s : string) :
  has_slash s = false -> Py.split_slash s = [s].
Proof.
  induction s as [| c s IH]; intros H; [reflexivity |].
  cbn [has_slash] in H. apply orb_false_iff in H. destruct H as [Hc H].
  cbn [Py.split_slash]. rewrite Hc, (IH H). reflexivity.
Qed.

Lemma string_length_app (a b : string) :
  String.length (a +:+ b) = (String.length a + String.length b)%nat.
Proof.
  induction a as [| c a IH]; [reflexivity |].
  change (String c a +:+ b) with (String c (a +:+ b)).
  cbn [String.length]. rewrite IH. reflexivity.
Qed.

Lemma string_length_take (n : nat) (s : string) :
  String.length (Py.take n s) = Nat.min n (String.length s).
Proof.
  revert s. induction n as [| n IH]; intros s; [reflexivity |].
  destruct s as [| c s]; [reflexivity |].
  cbn [Py.take String.length]. rewrite IH. reflexivity.
Qed.

Lemma take_drop (n : nat) (s : string) : Py.take n s +:+ Py.drop n s = s.
Proof.
  revert s. induction n as [| n IH]; intros s; [reflexivity |].
  destruct s as [| c s]; [reflexivity |].
  cbn [Py.take Py.drop].
  change (String c (Py.take n s +:+ Py.drop n s) = String c s).
  rewrite IH. reflexivity.
Qed.

Lemma append_empty_r (s : string) : s +:+ "" = s.
Proof.
  induction s as [| c s IH]; [reflexivity |].
  change (String c (s +:+ "") = String c s). rewrite IH. reflexivity.
Qed.

(* ===================================================================== *)
(** ** The quality argument of the ffmpeg command *)
(* ===================================================================== *)

Section QualityArgument.

Variable os : Host.
Variable self : ThumbnailGenerator.

Lemma video_command_tail (video_path : string) (thumb_path : PurePath.t) :
  video_command os self video_path thumb_path
  = ([ "ffmpeg"; "-y"; "-ss"; str_float os (frame_position self);
       "-i"; video_path; "-vframes"; "1"; "-vf"; scale_filter self ]
     ++ [ "-q:v"; quality_argument self; PurePath.to_string thumb_path ])%list.
Proof. reflexivity. Qed.

Lemma image_command_tail (image_path : string) (thumb_path : PurePath.t) :
  image_command self image_path thumb_path
  = ([ "ffmpeg"; "-y"; "-i"; image_path; "-vf"; scale_filter self ]
     ++ [ "-q:v"; quality_argument self; PurePath.to_string thumb_path ])%list.
Proof. reflexivity. Qed.

End QualityArgument.

Lemma truncated_below_rounded_range :
  forallb truncated_below_rounded (map Z.of_nat (seq 10 91)) = true.
Proof. vm_compute. reflexivity. Qed.

Lemma truncated_below_rounded_ok (q : Z) :
  10 <= q <= 100 -> truncated_below_rounded q = true.
Proof.
  intros Hq.
  pose proof truncated_below_rounded_range as H.
  rewrite forallb_forall in H. apply H.
  apply in_map_iff. exists (Z.to_nat q). split; [lia |].
  apply in_seq. lia.
Qed.

(** C4 (as amended).  For a quality of the configured range 10..100, the
    argument that follows [-q:v] in the video command and in the image
    command is the decimal form of [int((100 - quality) / 3.33)]: the
    quotient truncated, not rounded.  It is the floor of the quotient, it
    lies between 0 and 27, and it is the rounded quotient or one less. *)
Theorem quality_argument_is_truncated_quotient
        (os : Host) (self : ThumbnailGenerator)
        (source : string) (thumb_path : PurePath.t) :
  10 <= quality self <= 100 ->
  let x := (inject_Z (100 - quality self) / (333 # 100))%Q in
  let n := Z.quot ((100 - quality self) * 100) 333 in
  (exists pre, video_command os self source thumb_path
               = (pre ++ ["-q:v"; Py.str_int n; PurePath.to_string thumb_path])%list)
  /\ (exists pre, image_command self source thumb_path
                  = (pre ++ ["-q:v"; Py.str_int n; PurePath.to_string thumb_path])%list)
  /\ n = Qfloor x
  /\ 0 <= n <= 27
  /\ (Py.round x = n \/ Py.round x = n + 1).
Proof.
  intros Hq x n.
  pose proof (truncated_below_rounded_ok (quality self) Hq) as Hb.
  unfold truncated_below_rounded in Hb. fold x in Hb.
  rewrite !andb_true_iff in Hb. destruct Hb as [[Hf Hlo] Hhi].
  apply Z.eqb_eq in Hf. apply Z.leb_le in Hlo. apply Z.leb_le in Hhi.
  assert (Hn : Py.int_trunc x = n) by reflexivity.
  rewrite Hn in *.
  split; [eexists; apply video_command_tail |].
  split; [eexists; apply image_command_tail |].
  split; [exact Hf |].
  split; [| lia].
  subst n. clear - Hq.
  rewrite Z.quot_div_nonneg by lia.
  split; [apply Z.div_pos; lia |].
  apply Z.lt_succ_r. apply Z.div_lt_upper_bound; lia.
Qed.

Lemma quality_argument_is_truncated_quotient_witness :
  10 <= quality generator_q95 <= 100
  /\ exists pre,
       video_command quiet_host generator_q95 "/media/clip.mp4"
                     (thumbnail_of generator_q95 "/media/clip.mp4")
       = (pre ++ ["-q:v"; "1"; "/media/.thumbnails/clip_83c80c7b.jpg"])%list.
Proof.
  assert (H : 10 <= quality generator_q95 <= 100) by (simpl; lia).
  split; [exact H |].
  exact (proj1 (quality_argument_is_truncated_quotient
                  quiet_host generator_q95 "/media/clip.mp4"
                  (thumbnail_of generator_q95 "/media/clip.mp4") H)).
Defined.

(** C4 (as stated) fails at quality 95: [(100 - 95) / 3.33] is about 1.5,
    which rounds to 2, and both commands pass 1. *)
Lemma quality_argument_not_rounded_at_95 :
  10 <= quality generator_q95 <= 100
  /\ nth 11 (video_command quiet_host generator_q95 "/media/clip.mp4"
               (thumbnail_of generator_q95 "/media/clip.mp4")) "" = "1"
  /\ nth 7 (image_command generator_q95 "/media/photo.png"
              (thumbnail_of generator_q95 "/media/photo.png")) "" = "1"
  /\ Py.str_int (Py.round (inject_Z (100 - quality generator_q95) / (333 # 100)))
     = "2".
Proof. vm_compute. repeat split; discriminate. Qed.

(* ===================================================================== *)
(** ** The tool probe *)
(* ===================================================================== *)

Lemma count_probes_snoc (l : list (list string)) (cmd : list string) :
  count_probes (l ++ [cmd]) =
  (count_probes l + if is_probe cmd then 1 else 0)%nat.
Proof.
  unfold count_probes. rewrite List.filter_app, length_app. simpl.
  destruct (is_probe cmd); reflexivity.
Qed.

Section Quiet.

Variable os : Host.
Variable b : bool.

Lemma quiet_ret {A} (a : A) : quiet b (ret a).
Proof. intros w Hw. simpl. auto. Qed.

Lemma quiet_raise {A} (e : exn) : quiet b (@raise A e).
Proof. intros w Hw. simpl. auto. Qed.

Lemma quiet_bind {A B} (m : M A) (k : A -> M B) :
  quiet b m -> (forall a, quiet b (k a)) -> quiet b (bind m k).
Proof.
  intros Hm Hk w Hw. unfold bind.
  destruct (Hm w Hw) as [H1 H2].
  destruct (m w) as [a w' | e w']; simpl in *.
  - destruct (Hk a w' H1) as [H3 H4]. split; [exact H3 | congruence].
  - auto.
Qed.

Lemma quiet_try_except {A} (body : M A) (handler : exn -> M A) :
  quiet b body -> (forall e, quiet b (handler e)) ->
  quiet b (try_except body handler).
Proof.
  intros Hm Hk w Hw. unfold try_except.
  destruct (Hm w Hw) as [H1 H2].
  destruct (body w) as [a w' | e w']; simpl in *.
  - auto.
  - destruct (Hk e w' H1) as [H3 H4]. split; [exact H3 | congruence].
Qed.

Lemma quiet_gets {A} (f : World -> A) : quiet b (gets f).
Proof. intros w Hw. simpl. auto. Qed.

Lemma quiet_modify (f : World -> World) :
  (forall w, _ffmpeg_available (f w) = _ffmpeg_available w) ->
  (forall w, spawned (f w) = spawned w) ->
  quiet b (modify f).
Proof. intros Hf Hs w Hw. simpl. rewrite Hf, Hs. auto. Qed.

Lemma quiet_log (l : level) (msg : string) (args : list string) :
  quiet b (log l msg args).
Proof. apply quiet_modify; reflexivity. Qed.

Lemma quiet_for_each {A S} (l : list A) (body : A -> S -> M S) :
  (forall x s, quiet b (body x s)) -> forall s, quiet b (for_each l body s).
Proof.
  intros Hbody. induction l as [| x rest IH]; intros s; simpl.
  - apply quiet_ret.
  - apply quiet_bind; [apply Hbody | exact IH].
Qed.

Lemma quiet_create_subprocess_exec (cmd : list string) :
  cmd <> probe_command -> quiet b (create_subprocess_exec os cmd).
Proof.
  intros Hcmd w Hw. unfold create_subprocess_exec.
  assert (Hc : count_probes (spawned w ++ [cmd]) = count_probes (spawned w)).
  { rewrite count_probes_snoc. unfold is_probe.
    rewrite bool_decide_eq_false_2 by exact Hcmd. lia. }
  destruct (spawn os _ cmd (fs w)); simpl; auto.
Qed.

Lemma quiet_wait_for_communicate (p : process) (timeout : Q) :
  quiet b (wait_for_communicate p timeout).
Proof.
  unfold wait_for_communicate.
  apply quiet_bind; [apply quiet_modify; reflexivity |].
  intros _. destruct (Qle_bool _ _); [apply quiet_ret | apply quiet_raise].
Qed.

Lemma quiet_mkdir (path : PurePath.t) : quiet b (mkdir os path).
Proof.
  intros w Hw. unfold mkdir.
  destruct (mkdir_parents os _ (fs w)); simpl; auto.
Qed.

Lemma quiet_os_path_exists (path : string) : quiet b (os_path_exists path).
Proof. apply quiet_gets. Qed.

(** A call that only reads the file system. *)
Lemma quiet_lift {A} (r : World -> exn + A) :
  quiet b (fun w => lift (r w) w).
Proof. intros w Hw. unfold lift. destruct (r w); simpl; auto. Qed.

Lemma quiet_lift_pure {A} (r : exn + A) : quiet b (lift r).
Proof. apply (quiet_lift (fun _ => r)). Qed.

Lemma quiet_path_exists (path : PurePath.t) : quiet b (path_exists path).
Proof. apply (quiet_lift (fun w => Path_exists (fs w) path)). Qed.

Lemma quiet_path_st_mtime (path : PurePath.t) : quiet b (path_st_mtime path).
Proof.
  intros w Hw. unfold path_st_mtime.
  destruct (FS.os_stat (fs w) _); simpl; auto.
Qed.

Lemma quiet_stderr_text (err : string) : quiet b (stderr_text err).
Proof.
  unfold stderr_text. destruct (String.eqb err ""); [apply quiet_ret |].
  destruct (Py.decode err); [apply quiet_ret | apply quiet_raise].
Qed.

(** A probe whose answer is known returns it and touches nothing. *)
Lemma check_ffmpeg_known (w : World) :
  _ffmpeg_available w = Some b -> async_check_ffmpeg os w = Return b w.
Proof.
  intros Hw. unfold async_check_ffmpeg, bind, gets. rewrite Hw. reflexivity.
Qed.

Lemma quiet_check_ffmpeg : quiet b (async_check_ffmpeg os).
Proof. intros w Hw. rewrite (check_ffmpeg_known w Hw). simpl. auto. Qed.

End Quiet.

Create HintDb quiet.

#[local] Hint Resolve quiet_ret quiet_raise quiet_gets quiet_log
  quiet_wait_for_communicate quiet_mkdir quiet_os_path_exists
  quiet_path_exists quiet_path_st_mtime quiet_check_ffmpeg
  quiet_lift quiet_lift_pure quiet_stderr_text : quiet.

(** Decompose a computation along its sequencing and its branches. *)
Ltac quiet_step :=
  match goal with
  | |- quiet _ (bind _ _) => apply quiet_bind; [| intros ?]
  | |- quiet _ (try_except _ _) => apply quiet_try_except; [| intros ?]
  | |- quiet _ (for_each _ _ _) => apply quiet_for_each; intros ? ?
  | |- quiet _ (modify _) => apply quiet_modify; reflexivity
  | |- quiet _ (lift _) => apply quiet_lift_pure
  | |- quiet _ (fun w => lift _ w) => apply quiet_lift
  | |- quiet _ (if ?c then _ else _) => destruct c
  | |- quiet _ (match ?x with _ => _ end) => destruct x
  | |- quiet _ (let _ := _ in _) => cbv zeta
  | |- quiet _ _ => solve [auto with quiet]
  end.

Section QuietOperations.

Variable os : Host.
Variable self : ThumbnailGenerator.
Variable b : bool.

Lemma quiet_generate_video (v : string) (t : PurePath.t) :
  quiet b (_generate_video_thumbnail os self v t).
Proof.
  unfold _generate_video_thumbnail. repeat quiet_step.
  apply quiet_create_subprocess_exec. discriminate.
Qed.

Lemma quiet_generate_image (i : string) (t : PurePath.t) :
  quiet b (_generate_image_thumbnail os self i t).
Proof.
  unfold _generate_image_thumbnail. repeat quiet_step.
  apply quiet_create_subprocess_exec. discriminate.
Qed.

#[local] Hint Resolve quiet_generate_video quiet_generate_image : quiet.

Lemma quiet_get_thumbnail_resolved (media_path : string) :
  quiet b (get_thumbnail_resolved os self media_path).
Proof. unfold get_thumbnail_resolved. repeat quiet_step. Qed.

Lemma quiet_get_thumbnail (media_path : string) :
  quiet b (async_get_thumbnail os self media_path).
Proof.
  unfold async_get_thumbnail.
  repeat quiet_step; apply quiet_get_thumbnail_resolved.
Qed.

Lemma quiet_scan_file (root filename : string) (stats : Stats) :
  quiet b (scan_file os self root filename stats).
Proof. unfold scan_file. repeat quiet_step. Qed.

Lemma quiet_scan_directory (entry : string * list string * list string)
      (stats : Stats) :
  quiet b (scan_directory os self entry stats).
Proof.
  unfold scan_directory. repeat quiet_step. apply quiet_scan_file.
Qed.

Lemma quiet_scan_walk (depth : nat) (top : string) (stats : Stats) :
  quiet b (scan_walk os self depth top stats).
Proof.
  revert top stats. induction depth as [| depth IH]; intros top stats.
  - apply quiet_ret.
  - cbn [scan_walk]. apply quiet_bind; [apply quiet_gets |].
    intros [[dirs files] |]; [| apply quiet_ret].
    apply quiet_bind; [apply quiet_scan_directory |]. intros stats1.
    apply quiet_for_each. intros name stats2. apply IH.
Qed.

Lemma quiet_generate_all (path : option string) :
  quiet b (async_generate_all_thumbnails os self path).
Proof.
  unfold async_generate_all_thumbnails.
  apply quiet_bind; [| intros ?; repeat quiet_step].
  apply quiet_for_each. intros base_path stats.
  unfold scan_base_path. repeat quiet_step.
  apply quiet_scan_walk.
Qed.

Lemma quiet_run_operation (op : operation) :
  quiet b (run_operation os self op).
Proof.
  destruct op; simpl.
  - apply quiet_bind; [apply quiet_check_ffmpeg | intros; apply quiet_ret].
  - apply quiet_bind; [apply quiet_get_thumbnail | intros; apply quiet_ret].
  - apply quiet_bind; [apply quiet_generate_all | intros; apply quiet_ret].
  - apply quiet_bind; [apply quiet_generate_video | intros; apply quiet_ret].
  - apply quiet_bind; [apply quiet_generate_image | intros; apply quiet_ret].
  - apply quiet_modify; reflexivity.
Qed.

Lemma quiet_run_operations (ops : list operation) (w : World) :
  _ffmpeg_available w = Some b ->
  _ffmpeg_available (run_operations os self ops w) = Some b
  /\ count_probes (spawned (run_operations os self ops w))
     = count_probes (spawned w).
Proof.
  revert w. induction ops as [| op rest IH]; intros w Hw; simpl.
  - auto.
  - destruct (quiet_run_operation op w Hw) as [H1 H2].
    destruct (IH _ H1) as [H3 H4]. split; [exact H3 | congruence].
Qed.

End QuietOperations.

(** What a probe that returns has done: the answer is stored, and either
    nothing else changed or this was the first probe, which started the
    tool once. *)
Lemma check_ffmpeg_returns (os : Host) (w w1 : World) (b : bool) :
  async_check_ffmpeg os w = Return b w1 ->
  _ffmpeg_available w1 = Some b
  /\ (w1 = w
      \/ (_ffmpeg_available w = None
          /\ spawned w1 = (spawned w ++ [probe_command])%list)).
Proof.
  unfold async_check_ffmpeg, bind, gets, try_except, create_subprocess_exec.
  destruct (_ffmpeg_available w) as [known |] eqn:Hw.
  - unfold ret. intros H. inversion H; subst. auto.
  - destruct (spawn os _ _ (fs w)) as [e | p]; simpl.
    + destruct e; simpl; try discriminate.
      intros H. inversion H; subst. simpl. auto.
    + destruct (returncode p =? 0); simpl;
        intros H; inversion H; subst; simpl; auto.
Qed.

(** C6 (as amended).  For one generator, once a probe has returned an
    answer [b]: the answer is stored; the probe started the tool at most
    once; whatever operations the client runs on that generator
    afterwards, in any number and order, the answer stays stored, no
    further probe is started, and a probe returns [b] leaving everything
    as it is.  When the answer is "unavailable", rendering a video or an
    image returns false having done nothing beyond that probe: no render
    command is started. *)
Theorem probe_runs_once_and_gates_rendering
        (os : Host) (self : ThumbnailGenerator) (w w1 : World) (b : bool) :
  async_check_ffmpeg os w = Return b w1 ->
  _ffmpeg_available w1 = Some b
  /\ (spawned w1 = spawned w
      \/ spawned w1 = (spawned w ++ [probe_command])%list)
  /\ (forall ops,
        let w2 := run_operations os self ops w1 in
        _ffmpeg_available w2 = Some b
        /\ count_probes (spawned w2) = count_probes (spawned w1)
        /\ async_check_ffmpeg os w2 = Return b w2
        /\ (b = false ->
            forall source thumb_path,
              _generate_video_thumbnail os self source thumb_path w2
              = Return false w2
              /\ _generate_image_thumbnail os self source thumb_path w2
                 = Return false w2))
  /\ (b = false ->
      forall source thumb_path,
        _generate_video_thumbnail os self source thumb_path w = Return false w1
        /\ _generate_image_thumbnail os self source thumb_path w
           = Return false w1).
Proof.
  intros Hprobe.
  destruct (check_ffmpeg_returns os w w1 b Hprobe) as [Hflag Hspawn].
  split; [exact Hflag |].
  split.
  { destruct Hspawn as [-> | [_ Hs]]; auto. }
  split.
  - intros ops w2.
    destruct (quiet_run_operations os self b ops w1 Hflag) as [H1 H2].
    fold w2 in H1, H2.
    pose proof (check_ffmpeg_known os b w2 H1) as Hagain.
    repeat split; try assumption.
    + unfold _generate_video_thumbnail, bind. rewrite Hagain. subst b.
      reflexivity.
    + unfold _generate_image_thumbnail, bind. rewrite Hagain. subst b.
      reflexivity.
  - intros -> source thumb_path. split.
    + unfold _generate_video_thumbnail, bind. rewrite Hprobe. reflexivity.
    + unfold _generate_image_thumbnail, bind. rewrite Hprobe. reflexivity.
Qed.

Lemma probe_runs_once_and_gates_rendering_witness :
  let w := fresh_world one_video_fs in
  let w1 := world_after (async_check_ffmpeg bare_host w) in
  async_check_ffmpeg bare_host w = Return false w1
  /\ _ffmpeg_available w1 = Some false
  /\ spawned w1 = [probe_command].
Proof.
  intros w w1.
  assert (H : async_check_ffmpeg bare_host w = Return false w1) by reflexivity.
  pose proof (probe_runs_once_and_gates_rendering
                bare_host default_generator w w1 false H) as T.
  split; [exact H |].
  split; [exact (proj1 T) |].
  reflexivity.
Defined.

(** C6 (as stated) fails within one process: setting the integration up
    again, as a reload of the entry does, builds a new generator, whose
    probe starts the tool again although the probe of the first set-up
    had returned and stored its answer. *)
Lemma probe_runs_again_at_the_next_set_up :
  let stored :=
    ConfigFlow.mk_stored (Some ["/media"]) None None None None None None in
  let none := ConfigFlow.mk_stored None None None None None None None in
  let first :=
    Integration.async_setup_entry quiet_host true "01J8ENTRY" stored none
      None (fresh_world one_video_fs) in
  let second :=
    Integration.async_setup_entry quiet_host true "01J8ENTRY" stored none
      (Some (fst first)) (world_after (snd first)) in
  (exists w1,
      snd first = Return true w1
      /\ _ffmpeg_available w1 = Some true
      /\ spawned w1 = [probe_command])
  /\ spawned (world_after (snd second)) = [probe_command; probe_command].
Proof.
  split.
  - eexists. split; [vm_compute; reflexivity |]. split; reflexivity.
  - vm_compute. reflexivity.
Qed.

(* ===================================================================== *)
(** ** The outcome of a render *)
(* ===================================================================== *)

Section Render.

Variable os : Host.
Variable self : ThumbnailGenerator.

(** The tail shared by the two render methods, once the probe said
    "available" and the cache directory is in place: start [cmd], wait
    for it up to [timeout], report. *)
Lemma render_attempt_outcome
      (cmd : list string) (timeout : Q) (w : World)
      (report_failure : process -> string -> M bool)
      (report_success : M bool)
      (on_error : exn -> M bool) :
  (forall p err w0,
      (exists r,
          report_failure p err w0
          = Return false (with_logged (logged w0 ++ [r])%list w0)
          /\ is_diagnostic r = true)
      \/ (exists e, report_failure p err w0 = Raise e w0)) ->
  (forall w0, exists w0',
      report_success w0 = Return true w0' /\ spawned w0' = spawned w0) ->
  (forall e w0, exists r,
      on_error e w0 = Return false (with_logged (logged w0 ++ [r])%list w0)
      /\ is_diagnostic r = true) ->
  let started := spawn os (length (spawned w)) cmd (fs w) in
  exists w',
    try_except
      (process <-- create_subprocess_exec os cmd ;;
       err <-- wait_for_communicate process timeout ;;
       if negb (returncode process =? 0) then report_failure process err
       else report_success)
      on_error w
    = Return (exited_zero started timeout) w'
    /\ spawned w' = (spawned w ++ [cmd])%list
    /\ (exited_zero started timeout = false ->
        exists r, logged w' = (logged w ++ [r])%list
                  /\ is_diagnostic r = true).
Proof.
  intros Hfail Hok Herr started.
  unfold try_except, bind, create_subprocess_exec. fold started.
  destruct started as [e | p] eqn:Hs; simpl.
  - destruct (Herr e (with_spawned (spawned w ++ [cmd])%list w))
      as (r & -> & Hr).
    eexists. split; [reflexivity |]. split; [reflexivity |].
    intros _. exists r. auto.
  - unfold wait_for_communicate, bind, modify, ret, raise.
    destruct (Qle_bool (run_time p) timeout); simpl.
    + destruct (returncode p =? 0); simpl.
      * match goal with |- context [report_success ?w0] =>
          destruct (Hok w0) as (w0' & -> & Hsp) end.
        eexists. split; [reflexivity |]. split; [exact Hsp |].
        discriminate.
      * match goal with |- context [report_failure p ?err ?w0] =>
          destruct (Hfail p err w0) as [(r & -> & Hr) | (e & ->)] end.
        -- eexists. split; [reflexivity |]. split; [reflexivity |].
           intros _. exists r. auto.
        -- match goal with |- context [on_error ?e ?w0] =>
             destruct (Herr e w0) as (r & -> & Hr) end.
           eexists. split; [reflexivity |]. split; [reflexivity |].
           intros _. exists r. auto.
    + match goal with |- context [on_error ?e ?w0] =>
        destruct (Herr e w0) as (r & -> & Hr) end.
      eexists. split; [reflexivity |]. split; [reflexivity |].
      intros _. exists r. auto.
Qed.

(** A probe that finds no executable answers "unavailable"; it does
    not raise. *)
Lemma check_ffmpeg_missing_tool (w : World) :
  _ffmpeg_available w = None ->
  spawn os (length (spawned w)) probe_command (fs w) = inl FileNotFoundError ->
  exists w1,
    async_check_ffmpeg os w = Return false w1
    /\ spawned w1 = (spawned w ++ [probe_command])%list
    /\ exists r, logged w1 = (logged w ++ [r])%list /\ is_diagnostic r = true.
Proof.
  intros Hw Hs.
  unfold async_check_ffmpeg, bind, gets, try_except, create_subprocess_exec.
  rewrite Hw. fold probe_command. rewrite Hs. simpl.
  eexists. split; [reflexivity |]. split; [reflexivity |].
  eexists. split; reflexivity.
Qed.

End Render.

(** Reporting the failure of the tool: a warning with what it wrote on
    its standard error, or UnicodeDecodeError where that is not UTF-8. *)
Lemma report_failure_outcome (source err : string) (w0 : World) :
  (exists r,
      (text <-- stderr_text err ;;
       log WARNING "ffmpeg failed for %s: %s" [source; text] ;;;
       ret false) w0
      = Return false (with_logged (logged w0 ++ [r])%list w0)
      /\ is_diagnostic r = true)
  \/ (exists e,
        (text <-- stderr_text err ;;
         log WARNING "ffmpeg failed for %s: %s" [source; text] ;;;
         ret false) w0 = Raise e w0).
Proof.
  unfold stderr_text, bind.
  destruct (String.eqb err "").
  - left. eexists. split; reflexivity.
  - destruct (Py.decode err).
    + left. eexists. split; reflexivity.
    + right. eexists. reflexivity.
Qed.

(** The probe is awaited outside the [try] of a render. *)
Lemma render_probe_failure
      (os : Host) (self : ThumbnailGenerator)
      (source : string) (thumb_path : PurePath.t) (w w0 : World) (e : exn) :
  async_check_ffmpeg os w = Raise e w0 ->
  _generate_video_thumbnail os self source thumb_path w = Raise e w0
  /\ _generate_image_thumbnail os self source thumb_path w = Raise e w0.
Proof.
  intros Hprobe.
  unfold _generate_video_thumbnail, _generate_image_thumbnail, bind.
  rewrite Hprobe. split; reflexivity.
Qed.

(** The cache directory is created outside the [try] of a render. *)
Lemma render_mkdir_failure
      (os : Host) (self : ThumbnailGenerator)
      (source : string) (thumb_path : PurePath.t)
      (w w0 : World) (e : exn) :
  async_check_ffmpeg os w = Return true w0 ->
  mkdir_parents os (PurePath.to_string (PurePath.parent thumb_path)) (fs w0)
  = inl e ->
  _generate_video_thumbnail os self source thumb_path w = Raise e w0
  /\ _generate_image_thumbnail os self source thumb_path w = Raise e w0.
Proof.
  intros Hprobe Hmk.
  split; [unfold _generate_video_thumbnail | unfold _generate_image_thumbnail];
    unfold bind at 1; rewrite Hprobe; cbn [negb]; cbv beta iota;
    unfold bind at 1; unfold mkdir; rewrite Hmk; reflexivity.
Qed.

(** The outcome of a render after a probe that returned. *)
Lemma render_after_probe
      (os : Host) (self : ThumbnailGenerator)
      (source : string) (thumb_path : PurePath.t)
      (w w0 : World) (avail : bool) (f1 : FS.t) :
  async_check_ffmpeg os w = Return avail w0 ->
  (avail = true ->
   mkdir_parents os (PurePath.to_string (PurePath.parent thumb_path)) (fs w0)
   = inr f1) ->
  let started cmd := spawn os (length (spawned w0)) cmd f1 in
  let video := video_command os self source thumb_path in
  let image := image_command self source thumb_path in
  (exists w',
      _generate_video_thumbnail os self source thumb_path w
      = Return (avail && exited_zero (started video) 30) w'
      /\ spawned w' = (if avail then spawned w0 ++ [video] else spawned w0)%list
      /\ (avail = true -> exited_zero (started video) 30 = false ->
          exists r, logged w' = (logged w0 ++ [r])%list
                    /\ is_diagnostic r = true))
  /\ (exists w',
         _generate_image_thumbnail os self source thumb_path w
         = Return (avail && exited_zero (started image) 15) w'
         /\ spawned w' = (if avail then spawned w0 ++ [image] else spawned w0)%list
         /\ (avail = true -> exited_zero (started image) 15 = false ->
             exists r, logged w' = (logged w0 ++ [r])%list
                       /\ is_diagnostic r = true)).
Proof.
  intros Hprobe Hmk started video image.
  destruct avail.
  - specialize (Hmk eq_refl). split.
    + unfold _generate_video_thumbnail.
      unfold bind at 1. rewrite Hprobe. cbn [negb]. cbv beta iota.
      unfold bind at 1. unfold mkdir at 1. rewrite Hmk. cbv beta iota.
      edestruct (render_attempt_outcome os video 30 (with_fs f1 w0))
        as (w' & Heq & Hsp & Hlog);
        [| | | exists w'; split; [exact Heq |]; split; [exact Hsp |];
               intros _; exact Hlog].
      * intros p err w1. apply report_failure_outcome.
      * intros w1. eexists. split; [reflexivity | reflexivity].
      * intros e w1. destruct e; eexists; split; reflexivity.
    + unfold _generate_image_thumbnail.
      unfold bind at 1. rewrite Hprobe. cbn [negb]. cbv beta iota.
      unfold bind at 1. unfold mkdir at 1. rewrite Hmk. cbv beta iota.
      edestruct (render_attempt_outcome os image 15 (with_fs f1 w0))
        as (w' & Heq & Hsp & Hlog);
        [| | | exists w'; split; [exact Heq |]; split; [exact Hsp |];
               intros _; exact Hlog].
      * intros p err w1. apply report_failure_outcome.
      * intros w1. eexists. split; [reflexivity | reflexivity].
      * intros e w1. destruct e; eexists; split; reflexivity.
  - split; exists w0.
    + unfold _generate_video_thumbnail, bind. rewrite Hprobe.
      repeat split; discriminate.
    + unfold _generate_image_thumbnail, bind. rewrite Hprobe.
      repeat split; discriminate.
Qed.

(** C7 (as amended).  Every render, of a video or of an image, ends in
    one of four ways.  When the probe returns and, the tool being
    available, the cache directory can be created, the render returns,
    and it reports success exactly when the tool is available and the
    render subprocess was started, ended within the time allowed (30
    seconds for a video, 15 for an image) and exited with code 0; whether
    the destination file is then present is not looked at.  Another exit
    code, a timeout or a subprocess that cannot be started give [false],
    not an exception, and leave a warning or an error in the log; so does
    a tool that is missing, whether a probe found that out before or the
    render is the first to probe.  When the probe raises (starting the
    tool failed with an error other than a missing executable), the
    render raises that error; when the cache directory cannot be created,
    the render raises the error of [mkdir]. *)
Theorem render_succeeds_iff_exit_zero
        (os : Host) (self : ThumbnailGenerator)
        (source : string) (thumb_path : PurePath.t) :
  (forall w w0 avail f1,
      async_check_ffmpeg os w = Return avail w0 ->
      (avail = true ->
       mkdir_parents os (PurePath.to_string (PurePath.parent thumb_path)) (fs w0)
       = inr f1) ->
      let started cmd := spawn os (length (spawned w0)) cmd f1 in
      let video := video_command os self source thumb_path in
      let image := image_command self source thumb_path in
      (exists w',
          _generate_video_thumbnail os self source thumb_path w
          = Return (avail && exited_zero (started video) 30) w'
          /\ spawned w'
             = (if avail then spawned w0 ++ [video] else spawned w0)%list
          /\ (avail = true -> exited_zero (started video) 30 = false ->
              exists r, logged w' = (logged w0 ++ [r])%list
                        /\ is_diagnostic r = true))
      /\ (exists w',
             _generate_image_thumbnail os self source thumb_path w
             = Return (avail && exited_zero (started image) 15) w'
             /\ spawned w'
                = (if avail then spawned w0 ++ [image] else spawned w0)%list
             /\ (avail = true -> exited_zero (started image) 15 = false ->
                 exists r, logged w' = (logged w0 ++ [r])%list
                           /\ is_diagnostic r = true)))
  /\ (forall w,
         _ffmpeg_available w = None ->
         spawn os (length (spawned w)) probe_command (fs w)
         = inl FileNotFoundError ->
         exists w1,
           _generate_video_thumbnail os self source thumb_path w
           = Return false w1
           /\ _generate_image_thumbnail os self source thumb_path w
              = Return false w1
           /\ spawned w1 = (spawned w ++ [probe_command])%list
           /\ exists r, logged w1 = (logged w ++ [r])%list
                        /\ is_diagnostic r = true)
  /\ (forall w w0 e,
         async_check_ffmpeg os w = Raise e w0 ->
         _generate_video_thumbnail os self source thumb_path w = Raise e w0
         /\ _generate_image_thumbnail os self source thumb_path w
            = Raise e w0)
  /\ (forall w w0 e,
         async_check_ffmpeg os w = Return true w0 ->
         mkdir_parents os (PurePath.to_string (PurePath.parent thumb_path))
                       (fs w0) = inl e ->
         _generate_video_thumbnail os self source thumb_path w = Raise e w0
         /\ _generate_image_thumbnail os self source thumb_path w
            = Raise e w0).
Proof.
  split; [| split; [| split]].
  - intros w w0 avail f1. apply render_after_probe.
  - intros w Hnone Hmissing.
    destruct (check_ffmpeg_missing_tool os w Hnone Hmissing)
      as (w1 & Hprobe & Hsp & Hlog).
    exists w1.
    destruct (render_after_probe os self source thumb_path w w1 false (fs w)
                Hprobe ltac:(discriminate))
      as [(wv & Hv & Hvs & _) (wi & Hi & His & _)].
    cbn [andb] in Hv, Hi, Hvs, His.
    assert (wv = w1).
    { unfold _generate_video_thumbnail, bind in Hv. rewrite Hprobe in Hv.
      cbn in Hv. unfold ret in Hv. congruence. }
    assert (wi = w1).
    { unfold _generate_image_thumbnail, bind in Hi. rewrite Hprobe in Hi.
      cbn in Hi. unfold ret in Hi. congruence. }
    subst wv wi. repeat split; assumption.
  - intros w w0 e. apply render_probe_failure.
  - intros w w0 e. apply render_mkdir_failure.
Qed.

Lemma render_succeeds_iff_exit_zero_witness :
  let w := fresh_world empty_cache_fs in
  let thumb_path := thumbnail_of default_generator "/media/clip.mp4" in
  async_check_ffmpeg quiet_host w
  = Return true (world_after (async_check_ffmpeg quiet_host w))
  /\ exists w',
       _generate_video_thumbnail quiet_host default_generator
                                 "/media/clip.mp4" thumb_path w
       = Return true w'.
Proof.
  intros w thumb_path.
  assert (Hprobe : async_check_ffmpeg quiet_host w
                   = Return true (world_after (async_check_ffmpeg quiet_host w)))
    by reflexivity.
  split; [exact Hprobe |].
  destruct (proj1 (render_succeeds_iff_exit_zero
                     quiet_host default_generator "/media/clip.mp4" thumb_path)
                  w _ true empty_cache_fs Hprobe (fun _ => eq_refl))
    as [(w' & Hv & _) _].
  exists w'. exact Hv.
Defined.

(** C7 (as stated) fails where ffmpeg exits with code 0 and writes no
    file, as it does for a seek position past the end of a video: both
    renders report success and the destination is absent. *)
Lemma render_reports_success_without_destination :
  let w := fresh_world empty_cache_fs in
  let video_thumb := thumbnail_of default_generator "/media/clip.mp4" in
  let image_thumb := thumbnail_of default_generator "/media/photo.png" in
  (exists w',
      _generate_video_thumbnail quiet_host default_generator
                                "/media/clip.mp4" video_thumb w
      = Return true w'
      /\ FS.exists_ (fs w') (PurePath.to_string video_thumb) = false)
  /\ (exists w',
         _generate_image_thumbnail quiet_host default_generator
                                   "/media/photo.png" image_thumb w
         = Return true w'
         /\ FS.exists_ (fs w') (PurePath.to_string image_thumb) = false).
Proof.
  split; eexists; split; [vm_compute; reflexivity | vm_compute; reflexivity
                         | vm_compute; reflexivity | vm_compute; reflexivity].
Qed.

(* ===================================================================== *)
(** ** The memoized lookup *)
(* ===================================================================== *)

(** C8.  When the identifier is in the memoized mapping and the mapped
    file exists, the lookup returns the mapped path and leaves the world
    as it is, whatever the modification times of the source and of the
    cache file: nothing is compared and no subprocess is started.  When
    the mapped file does not exist, the lookup is the full resolution. *)
Theorem memoized_lookup_fast_path
        (os : Host) (self : ThumbnailGenerator) (w : World)
        (media_path thumb_path : string) :
  _cache w !! media_path = Some thumb_path ->
  (FS.exists_ (fs w) thumb_path = true ->
   async_get_thumbnail os self media_path w = Return (Some thumb_path) w)
  /\ (FS.exists_ (fs w) thumb_path = false ->
      async_get_thumbnail os self media_path w
      = get_thumbnail_resolved os self media_path w).
Proof.
  intros Hmemo.
  unfold async_get_thumbnail, os_path_exists, bind, gets.
  rewrite Hmemo.
  split; intros ->; reflexivity.
Qed.

Lemma memoized_lookup_fast_path_witness :
  let thumb := "/media/.thumbnails/clip_83c80c7b.jpg" in
  let w := mk_world (cached_fs 300) (Some true)
                    {[ "/media/clip.mp4" := thumb ]} [] [] in
  async_get_thumbnail quiet_host default_generator "/media/clip.mp4" w
  = Return (Some thumb) w.
Proof.
  intros thumb w.
  apply (memoized_lookup_fast_path quiet_host default_generator w
           "/media/clip.mp4" thumb).
  - reflexivity.
  - reflexivity.
Defined.

(* ===================================================================== *)
(** ** Resolution of identifiers *)
(* ===================================================================== *)

Lemma remove_all_absent (old s : string) :
  Py.contains s old = false -> Py.remove_all old s = s.
Proof.
  unfold Py.remove_all.
  induction s as [| c s' IH]; intros H; [reflexivity |].
  cbn [Py.contains] in H. apply orb_false_iff in H. destruct H as [Hp Hc].
  cbn [Py.remove_from]. rewrite Hp. f_equal. apply IH. exact Hc.
Qed.

Lemma remove_all_prefix (rest : string) :
  Py.remove_all media_source_prefix (media_source_prefix +:+ rest)
  = Py.remove_all media_source_prefix rest.
Proof. reflexivity. Qed.

(** What [exists()] of pathlib returns is what [os.path.exists] says. *)
Lemma Path_exists_returns (f : FS.t) (path : PurePath.t) (b : bool) :
  Path_exists f path = inr b -> FS.exists_ f (PurePath.to_string path) = b.
Proof.
  unfold Path_exists, FS.exists_, FS.stat.
  destruct (FS.os_stat f (PurePath.to_string path)) as [[| what] | n];
    intros H; inversion H; reflexivity.
Qed.

(** The search through the places of a media-source identifier: the
    places that do not exist are passed, and the first other one decides. *)
Lemma first_under_search (f : FS.t) (relative_path : string)
      (before : list string) (base : string) (after : list string) :
  let place b :=
    PurePath.joinpath (PurePath.of_string b) relative_path in
  (forall b, In b before -> Path_exists f (place b) = inr false) ->
  first_under f relative_path (before ++ base :: after)
  = match Path_exists f (place base) with
    | inl e => inl e
    | inr true => inr (Some (PurePath.to_string (place base)))
    | inr false => first_under f relative_path after
    end.
Proof.
  intros place Hbefore.
  induction before as [| b rest IH]; [reflexivity |].
  cbn [app first_under]. fold (place b).
  rewrite (Hbefore b (or_introl eq_refl)).
  apply IH. intros b' Hb'. apply Hbefore. right. exact Hb'.
Qed.

Lemma first_under_none (f : FS.t) (relative_path : string)
      (bases : list string) :
  (forall b, In b bases ->
             Path_exists f (PurePath.joinpath (PurePath.of_string b)
                                              relative_path) = inr false) ->
  first_under f relative_path bases = inr None.
Proof.
  induction bases as [| b rest IH]; intros H; [reflexivity |].
  cbn [first_under]. rewrite (H b (or_introl eq_refl)).
  apply IH. intros b' Hb'. apply H. right. exact Hb'.
Qed.

Lemma resolve_namespace (self : ThumbnailGenerator) (f : FS.t)
      (media_content_id : string) :
  Py.startswith media_content_id media_source_prefix = true ->
  _resolve_media_path self f media_content_id
  = first_under f (relative_path_of media_content_id)
                ("/media" :: media_paths self).
Proof.
  intros Hp. unfold _resolve_media_path.
  fold media_source_prefix. rewrite Hp.
  fold (relative_path_of media_content_id). reflexivity.
Qed.

(** C5 (as amended).  An identifier that starts with the media-source
    namespace is taken as one, whether or not it also exists as a literal
    path: its relative path is joined to [/media] and then to each
    configured media path in order, and these places are tested in that
    order.  The first place that exists is returned; when none exists,
    the result is [None] and nothing is raised; both provided that the
    existence tests made on the way do not fail with an error of the
    operating system other than not-found.  Any other identifier is
    returned unchanged if it exists on disk and gives [None] otherwise,
    and nothing is raised.  For an identifier that holds the namespace
    only as its prefix, the relative path is what follows the prefix,
    less a leading [local/]. *)
Theorem resolve_media_path_cases
        (self : ThumbnailGenerator) (f : FS.t) (media_content_id : string) :
  (Py.startswith media_content_id media_source_prefix = true ->
   (forall before place after,
       candidates self media_content_id = (before ++ place :: after)%list ->
       (forall p, In p before -> Path_exists f p = inr false) ->
       Path_exists f place = inr true ->
       _resolve_media_path self f media_content_id
       = inr (Some (PurePath.to_string place)))
   /\ ((forall p, In p (candidates self media_content_id) ->
                  Path_exists f p = inr false) ->
       _resolve_media_path self f media_content_id = inr None))
  /\ (Py.startswith media_content_id media_source_prefix = false ->
      _resolve_media_path self f media_content_id
      = inr (if FS.exists_ f media_content_id
             then Some media_content_id else None))
  /\ (forall rest,
        Py.contains rest media_source_prefix = false ->
        relative_path_of (media_source_prefix +:+ rest)
        = if Py.startswith rest "local/" then Py.drop 6 rest else rest).
Proof.
  split; [| split].
  - intros Hp. rewrite (resolve_namespace self f media_content_id Hp).
    unfold candidates.
    set (place_of := fun base =>
           PurePath.joinpath (PurePath.of_string base)
                             (relative_path_of media_content_id)).
    split.
    + intros before place after Hsplit Hbefore Hplace0.
      apply map_eq_app in Hsplit.
      destruct Hsplit as (bases1 & bases2 & Hbases & Hb1 & Hb2).
      destruct bases2 as [| base bases2]; [discriminate Hb2 |].
      cbn [map] in Hb2. inversion Hb2 as [[Hplace Hafter]].
      rewrite Hbases.
      rewrite first_under_search.
      * fold (place_of base). rewrite Hplace, Hplace0. reflexivity.
      * intros b Hb. apply Hbefore. rewrite <- Hb1.
        apply in_map_iff. exists b. auto.
    + intros Hnone. apply first_under_none.
      intros b Hb. apply Hnone. apply in_map_iff. exists b. auto.
  - intros Hp. unfold _resolve_media_path.
    fold media_source_prefix. rewrite Hp.
    destruct (FS.exists_ f media_content_id); reflexivity.
  - intros rest Hrest. unfold relative_path_of.
    rewrite remove_all_prefix, (remove_all_absent _ _ Hrest). reflexivity.
Qed.

Lemma resolve_media_path_cases_witness :
  _resolve_media_path default_generator (cached_fs 100)
                      "media-source://media_source/local/clip.mp4"
  = inr (Some "/media/clip.mp4").
Proof.
  apply (proj1 (proj1 (resolve_media_path_cases default_generator
                         (cached_fs 100)
                         "media-source://media_source/local/clip.mp4")
                      eq_refl)
           [] (PurePath.of_string "/media/clip.mp4")
           [PurePath.of_string "/media/clip.mp4"]
           eq_refl
           (fun p (H : In p []) => match H with end));
    reflexivity.
Defined.

(** C5 (as stated) fails for an identifier in the media-source namespace
    that is also the path of an existing file: it is not returned. *)
Lemma resolve_skips_existing_literal_in_namespace :
  FS.exists_ odd_directory_fs "media-source://media_source/x.mp4" = true
  /\ _resolve_media_path default_generator odd_directory_fs
                         "media-source://media_source/x.mp4" = inr None.
Proof. split; vm_compute; reflexivity. Qed.

(* ===================================================================== *)
(** ** A path and its pathlib form name the same file *)
(* ===================================================================== *)

Lemma step_kept_out (st st' : list FS.node) (comp : string) :
  PurePath.keep_component comp = false ->
  FS.step st comp = Some st' -> st' = st.
Proof.
  unfold PurePath.keep_component, FS.step. intros Hkeep.
  destruct st as [| [m | m es] ups]; try discriminate.
  destruct (String.eqb comp "") eqn:H1; cbn [orb].
  - intros H. inversion H. reflexivity.
  - destruct (String.eqb comp ".") eqn:H2.
    + intros H. inversion H. reflexivity.
    + discriminate Hkeep.
Qed.

Lemma steps_filter (comps : list string) (st st' : list FS.node) :
  FS.steps st comps = Some st' ->
  FS.steps st (List.filter PurePath.keep_component comps) = Some st'.
Proof.
  revert st. induction comps as [| c comps IH]; intros st H; [exact H |].
  cbn [FS.steps] in H. destruct (FS.step st c) as [st1 |] eqn:Hstep;
    [| discriminate].
  cbn [List.filter]. destruct (PurePath.keep_component c) eqn:Hkeep.
  - cbn [FS.steps]. rewrite Hstep. apply IH. exact H.
  - apply (step_kept_out _ _ _ Hkeep) in Hstep. subst st1. apply IH. exact H.
Qed.

Lemma split_slash_lstrip (s : string) :
  Py.split_slash s
  = (repeat "" (fst (Py.lstrip_slash s))
     ++ Py.split_slash (snd (Py.lstrip_slash s)))%list.
Proof.
  induction s as [| c s IH]; [reflexivity |].
  cbn [Py.lstrip_slash Py.split_slash].
  destruct (Ascii.eqb c "/") eqn:Hc.
  - destruct (Py.lstrip_slash s) as [n r]. cbn [fst snd repeat app] in *.
    rewrite IH. reflexivity.
  - cbn [fst snd repeat app Py.split_slash]. rewrite Hc. reflexivity.
Qed.

Lemma lstrip_slash_zero (s : string) :
  fst (Py.lstrip_slash s) = O ->
  Py.startswith s "/" = false /\ snd (Py.lstrip_slash s) = s.
Proof.
  destruct s as [| c s]; [auto |].
  cbn [Py.lstrip_slash Py.startswith].
  destruct (Ascii.eqb c "/") eqn:Hc.
  - destruct (Py.lstrip_slash s). discriminate.
  - rewrite Ascii.eqb_sym, Hc. auto.
Qed.

Lemma lstrip_slash_positive (s : string) (k : nat) :
  fst (Py.lstrip_slash s) = S k -> Py.startswith s "/" = true.
Proof.
  destruct s as [| c s]; [discriminate |].
  cbn [Py.lstrip_slash Py.startswith].
  destruct (Ascii.eqb c "/") eqn:Hc.
  - rewrite Ascii.eqb_sym, Hc. reflexivity.
  - discriminate.
Qed.

Lemma filter_repeat_empty (k : nat) (l : list string) :
  List.filter PurePath.keep_component (repeat "" k ++ l)
  = List.filter PurePath.keep_component l.
Proof. induction k as [| k IH]; [reflexivity | exact IH]. Qed.

Lemma split_slash_segment (x t : string) :
  has_slash x = false ->
  Py.split_slash (x +:+ "/" +:+ t) = x :: Py.split_slash t.
Proof.
  induction x as [| c x IH]; intros H; [reflexivity |].
  cbn [has_slash] in H. apply orb_false_iff in H. destruct H as [Hc H].
  change (String c x +:+ "/" +:+ t) with (String c (x +:+ "/" +:+ t)).
  cbn [Py.split_slash]. rewrite Hc, (IH H). reflexivity.
Qed.

Lemma split_join_slash (parts : list string) :
  parts <> [] ->
  (forall x, In x parts -> has_slash x = false) ->
  Py.split_slash (Py.join_slash parts) = parts.
Proof.
  induction parts as [| x [| y rest] IH]; intros Hne Hall.
  - congruence.
  - apply split_slash_whole. apply Hall. left. reflexivity.
  - change (Py.join_slash (x :: y :: rest))
      with (x +:+ "/" +:+ Py.join_slash (y :: rest)).
    rewrite split_slash_segment by (apply Hall; left; reflexivity).
    f_equal. apply IH; [discriminate |].
    intros z Hz. apply Hall. right. exact Hz.
Qed.

Lemma components_spec (rel x : string) :
  In x (PurePath.components rel) ->
  has_slash x = false /\ x <> "".
Proof.
  unfold PurePath.components. intros H. apply filter_In in H.
  destruct H as [Hin Hkeep]. split.
  - eapply split_slash_pieces. exact Hin.
  - intros ->. discriminate Hkeep.
Qed.

(** A joined list of components does not start with a slash. *)
Lemma join_slash_relative (p : string) (ps : list string) :
  has_slash p = false -> p <> "" ->
  Py.join_slash (p :: ps) <> ""
  /\ Py.startswith (Py.join_slash (p :: ps)) "/" = false.
Proof.
  intros Hs Hne. destruct p as [| c p]; [congruence |].
  cbn [has_slash] in Hs. apply orb_false_iff in Hs. destruct Hs as [Hc _].
  assert (H : exists t, Py.join_slash (String c p :: ps) = String c t).
  { destruct ps; [exists p; reflexivity |]. eexists. reflexivity. }
  destruct H as [t ->]. split; [discriminate |].
  cbn [Py.startswith]. rewrite Ascii.eqb_sym, Hc. reflexivity.
Qed.

Lemma split_slash_first (s : string) :
  exists c rest, Py.split_slash s = c :: rest.
Proof.
  destruct s as [| a s]; [eexists; eexists; reflexivity |].
  cbn [Py.split_slash]. destruct (Ascii.eqb a "/").
  - eexists; eexists; reflexivity.
  - destruct (Py.split_slash s); eexists; eexists; reflexivity.
Qed.

Lemma step_needs_directory (st st' : list FS.node) (comp : string) :
  FS.step st comp = Some st' ->
  exists m es ups, st = FS.Dir m es :: ups.
Proof.
  unfold FS.step. destruct st as [| [m | m es] ups]; try discriminate.
  intros _. eexists; eexists; eexists; reflexivity.
Qed.

Lemma parts_of_string (s : string) :
  PurePath.parts (PurePath.of_string s)
  = List.filter PurePath.keep_component (Py.split_slash s).
Proof.
  unfold PurePath.of_string, PurePath.splitroot, PurePath.components.
  pose proof (split_slash_lstrip s) as H.
  destruct (Py.lstrip_slash s) as [n rel]. cbn [fst snd] in H.
  destruct n as [| [| [| n]]]; cbn [PurePath.parts];
    [reflexivity | | |]; rewrite H, filter_repeat_empty; reflexivity.
Qed.

Lemma root_of_string (a b : string) :
  fst (Py.lstrip_slash a) = fst (Py.lstrip_slash b) ->
  PurePath.root (PurePath.of_string a) = PurePath.root (PurePath.of_string b).
Proof.
  unfold PurePath.of_string, PurePath.splitroot.
  destruct (Py.lstrip_slash a) as [n ra], (Py.lstrip_slash b) as [m rb].
  cbn [fst]. intros <-. destruct n as [| [| [| n]]]; reflexivity.
Qed.

Lemma path_eta (p : PurePath.t) :
  p = PurePath.mk (PurePath.root p) (PurePath.parts p).
Proof. destruct p. reflexivity. Qed.

(** What resolves as a string resolves, to the same node, as the string
    of its [Path]. *)
Lemma lookup_normalised (f : FS.t) (s : string) (n : FS.node) :
  FS.lookup f s = Some n ->
  FS.lookup f (PurePath.to_string (PurePath.of_string s)) = Some n.
Proof.
  unfold FS.lookup at 1.
  destruct (String.eqb s "") eqn:Hs; [discriminate |].
  unfold PurePath.of_string, PurePath.splitroot.
  pose proof (split_slash_lstrip s) as Hsplit.
  destruct (Py.lstrip_slash s) as [k rel] eqn:Hstrip. cbn [fst snd] in Hsplit.
  assert (Hparts : forall x, In x (PurePath.components rel) ->
                             has_slash x = false /\ x <> "")
    by (intros x; apply components_spec).
  destruct k as [| k].
  - (* a relative path *)
    destruct (lstrip_slash_zero s) as [Hrel Heq];
      [rewrite Hstrip; reflexivity |].
    rewrite Hstrip in Heq. cbn [snd] in Heq. subst rel. rewrite Hrel.
    destruct (FS.steps [FS.tree f] (FS.cwd f)) as [st0 |] eqn:Hcwd;
      [| discriminate].
    destruct (FS.steps st0 (Py.split_slash s)) as [[| n0 r] |] eqn:Hsteps;
      try discriminate.
    intros H. inversion H. subst n0. clear H.
    pose proof (steps_filter _ _ _ Hsteps) as Hfil.
    fold (PurePath.components s) in Hfil.
    unfold PurePath.to_string. cbn [PurePath.root PurePath.parts].
    destruct (PurePath.components s) as [| p ps] eqn:Hcomp.
    + cbn [FS.steps] in Hfil. inversion Hfil. subst st0.
      destruct (split_slash_first s) as (c & rest & Hc).
      rewrite Hc in Hsteps. cbn [FS.steps] in Hsteps.
      destruct (FS.step (n :: r) c) as [st1 |] eqn:Hstep; [| discriminate].
      destruct (step_needs_directory _ _ _ Hstep) as (m & es & ups & Hdir).
      inversion Hdir. subst n r.
      unfold FS.lookup.
      change (String.eqb "." "") with false.
      change (Py.startswith "." "/") with false.
      change (Py.split_slash ".") with ["."].
      cbv iota. rewrite Hcwd. reflexivity.
    + destruct (Hparts p (or_introl eq_refl)) as [Hp1 Hp2].
      destruct (join_slash_relative p ps Hp1 Hp2) as [Hne Hrelj].
      change ("" +:+ Py.join_slash (p :: ps)) with (Py.join_slash (p :: ps)).
      unfold FS.lookup.
      destruct (String.eqb_spec (Py.join_slash (p :: ps)) "") as [E | _];
        [congruence |].
      rewrite Hrelj, Hcwd.
      rewrite split_join_slash;
        [| discriminate | intros x Hx; apply (Hparts x Hx)].
      rewrite Hfil. reflexivity.
  - (* an absolute path *)
    rewrite (lstrip_slash_positive s k) by (rewrite Hstrip; reflexivity).
    rewrite Hsplit.
    destruct (FS.steps [FS.tree f] _) as [[| n0 r] |] eqn:Hsteps;
      try discriminate.
    intros H. inversion H. subst n0. clear H.
    pose proof (steps_filter _ _ _ Hsteps) as Hfil.
    rewrite filter_repeat_empty in Hfil.
    fold (PurePath.components rel) in Hfil.
    assert (Hdir : exists m es, FS.tree f = FS.Dir m es).
    { cbn [repeat app FS.steps] in Hsteps.
      destruct (FS.step [FS.tree f] "") as [st1 |] eqn:Hstep; [| discriminate].
      destruct (step_needs_directory _ _ _ Hstep) as (m & es & ups & Hd).
      inversion Hd. eauto. }
    destruct Hdir as (m & es & Htree).
    set (r0 := match k with 1%nat => "//" | _ => "/" end).
    assert (Hroot : r0 = "/" \/ r0 = "//")
      by (destruct k as [| [| k]]; auto).
    replace (match S k with
             | 0%nat => ("", s)
             | 2%nat => ("//", rel)
             | _ => ("/", rel)
             end) with (r0, rel)
      by (destruct k as [| [| k]]; reflexivity).
    unfold PurePath.to_string. cbn [PurePath.root PurePath.parts].
    clearbody r0.
    match goal with
    | |- FS.lookup f ?e = _ =>
        replace e with (r0 +:+ Py.join_slash (PurePath.components rel))
          by (destruct Hroot as [-> | ->]; reflexivity)
    end.
    assert (Hgoal : forall t,
               FS.steps [FS.tree f] (Py.split_slash t) = Some (n :: r) ->
               FS.lookup f (r0 +:+ t) = Some n).
    { intros t Ht. unfold FS.lookup.
      assert (Hempty : FS.step [FS.tree f] "" = Some [FS.tree f])
        by (rewrite Htree; reflexivity).
      destruct Hroot as [-> | ->].
      - change ("/" +:+ t) with (String "/" t).
        change (String.eqb (String "/" t) "") with false.
        change (Py.startswith (String "/" t) "/") with true.
        change (Py.split_slash (String "/" t)) with ("" :: Py.split_slash t).
        cbv iota. cbn [FS.steps]. rewrite Hempty, Ht. reflexivity.
      - change ("//" +:+ t) with (String "/" (String "/" t)).
        change (String.eqb (String "/" (String "/" t)) "") with false.
        change (Py.startswith (String "/" (String "/" t)) "/") with true.
        change (Py.split_slash (String "/" (String "/" t)))
          with ("" :: "" :: Py.split_slash t).
        cbv iota. cbn [FS.steps]. rewrite !Hempty, Ht. reflexivity. }
    apply Hgoal.
    destruct (PurePath.components rel) as [| p ps] eqn:Hcomp.
    + cbn [FS.steps] in Hfil. inversion Hfil.
      cbn [Py.join_slash Py.split_slash FS.steps]. rewrite Htree.
      reflexivity.
    + rewrite split_join_slash;
        [exact Hfil | discriminate | intros x Hx; apply (Hparts x Hx)].
Qed.


(** A [Path] is the [Path] of its string. *)
Lemma of_string_normal (s : string) :
  PurePath.of_string (PurePath.to_string (PurePath.of_string s))
  = PurePath.of_string s.
Proof.
  assert (Hkept : forall x, In x (PurePath.parts (PurePath.of_string s)) ->
                            has_slash x = false /\ x <> ""
                            /\ PurePath.keep_component x = true).
  { intros x Hx. rewrite parts_of_string in Hx.
    apply filter_In in Hx. destruct Hx as [Hin Hkeep].
    split; [eapply split_slash_pieces; exact Hin |].
    split; [intros ->; discriminate Hkeep | exact Hkeep]. }
  assert (Hroot : PurePath.root (PurePath.of_string s) = ""
                  \/ PurePath.root (PurePath.of_string s) = "/"
                  \/ PurePath.root (PurePath.of_string s) = "//").
  { unfold PurePath.of_string, PurePath.splitroot.
    destruct (Py.lstrip_slash s) as [k rel].
    destruct k as [| [| [| k]]]; cbn [PurePath.root]; auto. }
  destruct (PurePath.of_string s) as [r ps].
  cbn [PurePath.root PurePath.parts] in *.
  assert (Hfilter : forall l, (forall x, In x l ->
                                 PurePath.keep_component x = true) ->
                              List.filter PurePath.keep_component l = l).
  { induction l as [| x l IH]; intros H; [reflexivity |].
    cbn [List.filter]. rewrite (H x (or_introl eq_refl)). f_equal.
    apply IH. intros y Hy. apply H. right. exact Hy. }
  assert (Hsplit : ps <> [] ->
                   List.filter PurePath.keep_component
                     (Py.split_slash (Py.join_slash ps)) = ps).
  { intros Hne. rewrite split_join_slash;
      [| exact Hne | intros x Hx; apply (Hkept x Hx)].
    apply Hfilter. intros x Hx. apply (Hkept x Hx). }
  rewrite (path_eta (PurePath.of_string _)).
  rewrite parts_of_string.
  destruct ps as [| p ps].
  - destruct Hroot as [-> | [-> | ->]]; reflexivity.
  - specialize (Hsplit ltac:(discriminate)).
    destruct (Hkept p (or_introl eq_refl)) as (Hp1 & Hp2 & _).
    destruct (join_slash_relative p ps Hp1 Hp2) as [Hne Hrel].
    assert (Hcount : fst (Py.lstrip_slash (Py.join_slash (p :: ps))) = O).
    { destruct (Py.join_slash (p :: ps)) as [| c t]; [reflexivity |].
      cbn [Py.startswith] in Hrel. rewrite andb_true_r in Hrel.
      cbn [Py.lstrip_slash]. rewrite Ascii.eqb_sym, Hrel. reflexivity. }
    unfold PurePath.to_string. cbn [PurePath.root PurePath.parts].
    destruct Hroot as [-> | [-> | ->]].
    + change ("" +:+ Py.join_slash (p :: ps)) with (Py.join_slash (p :: ps)).
      rewrite Hsplit. f_equal.
      unfold PurePath.of_string, PurePath.splitroot.
      destruct (Py.lstrip_slash (Py.join_slash (p :: ps))) as [k rel].
      cbn [fst] in Hcount. subst k. reflexivity.
    + change ("/" +:+ Py.join_slash (p :: ps))
        with (String "/" (Py.join_slash (p :: ps))).
      cbn [Py.split_slash]. rewrite Ascii.eqb_refl.
      cbn [List.filter PurePath.keep_component String.eqb negb andb].
      rewrite Hsplit. f_equal.
      unfold PurePath.of_string, PurePath.splitroot.
      cbn [Py.lstrip_slash]. rewrite Ascii.eqb_refl.
      destruct (Py.lstrip_slash (Py.join_slash (p :: ps))) as [k rel].
      cbn [fst] in Hcount. subst k. reflexivity.
    + change ("//" +:+ Py.join_slash (p :: ps))
        with (String "/" (String "/" (Py.join_slash (p :: ps)))).
      cbn [Py.split_slash]. rewrite Ascii.eqb_refl.
      cbn [List.filter PurePath.keep_component String.eqb negb andb].
      rewrite Hsplit. f_equal.
      unfold PurePath.of_string, PurePath.splitroot.
      cbn [Py.lstrip_slash]. rewrite Ascii.eqb_refl.
      destruct (Py.lstrip_slash (Py.join_slash (p :: ps))) as [k rel].
      cbn [fst] in Hcount. subst k. reflexivity.
Qed.

(** What [stat] fails with does not depend on the spelling of a path. *)
Lemma fault_normalised (f : FS.t) (s : string) :
  FS.fault f (PurePath.to_string (PurePath.of_string s)) = FS.fault f s.
Proof. unfold FS.fault. rewrite of_string_normal. reflexivity. Qed.

Lemma stat_found (f : FS.t) (s : string) (n : FS.node) :
  FS.stat f s = Some n <-> FS.fault f s = None /\ FS.lookup f s = Some n.
Proof.
  unfold FS.stat, FS.os_stat.
  destruct (FS.fault f s); [split; [discriminate | intros [H _]; discriminate] |].
  destruct (FS.lookup f s); split.
  - intros H. inversion H. auto.
  - intros [_ H]. exact H.
  - discriminate.
  - intros [_ H]. discriminate.
Qed.

Lemma os_stat_found (f : FS.t) (s : string) (n : FS.node) :
  FS.stat f s = Some n <-> FS.os_stat f s = inr n.
Proof.
  unfold FS.stat. destruct (FS.os_stat f s); split; intros H;
    inversion H; reflexivity.
Qed.

(** What [stat] finds at a string it finds at the string of its [Path]. *)
Lemma stat_normalised (f : FS.t) (s : string) (n : FS.node) :
  FS.stat f s = Some n ->
  FS.stat f (PurePath.to_string (PurePath.of_string s)) = Some n.
Proof.
  rewrite !stat_found, fault_normalised. intros [Hfault Hlookup].
  split; [exact Hfault | apply lookup_normalised; exact Hlookup].
Qed.

Lemma exists_normalised (f : FS.t) (s : string) :
  FS.exists_ f s = true ->
  FS.stat f (PurePath.to_string (PurePath.of_string s)) = FS.stat f s.
Proof.
  unfold FS.exists_. destruct (FS.stat f s) as [n |] eqn:H; [| discriminate].
  intros _. apply stat_normalised. exact H.
Qed.

Lemma first_under_exists (f : FS.t) (relative_path : string)
      (bases : list string) (found : string) :
  first_under f relative_path bases = inr (Some found) ->
  FS.exists_ f found = true.
Proof.
  induction bases as [| base rest IH]; [discriminate |].
  cbn [first_under].
  destruct (Path_exists f _) as [e | [|]] eqn:H; [discriminate | | exact IH].
  intros E. inversion E. subst.
  apply (Path_exists_returns f _ true H).
Qed.

(** What resolution returns exists. *)
Lemma resolve_media_path_exists (self : ThumbnailGenerator) (f : FS.t)
      (media_content_id found : string) :
  _resolve_media_path self f media_content_id = inr (Some found) ->
  FS.exists_ f found = true.
Proof.
  unfold _resolve_media_path.
  destruct (Py.startswith media_content_id _).
  - destruct (Path_exists f _) as [e | [|]] eqn:H; [discriminate | |].
    + intros E. inversion E. subst.
      apply (Path_exists_returns f _ true H).
    + apply first_under_exists.
  - destruct (FS.exists_ f media_content_id) eqn:H; [| discriminate].
    intros E. inversion E. subst. exact H.
Qed.

(* ===================================================================== *)
(** ** Freshness and regeneration *)
(* ===================================================================== *)

Lemma isFresh_iff (f : FS.t) (cachePath sourcePath : string) :
  isFresh f cachePath sourcePath = true <->
  exists c s, FS.stat f cachePath = Some c /\ FS.stat f sourcePath = Some s
              /\ FS.st_mtime s <= FS.st_mtime c.
Proof.
  unfold isFresh. split.
  - destruct (FS.stat f cachePath) as [c |]; [| discriminate].
    destruct (FS.stat f sourcePath) as [s |]; [| discriminate].
    intros H. exists c, s. repeat split. apply Z.geb_le in H. exact H.
  - intros (c & s & -> & -> & H). apply Z.geb_le. exact H.
Qed.

Section Freshness.

Variable os : Host.
Variable self : ThumbnailGenerator.

(** The freshness test both methods make, for a source whose [stat]
    succeeds. *)
Lemma exists_empty (f : FS.t) : FS.exists_ f "" = false.
Proof.
  unfold FS.exists_, FS.stat, FS.os_stat.
  destruct (FS.fault f ""); reflexivity.
Qed.

(** The comparison of the modification times returns or raises, and
    changes nothing. *)
Lemma mtime_test_outcome (w : World) (present : bool)
      (thumb_path : PurePath.t) (source : string) :
  let test :=
    if present then
      thumb_mtime <-- path_st_mtime thumb_path ;;
      media_mtime <-- path_st_mtime (PurePath.of_string source) ;;
      ret (thumb_mtime >=? media_mtime)
    else ret false in
  (exists current, test w = Return current w)
  \/ (exists e, test w = Raise e w).
Proof.
  destruct present; cbv zeta; [| left; eexists; reflexivity].
  unfold bind, path_st_mtime.
  destruct (FS.os_stat (fs w) (PurePath.to_string thumb_path));
    [right; eexists; reflexivity |].
  destruct (FS.os_stat (fs w) _); [right | left]; eexists; reflexivity.
Qed.

Lemma freshness_test (w : World) (thumb_path : PurePath.t)
      (source : string) (src : FS.node) (present : bool)
      {A} (k : bool -> M A) :
  FS.stat (fs w) (PurePath.to_string (PurePath.of_string source)) = Some src ->
  Path_exists (fs w) thumb_path = inr present ->
  (thumb_exists <-- path_exists thumb_path ;;
   current <--
     (if thumb_exists then
        thumb_mtime <-- path_st_mtime thumb_path ;;
        media_mtime <-- path_st_mtime (PurePath.of_string source) ;;
        ret (thumb_mtime >=? media_mtime)
      else ret false) ;;
   k current) w
  = k (isFresh (fs w) (PurePath.to_string thumb_path)
               (PurePath.to_string (PurePath.of_string source))) w.
Proof.
  intros Hsrc Hpresent.
  apply os_stat_found in Hsrc.
  unfold bind at 1. unfold path_exists. rewrite Hpresent. unfold lift.
  unfold Path_exists in Hpresent.
  unfold isFresh, FS.stat. rewrite Hsrc.
  destruct (FS.os_stat (fs w) (PurePath.to_string thumb_path))
    as [[| what] | c] eqn:Hthumb; inversion Hpresent; subst present.
  - reflexivity.
  - unfold bind, path_st_mtime, ret. rewrite Hthumb, Hsrc. reflexivity.
Qed.

End Freshness.

(** C1 (as amended).  Where the freshness of the cache file is looked at
    and can be told, it decides as stated: in the single-item lookup once
    the memoized mapping gave no answer and the identifier resolved to a
    source, and in the bulk scan for each existing file with a recognized
    extension; in both provided that the cache path can be derived from
    the source path and that the existence test of the cache file does
    not fail with an error of the operating system.  A fresh cache file
    (it exists and is not older than the source) is returned,
    respectively counted as skipped, and nothing is rendered; otherwise
    the video or image render is called.  The lookup renders only a
    source with a recognized video or image extension: for any other it
    returns [None]. *)
Theorem freshness_decides_rendering
        (os : Host) (self : ThumbnailGenerator) (w : World) :
  (forall media_path actual_path thumb_path present,
      _resolve_media_path self (fs w) media_path = inr (Some actual_path) ->
      _get_thumbnail_path self actual_path = inr thumb_path ->
      Path_exists (fs w) thumb_path = inr present ->
      let thumb := PurePath.to_string thumb_path in
      let fresh := isFresh (fs w) thumb actual_path in
      let memoize := fun w0 =>
        with_cache (<[media_path := thumb]> (_cache w0)) w0 in
      let finish := fun success : bool =>
        if success then modify memoize ;;; ret (Some thumb) else ret None in
      (fresh = true ->
       get_thumbnail_resolved os self media_path w
       = Return (Some thumb) (memoize w))
      /\ (fresh = false -> _is_video actual_path = true ->
          get_thumbnail_resolved os self media_path w
          = bind (_generate_video_thumbnail os self actual_path thumb_path)
                 finish w)
      /\ (fresh = false -> _is_video actual_path = false ->
          _is_image actual_path = true ->
          get_thumbnail_resolved os self media_path w
          = bind (_generate_image_thumbnail os self actual_path thumb_path)
                 finish w)
      /\ (fresh = false -> _is_video actual_path = false ->
          _is_image actual_path = false ->
          exists w',
            get_thumbnail_resolved os self media_path w = Return None w'
            /\ spawned w' = spawned w))
  /\ (forall root filename stats thumb_path present,
         let file_path := OsPath.join root filename in
         recognized filename = true ->
         FS.exists_ (fs w) file_path = true ->
         _get_thumbnail_path self file_path = inr thumb_path ->
         Path_exists (fs w) thumb_path = inr present ->
         let fresh :=
           isFresh (fs w) (PurePath.to_string thumb_path) file_path in
         let counted := count_scanned stats in
         let finish := fun success : bool =>
           if success then ret (count_generated counted)
           else ret (count_failed counted) in
         (fresh = true ->
          scan_file os self root filename stats w
          = Return (count_skipped counted) w)
         /\ (fresh = false ->
             bool_decide (extension_of filename ∈ VIDEO_EXTENSIONS) = true ->
             scan_file os self root filename stats w
             = bind (_generate_video_thumbnail os self file_path thumb_path)
                    finish w)
         /\ (fresh = false ->
             bool_decide (extension_of filename ∈ VIDEO_EXTENSIONS) = false ->
             scan_file os self root filename stats w
             = bind (_generate_image_thumbnail os self file_path thumb_path)
                    finish w)).
Proof.
  split.
  - intros media_path actual_path thumb_path present Hres Hthumb Hpresent
           thumb fresh memoize finish.
    pose proof (resolve_media_path_exists _ _ _ _ Hres) as Hex.
    assert (Hne : String.eqb actual_path "" = false).
    { destruct actual_path; [rewrite exists_empty in Hex; discriminate Hex | reflexivity]. }
    destruct (FS.stat (fs w) actual_path) as [src |] eqn:Hst;
      [| unfold FS.exists_ in Hex; rewrite Hst in Hex; discriminate].
    pose proof (stat_normalised _ _ _ Hst) as Hsrc.
    assert (Hfresh :
      isFresh (fs w) thumb (PurePath.to_string (PurePath.of_string actual_path))
      = fresh).
    { unfold fresh, isFresh. rewrite Hsrc, Hst. reflexivity. }
    assert (Hstart :
      get_thumbnail_resolved os self media_path w
      = (if fresh then
           modify memoize ;;; ret (Some thumb)
         else
           generation <--
             (if _is_video actual_path then
                success <-- _generate_video_thumbnail os self actual_path thumb_path ;;
                ret (Some success)
              else if _is_image actual_path then
                success <-- _generate_image_thumbnail os self actual_path thumb_path ;;
                ret (Some success)
              else
                log DEBUG "Unsupported file type: %s" [actual_path] ;;;
                ret None) ;;
           match generation with
           | None => ret None
           | Some true => modify memoize ;;; ret (Some thumb)
           | Some false => ret None
           end) w).
    { unfold get_thumbnail_resolved.
      unfold bind at 1. rewrite Hres. unfold lift at 1. rewrite Hne.
      unfold bind at 1. unfold os_path_exists at 1, gets at 1. rewrite Hex.
      unfold bind at 1. rewrite Hthumb. unfold lift at 1.
      rewrite <- Hfresh.
      apply (freshness_test w thumb_path actual_path src present);
        assumption. }
    rewrite Hstart. clear Hstart.
    repeat split.
    + intros ->. reflexivity.
    + intros -> ->. unfold bind.
      destruct (_generate_video_thumbnail os self actual_path thumb_path w)
        as [[|] w' | e w']; reflexivity.
    + intros -> -> ->. unfold bind.
      destruct (_generate_image_thumbnail os self actual_path thumb_path w)
        as [[|] w' | e w']; reflexivity.
    + intros -> -> ->. eexists. split; reflexivity.
  - intros root filename stats thumb_path present file_path Hrec Hex
           Hthumb Hpresent fresh counted finish.
    destruct (FS.stat (fs w) file_path) as [src |] eqn:Hst;
      [| unfold FS.exists_ in Hex; rewrite Hst in Hex; discriminate].
    pose proof (stat_normalised _ _ _ Hst) as Hsrc.
    assert (Hfresh :
      isFresh (fs w) (PurePath.to_string thumb_path)
              (PurePath.to_string (PurePath.of_string file_path))
      = fresh).
    { unfold fresh, isFresh. rewrite Hsrc, Hst. reflexivity. }
    unfold recognized in Hrec. fold (extension_of filename).
    assert (Hstart :
      scan_file os self root filename stats w
      = (if fresh then ret (count_skipped counted)
         else
           success <--
             (if bool_decide (extension_of filename ∈ VIDEO_EXTENSIONS)
              then _generate_video_thumbnail os self file_path thumb_path
              else _generate_image_thumbnail os self file_path thumb_path) ;;
           if success then ret (count_generated counted)
           else ret (count_failed counted)) w).
    { unfold scan_file. fold (extension_of filename).
      replace (negb (bool_decide (extension_of filename ∈ VIDEO_EXTENSIONS))
               && negb (bool_decide (extension_of filename ∈ IMAGE_EXTENSIONS)))
        with false
        by (rewrite <- negb_orb, Hrec; reflexivity).
      cbv zeta. fold file_path.
      unfold bind at 1. rewrite Hthumb. unfold lift at 1.
      rewrite <- Hfresh.
      apply (freshness_test w thumb_path file_path src present);
        assumption. }
    rewrite Hstart. clear Hstart.
    repeat split.
    + intros ->. reflexivity.
    + intros -> ->. reflexivity.
    + intros -> ->. reflexivity.
Qed.

Lemma freshness_decides_rendering_witness :
  let thumb := "/media/.thumbnails/clip_83c80c7b.jpg" in
  let w := mk_world (cached_fs 100) (Some true) ∅ [] [] in
  get_thumbnail_resolved quiet_host default_generator "/media/clip.mp4" w
  = Return (Some thumb)
           (with_cache (<["/media/clip.mp4" := thumb]> (_cache w)) w).
Proof.
  intros thumb w.
  apply (proj1 (freshness_decides_rendering quiet_host default_generator w)
           "/media/clip.mp4" "/media/clip.mp4"
           (PurePath.of_string thumb) true).
  - reflexivity.
  - vm_compute. reflexivity.
  - reflexivity.
  - reflexivity.
Defined.

(** C1 (as stated) fails in the single-item lookup in two ways.  A video
    looked up once, with a fresh cache file, is memoized; after the video
    is touched the cache file is stale, and the next lookup returns it
    without rendering.  And for a source of an unsupported type without a
    cache file, the lookup returns [None] without rendering. *)
Lemma stale_cache_is_not_always_rendered :
  let thumb := "/media/.thumbnails/clip_83c80c7b.jpg" in
  let w0 := mk_world (cached_fs 100) (Some true) ∅ [] [] in
  let w1 := world_after (async_get_thumbnail quiet_host default_generator
                                             "/media/clip.mp4" w0) in
  let w2 := with_fs (cached_fs 300) w1 in
  (isFresh (fs w0) thumb "/media/clip.mp4" = true
   /\ isFresh (fs w2) thumb "/media/clip.mp4" = false
   /\ async_get_thumbnail quiet_host default_generator "/media/clip.mp4" w2
      = Return (Some thumb) w2
   /\ spawned w2 = [])
  /\ (isFresh (fs w0)
              (PurePath.to_string
                 (thumbnail_of default_generator "/media/notes.txt"))
              "/media/notes.txt" = false
      /\ FS.exists_ (fs w0) "/media/notes.txt" = true
      /\ exists w',
          async_get_thumbnail quiet_host default_generator "/media/notes.txt" w0
          = Return None w'
          /\ spawned w' = []).
Proof.
  split.
  - repeat split; vm_compute; reflexivity.
  - split; [vm_compute; reflexivity |]. split; [vm_compute; reflexivity |].
    eexists. split; vm_compute; reflexivity.
Qed.

(* ===================================================================== *)
(** ** Reasoning about sequencing and loops *)
(* ===================================================================== *)

Lemma bind_return {A B} (m : M A) (k : A -> M B) (w w' : World) (r : B) :
  bind m k w = Return r w' ->
  exists a w1, m w = Return a w1 /\ k a w1 = Return r w'.
Proof.
  unfold bind. destruct (m w) as [a w1 | e w1]; [| discriminate].
  intros H. exists a, w1. auto.
Qed.

Lemma ret_return {A} (a r : A) (w w' : World) :
  ret a w = Return r w' -> r = a /\ w' = w.
Proof. unfold ret. intros H. inversion H. auto. Qed.

Lemma lift_return {A} (r : exn + A) (a : A) (w w' : World) :
  lift r w = Return a w' -> r = inr a /\ w' = w.
Proof.
  unfold lift. destruct r as [e | x]; intros H; inversion H. auto.
Qed.


(** Split a hypothesis that a sequence returned into its steps. *)
Ltac returned :=
  repeat match goal with
         | H : lift _ _ = Return _ _ |- _ =>
             apply lift_return in H; destruct H as [? ?]; subst
         | H : bind _ _ _ = Return _ _ |- _ =>
             apply bind_return in H; destruct H as (? & ? & ? & H)
         | H : ret _ _ = Return _ _ |- _ =>
             apply ret_return in H; destruct H as [? ?]; subst
         | H : gets _ _ = Return _ _ |- _ =>
             unfold gets in H; inversion H; subst; clear H
         | H : Return _ _ = Return _ _ |- _ => inversion H; subst; clear H
         | H : Raise _ _ = Return _ _ |- _ => discriminate H
         end.

(** A relation between accumulators that every round of a loop respects,
    and that is reflexive and transitive, holds across the loop. *)
Lemma for_each_preserves {A S} (R : S -> S -> Prop)
      (l : list A) (body : A -> S -> M S) :
  (forall s, R s s) ->
  (forall s1 s2 s3, R s1 s2 -> R s2 s3 -> R s1 s3) ->
  (forall x s w s' w', body x s w = Return s' w' -> R s s') ->
  forall s w s' w', for_each l body s w = Return s' w' -> R s s'.
Proof.
  intros Hrefl Htrans Hbody.
  induction l as [| x rest IH]; intros s w s' w' H; simpl in H.
  - returned. apply Hrefl.
  - returned. eapply Htrans; [eapply Hbody | eapply IH]; eassumption.
Qed.

Lemma for_each_invariant {A S} (I : S -> Prop)
      (l : list A) (body : A -> S -> M S) :
  (forall x s w s' w', body x s w = Return s' w' -> I s -> I s') ->
  forall s w s' w', for_each l body s w = Return s' w' -> I s -> I s'.
Proof.
  intros Hbody.
  apply (for_each_preserves (fun s s' => I s -> I s')); auto.
Qed.

(** A quantity that every round of a loop increases by an amount that
    depends on the element only increases by the total of the amounts. *)
Lemma for_each_adds {A S} (measure : S -> Z) (amount : A -> Z)
      (l : list A) (body : A -> S -> M S) :
  (forall x s w s' w',
      body x s w = Return s' w' -> measure s' = measure s + amount x) ->
  forall s w s' w',
    for_each l body s w = Return s' w' ->
    measure s' = measure s + total (map amount l).
Proof.
  intros Hbody.
  induction l as [| x rest IH]; intros s w s' w' H; simpl in H.
  - returned. simpl. lia.
  - returned.
    match goal with
    | H1 : body x s w = Return _ _, H2 : for_each rest body _ _ = Return _ _
      |- _ => apply Hbody in H1; apply IH in H2
    end.
    simpl. lia.
Qed.

(** A loop whose every round returns its accumulator and changes nothing
    does the same. *)
Lemma for_each_idle {A S} (l : list A) (body : A -> S -> M S) :
  (forall x, In x l -> forall s w, body x s w = Return s w) ->
  forall s w, for_each l body s w = Return s w.
Proof.
  induction l as [| x rest IH]; intros Hbody s w; simpl; [reflexivity |].
  unfold bind. rewrite Hbody by (left; reflexivity).
  apply IH. intros y Hy. apply Hbody. right. exact Hy.
Qed.

(** A loop whose every round returns, in a world that satisfies [J] when
    it started in one, returns. *)
Lemma for_each_returns {A S} (J : World -> Prop)
      (l : list A) (body : A -> S -> M S) :
  (forall x s w, J w -> exists s' w', body x s w = Return s' w' /\ J w') ->
  forall s w, J w -> exists s' w', for_each l body s w = Return s' w' /\ J w'.
Proof.
  intros Hbody.
  induction l as [| x rest IH]; intros s w Hw; simpl.
  - exists s, w. auto.
  - destruct (Hbody x s w Hw) as (s1 & w1 & H1 & Hw1).
    unfold bind. rewrite H1. apply IH. exact Hw1.
Qed.

(* ===================================================================== *)
(** ** The statistics of a bulk scan *)
(* ===================================================================== *)

Section ScanCounts.

Variable os : Host.
Variable self : ThumbnailGenerator.

Lemma scan_file_unrecognized (root filename : string) (stats : Stats)
      (w : World) :
  recognized filename = false ->
  scan_file os self root filename stats w = Return stats w.
Proof.
  intros Hrec. unfold scan_file. fold (extension_of filename).
  unfold recognized in Hrec. rewrite <- negb_orb, Hrec. reflexivity.
Qed.

Lemma scan_file_recognized (root filename : string) (stats stats' : Stats)
      (w w' : World) :
  recognized filename = true ->
  scan_file os self root filename stats w = Return stats' w' ->
  counted_once stats stats'.
Proof.
  intros Hrec. unfold scan_file. fold (extension_of filename).
  unfold recognized in Hrec. rewrite <- negb_orb, Hrec. cbn [negb].
  intros H. returned.
  match goal with H : (if ?c then _ else _) _ = Return _ _ |- _ =>
    destruct c end.
  - returned. unfold counted_once; simpl. lia.
  - returned.
    match goal with H : (if ?c then _ else _) _ = Return _ _ |- _ =>
      destruct c end; returned; unfold counted_once; simpl; lia.
Qed.

Lemma scan_file_scanned (root filename : string) (stats stats' : Stats)
      (w w' : World) :
  scan_file os self root filename stats w = Return stats' w' ->
  scanned stats' = scanned stats + (if recognized filename then 1 else 0).
Proof.
  destruct (recognized filename) eqn:Hrec; intros H.
  - apply scan_file_recognized in H; [| exact Hrec]. destruct H. lia.
  - rewrite scan_file_unrecognized in H by exact Hrec. returned. lia.
Qed.

Lemma sum_recognized (files : list string) :
  total (map (fun f => if recognized f then 1 else 0) files)
  = media_files files.
Proof.
  unfold media_files. induction files as [| f rest IH]; [reflexivity |].
  cbn [map total fold_right List.filter].
  fold (total (map (fun f => if recognized f then 1 else 0) rest)).
  rewrite IH. destruct (recognized f); simpl length; lia.
Qed.

Lemma scan_directory_skipped (root : string) (dirs files : list string)
      (stats : Stats) (w : World) :
  Py.contains root (thumbnail_folder self) = true ->
  scan_directory os self (root, dirs, files) stats w = Return stats w.
Proof. intros H. unfold scan_directory. rewrite H. reflexivity. Qed.

Lemma scan_directory_scanned (entry : string * list string * list string)
      (stats stats' : Stats) (w w' : World) :
  scan_directory os self entry stats w = Return stats' w' ->
  scanned stats' = scanned stats
                   + (if Py.contains (fst (fst entry)) (thumbnail_folder self)
                      then 0 else media_files (snd entry)).
Proof.
  destruct entry as [[root dirs] files]. unfold scan_directory. simpl.
  destruct (Py.contains root (thumbnail_folder self)); intros H.
  - returned. lia.
  - rewrite <- sum_recognized.
    eapply (for_each_adds scanned) in H; [exact H |].
    intros. eapply scan_file_scanned. eassumption.
Qed.

(** What holds of the statistics across every directory holds across a
    walk. *)
Lemma scan_walk_preserves (R : Stats -> Stats -> Prop) :
  (forall s, R s s) ->
  (forall s1 s2 s3, R s1 s2 -> R s2 s3 -> R s1 s3) ->
  (forall entry s w s' w',
      scan_directory os self entry s w = Return s' w' -> R s s') ->
  forall depth top s w s' w',
    scan_walk os self depth top s w = Return s' w' -> R s s'.
Proof.
  intros Hrefl Htrans Hdir.
  induction depth as [| depth IH]; intros top s w s' w' H; cbn [scan_walk] in H.
  - returned. apply Hrefl.
  - returned.
    match goal with H : match ?l with _ => _ end _ = Return _ _ |- _ =>
      destruct l as [[dirs files] |] end.
    + returned.
      eapply Htrans; [eapply Hdir; eassumption |].
      eapply (for_each_preserves R); [exact Hrefl | exact Htrans | | eassumption].
      intros name s1 w1 s2 w2 Hsub. eapply IH. exact Hsub.
    + returned. apply Hrefl.
Qed.

(** A directory that can be listed is gone through, and then the
    sub-directories that the listing named. *)
Lemma scan_walk_listed (depth : nat) (top : string)
      (dirs files : list string) (stats : Stats) (w : World) :
  FS.listdir (fs w) top = Some (dirs, files) ->
  scan_walk os self (S depth) top stats w
  = bind (scan_directory os self (top, dirs, files) stats)
         (for_each dirs
                   (fun name =>
                      scan_walk os self depth (OsPath.join top name))) w.
Proof.
  intros Hlist. cbn [scan_walk]. unfold bind at 1, gets at 1.
  rewrite Hlist. reflexivity.
Qed.


Lemma scan_file_consistent (root filename : string) (stats stats' : Stats)
      (w w' : World) :
  scan_file os self root filename stats w = Return stats' w' ->
  consistent stats -> consistent stats'.
Proof.
  intros H. destruct (recognized filename) eqn:Hrec.
  - apply scan_file_recognized in H; [| exact Hrec].
    unfold counted_once, consistent in *. lia.
  - rewrite scan_file_unrecognized in H by exact Hrec. returned. auto.
Qed.

Lemma scan_directory_consistent (entry : string * list string * list string)
      (stats stats' : Stats) (w w' : World) :
  scan_directory os self entry stats w = Return stats' w' ->
  consistent stats -> consistent stats'.
Proof.
  destruct entry as [[root dirs] files]. unfold scan_directory.
  destruct (Py.contains root (thumbnail_folder self)); intros H.
  - returned. auto.
  - revert H. apply for_each_invariant.
    intros. eapply scan_file_consistent; eassumption.
Qed.

Lemma scan_base_path_consistent (base_path : string) (stats stats' : Stats)
      (w w' : World) :
  scan_base_path os self base_path stats w = Return stats' w' ->
  consistent stats -> consistent stats'.
Proof.
  unfold scan_base_path, os_path_exists. intros H. returned.
  destruct (FS.exists_ (fs _) base_path); cbn [negb] in H.
  - revert H.
    apply (scan_walk_preserves (fun s s' => consistent s -> consistent s'));
      [auto | auto |].
    intros. eapply scan_directory_consistent; eassumption.
  - unfold log in H. returned. unfold modify in *.
    match goal with H : Return _ _ = Return _ _ |- _ => inversion H end.
    auto.
Qed.

End ScanCounts.

(** C10.  The statistics a bulk scan returns satisfy
    [scanned = generated + skipped + failed], with no negative counter;
    each file the scan goes through either has no recognized extension and
    changes no counter, or is counted once: in [scanned] and in exactly
    one of [generated], [skipped] and [failed].  The counters start from
    zero at each invocation: with nothing to scan they are returned as
    zero, whatever the state of the generator. *)
Theorem scan_statistics_are_consistent
        (os : Host) (self : ThumbnailGenerator) :
  (forall path w stats w',
      async_generate_all_thumbnails os self path w = Return stats w' ->
      scanned stats = generated stats + skipped stats + failed stats
      /\ 0 <= generated stats /\ 0 <= skipped stats /\ 0 <= failed stats)
  /\ (forall root filename stats w stats' w',
         scan_file os self root filename stats w = Return stats' w' ->
         (recognized filename = false /\ stats' = stats)
         \/ (recognized filename = true /\ counted_once stats stats'))
  /\ (forall w,
         media_paths self = [] ->
         exists w',
           async_generate_all_thumbnails os self None w
           = Return (mk_stats 0 0 0 0) w').
Proof.
  split; [| split].
  - intros path w stats w' H.
    unfold async_generate_all_thumbnails in H. cbv zeta in H. returned.
    assert (Hbody : forall x s w s' w',
               scan_base_path os self x s w = Return s' w' ->
               consistent s -> consistent s')
      by (intros; eapply scan_base_path_consistent; eassumption).
    assert (Hinit : consistent (mk_stats 0 0 0 0))
      by (unfold consistent; simpl; lia).
    match goal with H : for_each _ _ _ _ = Return _ _ |- _ =>
      exact (for_each_invariant consistent _ _ Hbody _ _ _ _ H Hinit) end.
  - intros root filename stats w stats' w' H.
    destruct (recognized filename) eqn:Hrec.
    + right. split; [reflexivity |].
      eapply scan_file_recognized; eassumption.
    + left. rewrite scan_file_unrecognized in H by exact Hrec.
      returned. auto.
  - intros w Hnone. unfold async_generate_all_thumbnails. rewrite Hnone.
    eexists. reflexivity.
Qed.

Lemma scan_statistics_are_consistent_witness :
  let w := fresh_world one_video_fs in
  let outcome :=
    async_generate_all_thumbnails quiet_host default_generator None w in
  outcome = Return (mk_stats 1 1 0 0) (world_after outcome)
  /\ 1 = 1 + 0 + 0.
Proof.
  intros w outcome.
  assert (H : outcome = Return (mk_stats 1 1 0 0) (world_after outcome))
    by (vm_compute; reflexivity).
  split; [exact H |].
  exact (proj1 (proj1 (scan_statistics_are_consistent
                         quiet_host default_generator) None w _ _ H)).
Defined.

(* ===================================================================== *)
(** ** Extension filtering *)
(* ===================================================================== *)



Section Extensions.

Variable os : Host.
Variable self : ThumbnailGenerator.

(** A scan of one path that exists is the walk of that path. *)
Lemma generate_all_one_path (path : option string) (base_path : string)
      (w w' : World) (stats : Stats) :
  scanned_paths self path = [base_path] ->
  FS.exists_ (fs w) base_path = true ->
  async_generate_all_thumbnails os self path w = Return stats w' ->
  exists w1,
    scan_walk os self FS.walk_depth base_path (mk_stats 0 0 0 0) w
    = Return stats w1.
Proof.
  intros Hpaths Hex H.
  unfold async_generate_all_thumbnails in H. cbv zeta in H.
  fold (scanned_paths self path) in H. rewrite Hpaths in H.
  returned. cbn [for_each] in *. returned.
  match goal with H : scan_base_path _ _ _ _ _ = Return _ _ |- _ =>
    unfold scan_base_path, os_path_exists in H; returned;
    rewrite Hex in H; cbn [negb] in H end.
  eexists. eassumption.
Qed.

Lemma listdir_exists (f : FS.t) (top : string)
      (listing : list string * list string) :
  FS.listdir f top = Some listing -> FS.exists_ f top = true.
Proof.
  unfold FS.listdir, FS.exists_.
  destruct (FS.stat f top); [reflexivity | discriminate].
Qed.

End Extensions.



(** The walk lists a directory when it reaches it: the cache file that
    the render of [/media/b/clip.mp4] writes into [/media/zz], empty when
    the scan started, is found there and scanned as an image. *)
Example walk_lists_a_directory_when_it_reaches_it :
  let w := fresh_world (sibling_cache_fs []) in
  FS.walk (fs w) "/media"
  = [("/media", ["b"; "zz"], []); ("/media/b", [], ["clip.mp4"]);
     ("/media/zz", [], [])]
  /\ exists w',
      async_generate_all_thumbnails writing_host sibling_cache_generator
                                    None w
      = Return (mk_stats 2 2 0 0) w'.
Proof.
  split; [vm_compute; reflexivity |].
  eexists. vm_compute. reflexivity.
Qed.

Example extension_case_is_ignored :
  recognized "MOVIE.MP4" = true /\ recognized "Photo.JpEg" = true
  /\ recognized ".mp4" = false /\ recognized "movie.mp4.txt" = false.
Proof. vm_compute. auto. Qed.

(* ===================================================================== *)
(** ** Walks and the cache directory *)
(* ===================================================================== *)

Lemma join_ends_with_name (top name : string) :
  exists pre, OsPath.join top name = pre +:+ name.
Proof.
  unfold OsPath.join.
  destruct (Py.startswith name "/"); [exists ""; reflexivity |].
  destruct (String.eqb top "" || OsPath.endswith_slash top).
  - exists top. reflexivity.
  - exists (top +:+ "/"). symmetry. apply append_associative.
Qed.

Lemma join_extends (top name : string) :
  FS.listable name = true ->
  exists post, OsPath.join top name = top +:+ post.
Proof.
  unfold FS.listable, OsPath.join. intros H.
  apply andb_true_iff in H. destruct H as [_ H].
  apply negb_true_iff in H.
  assert (Hs : Py.startswith name "/" = false).
  { destruct name; [reflexivity |]. cbn [Py.contains] in H.
    apply orb_false_iff in H. tauto. }
  rewrite Hs.
  destruct (String.eqb top "" || OsPath.endswith_slash top); eexists;
    reflexivity.
Qed.

(** The directories a listing names can be listed. *)
Lemma listdir_dirs_listable (f : FS.t) (top : string)
      (dirs files : list string) :
  FS.listdir f top = Some (dirs, files) ->
  forall name, In name dirs -> FS.listable name = true.
Proof.
  unfold FS.listdir.
  destruct (FS.stat f top) as [[m | m es] |]; try discriminate.
  intros H name Hin. inversion H; subst. unfold FS.dirnames in Hin.
  apply in_map_iff in Hin. destruct Hin as (e & <- & He).
  apply filter_In in He. destruct He as [_ He].
  apply andb_true_iff in He. tauto.
Qed.

Section CacheDirectories.

Variable os : Host.
Variable self : ThumbnailGenerator.

(** Under a directory whose path contains the name of the cache
    directory, the walk passes over every directory it reaches. *)
Lemma scan_walk_skipped (depth : nat) :
  forall top stats w,
    Py.contains top (thumbnail_folder self) = true ->
    scan_walk os self depth top stats w = Return stats w.
Proof.
  induction depth as [| depth IH]; intros top stats w Htop; [reflexivity |].
  cbn [scan_walk]. unfold bind at 1, gets at 1.
  destruct (FS.listdir (fs w) top) as [[dirs files] |] eqn:Hlist;
    [| reflexivity].
  unfold bind. rewrite scan_directory_skipped by exact Htop.
  apply for_each_idle. intros name Hin stats0 w0. apply IH.
  destruct (join_extends top name
              (listdir_dirs_listable _ _ _ _ Hlist name Hin)) as [post ->].
  apply contains_app_l. exact Htop.
Qed.

End CacheDirectories.

(** C3 (as amended).  The scan skips every directory whose path string
    contains the name of the cache directory as a substring; a path that
    has the name as one of its components is such a path, and so are the
    paths of all the directories below it, so that a subtree under a cache
    directory is left alone: walking it changes neither the statistics
    nor anything else.  A scan, of the configured media paths or of a
    path given to it, that goes through one directory holding one video
    file and its cache directory, whatever the cache directory holds,
    and returns, reports [scanned = 1], provided the path of the scanned
    directory does not itself contain the name of the cache directory. *)
Theorem cache_directories_are_skipped
        (os : Host) (self : ThumbnailGenerator) :
  (forall root dirs files stats w,
      Py.contains root (thumbnail_folder self) = true ->
      scan_directory os self (root, dirs, files) stats w = Return stats w)
  /\ (forall root,
         In (thumbnail_folder self) (Py.split_slash root) ->
         Py.contains root (thumbnail_folder self) = true)
  /\ (forall depth top stats w,
         Py.contains top (thumbnail_folder self) = true ->
         scan_walk os self depth top stats w = Return stats w)
  /\ (forall path base_path w video stats w',
         scanned_paths self path = [base_path] ->
         FS.listdir (fs w) base_path
         = Some ([thumbnail_folder self], [video]) ->
         _is_video video = true ->
         Py.contains base_path (thumbnail_folder self) = false ->
         async_generate_all_thumbnails os self path w = Return stats w' ->
         scanned stats = 1).
Proof.
  split; [intros; apply scan_directory_skipped; assumption |].
  split; [intros; apply component_is_substring; assumption |].
  split; [intros; apply scan_walk_skipped; assumption |].
  intros path base_path w video stats w' Hpaths Hlist Hvideo Hbase H.
  destruct (generate_all_one_path os self _ _ _ _ _ Hpaths
              (listdir_exists _ _ _ Hlist) H) as (w1 & Hwalk).
  unfold FS.walk_depth in Hwalk.
  change 4096%nat with (S 4095) in Hwalk.
  rewrite (scan_walk_listed os self _ _ _ _ _ _ Hlist) in Hwalk.
  cbn [for_each] in Hwalk. returned.
  match goal with H : scan_walk _ _ _ _ _ _ = Return _ _ |- _ =>
    rewrite scan_walk_skipped in H;
      [| destruct (join_ends_with_name base_path (thumbnail_folder self))
           as [pre ->]; apply contains_app_r ];
    inversion H; subst; clear H end.
  match goal with H : scan_directory _ _ _ _ _ = Return _ _ |- _ =>
    apply scan_directory_scanned in H; cbn [fst snd] in H;
      rewrite Hbase in H; rewrite H end.
  unfold media_files. cbn [List.filter].
  unfold recognized, extension_of. unfold _is_video in Hvideo.
  rewrite Hvideo. reflexivity.
Qed.

Lemma cache_directories_are_skipped_witness :
  let w := fresh_world video_and_cache_fs in
  let outcome :=
    async_generate_all_thumbnails quiet_host default_generator None w in
  outcome = Return (mk_stats 1 0 1 0) (world_after outcome)
  /\ scanned (mk_stats 1 0 1 0) = 1.
Proof.
  intros w outcome.
  assert (H : outcome = Return (mk_stats 1 0 1 0) (world_after outcome))
    by (vm_compute; reflexivity).
  split; [exact H |].
  exact (proj2 (proj2 (proj2 (cache_directories_are_skipped
                                quiet_host default_generator)))
           None "/media" w "clip.mp4" _ _
           eq_refl eq_refl eq_refl eq_refl H).
Defined.

(** C3 (as stated) fails for a directory whose own path contains the name
    of the cache directory without having it as a component:
    [/media/old.thumbnails] holds one video and its cache directory, and
    the scan reports [scanned = 0]. *)
Lemma cache_name_inside_root_path_skips_the_video :
  let w := fresh_world old_thumbnails_fs in
  FS.listdir (fs w) "/media/old.thumbnails"
  = Some ([".thumbnails"], ["clip.mp4"])
  /\ FS.listdir (fs w) "/media/old.thumbnails/.thumbnails"
     = Some ([], ["clip_d6d83906.jpg"])
  /\ ~ In (thumbnail_folder default_generator)
          (Py.split_slash "/media/old.thumbnails")
  /\ exists w',
      async_generate_all_thumbnails quiet_host default_generator
                                    (Some "/media/old.thumbnails") w
      = Return (mk_stats 0 0 0 0) w'.
Proof.
  split; [vm_compute; reflexivity |].
  split; [vm_compute; reflexivity |].
  split.
  - vm_compute. intros [H | [H | [H | []]]]; discriminate H.
  - eexists. vm_compute. reflexivity.
Qed.

(* ===================================================================== *)
(** ** The cache path of a source *)
(* ===================================================================== *)

(** A file name without a slash that is neither empty nor a dot is a path
    of one component. *)
Lemma of_string_single (s : string) :
  has_slash s = false ->
  (2 <= String.length s)%nat ->
  PurePath.of_string s = PurePath.mk "" [s].
Proof.
  intros Hs Hlen. unfold PurePath.of_string, PurePath.splitroot.
  assert (Hstrip : Py.lstrip_slash s = (O, s)).
  { destruct s as [| c s]; [reflexivity |].
    cbn [has_slash] in Hs. apply orb_false_iff in Hs. destruct Hs as [Hc _].
    cbn [Py.lstrip_slash]. rewrite Hc. reflexivity. }
  rewrite Hstrip. unfold PurePath.components.
  rewrite (split_slash_whole s Hs). cbn [List.filter].
  assert (Hkeep : PurePath.keep_component s = true).
  { unfold PurePath.keep_component.
    destruct s as [| c [| d s]]; simpl in Hlen; try lia.
    cbn [String.eqb]. destruct (Ascii.eqb c "."); reflexivity. }
  rewrite Hkeep. reflexivity.
Qed.

Lemma name_has_no_slash (p : string) :
  has_slash (PurePath.name (PurePath.of_string p)) = false.
Proof.
  unfold PurePath.name, PurePath.of_string.
  destruct (PurePath.splitroot p) as [r rel]. cbn [PurePath.parts].
  unfold PurePath.components.
  assert (H : forall l, (forall x, In x l -> has_slash x = false) ->
                        has_slash (List.last l "") = false).
  { induction l as [| x [| y l] IH]; intros Hl.
    - reflexivity.
    - apply Hl. left. reflexivity.
    - apply IH. intros z Hz. apply Hl. right. exact Hz. }
  apply H. intros x Hx. apply filter_In in Hx. destruct Hx as [Hx _].
  eapply split_slash_pieces. exact Hx.
Qed.

Lemma stem_has_no_slash (p : string) :
  has_slash (PurePath.stem (PurePath.of_string p)) = false.
Proof.
  unfold PurePath.stem.
  destruct (PurePath.suffix_start _).
  - apply has_slash_take. apply name_has_no_slash.
  - apply name_has_no_slash.
Qed.

Lemma name_is_stem_and_suffix (p : PurePath.t) :
  PurePath.name p = PurePath.stem p +:+ PurePath.suffix p.
Proof.
  unfold PurePath.stem, PurePath.suffix.
  destruct (PurePath.suffix_start (PurePath.name p)).
  - symmetry. apply take_drop.
  - symmetry. apply append_empty_r.
Qed.

Lemma hex_digit_is_hex (n : Z) :
  0 <= n < 16 -> In (MD5.hex_digit n) hex_digits.
Proof.
  intros Hn.
  assert (H : In n (map Z.of_nat (seq 0 16))).
  { apply in_map_iff. exists (Z.to_nat n). split; [lia |].
    apply in_seq. lia. }
  cbn [seq map] in H.
  repeat (destruct H as [<- | H]; [vm_compute; tauto |]).
  destruct H.
Qed.

Lemma hex_is_hex (bs : list Z) (c : ascii) :
  In c (list_ascii_of_string (MD5.hex bs)) -> In c hex_digits.
Proof.
  induction bs as [| b bs IH]; [intros [] |].
  cbn [MD5.hex list_ascii_of_string]. intros [<- | [<- | H]].
  - apply hex_digit_is_hex. apply Z.mod_pos_bound. lia.
  - apply hex_digit_is_hex. apply Z.mod_pos_bound. lia.
  - apply IH. exact H.
Qed.

Lemma hex_length (bs : list Z) :
  String.length (MD5.hex bs) = (2 * length bs)%nat.
Proof.
  induction bs as [| b bs IH]; [reflexivity |].
  cbn [MD5.hex String.length length]. rewrite IH. lia.
Qed.

Lemma le_bytes_length (n : nat) (x : Z) : length (MD5.le_bytes n x) = n.
Proof.
  revert x. induction n as [| n IH]; intros x; [reflexivity |].
  cbn [MD5.le_bytes length]. rewrite IH. reflexivity.
Qed.

Lemma hexdigest_length (data : list Z) :
  String.length (MD5.hexdigest data) = 32%nat.
Proof.
  unfold MD5.hexdigest, MD5.digest. rewrite hex_length.
  cbv zeta. rewrite !length_app, !le_bytes_length. reflexivity.
Qed.

Lemma take_chars (n : nat) (s : string) (c : ascii) :
  In c (list_ascii_of_string (Py.take n s)) ->
  In c (list_ascii_of_string s).
Proof.
  revert s. induction n as [| n IH]; intros s; [intros [] |].
  destruct s as [| d s]; [intros [] |].
  cbn [Py.take list_ascii_of_string]. intros [<- | H].
  - left. reflexivity.
  - right. apply IH. exact H.
Qed.

Lemma no_slash_chars (s : string) :
  (forall c, In c (list_ascii_of_string s) -> c <> "/"%char) ->
  has_slash s = false.
Proof.
  induction s as [| d s IH]; intros H; [reflexivity |].
  cbn [has_slash]. apply orb_false_iff. split.
  - apply Ascii.eqb_neq. apply H. left. reflexivity.
  - apply IH. intros c Hc. apply H. right. exact Hc.
Qed.

Lemma digest_prefix_is_hex (data : list Z) (c : ascii) :
  In c (list_ascii_of_string (Py.take 8 (MD5.hexdigest data))) ->
  In c hex_digits.
Proof. intros H. apply take_chars in H. eapply hex_is_hex. exact H. Qed.

Lemma digest_prefix_has_no_slash (data : list Z) :
  has_slash (Py.take 8 (MD5.hexdigest data)) = false.
Proof.
  apply no_slash_chars. intros c Hc.
  apply digest_prefix_is_hex in Hc. intros ->.
  vm_compute in Hc. intuition discriminate.
Qed.

(** The cache path of a source whose path string can be encoded. *)
Lemma thumbnail_path_of_encoded (self : ThumbnailGenerator)
      (media_path : string) (encoded : list Z) :
  Py.encode media_path = Some encoded ->
  let media_file := PurePath.of_string media_path in
  let thumb_name :=
    PurePath.stem media_file +:+ "_" +:+ Py.take 8 (MD5.hexdigest encoded)
    +:+ ".jpg" in
  let thumb_dir :=
    PurePath.joinpath (PurePath.parent media_file) (thumbnail_folder self) in
  _get_thumbnail_path self media_path
  = inr (PurePath.mk (PurePath.root thumb_dir)
                     (PurePath.parts thumb_dir ++ [thumb_name])).
Proof.
  intros Henc media_file thumb_name thumb_dir.
  assert (Hsingle : PurePath.of_string thumb_name = PurePath.mk "" [thumb_name]).
  { apply of_string_single.
    - unfold thumb_name. rewrite !has_slash_app.
      unfold media_file. rewrite stem_has_no_slash.
      rewrite digest_prefix_has_no_slash. reflexivity.
    - unfold thumb_name.
      rewrite !string_length_app, string_length_take, hexdigest_length.
      simpl. lia. }
  unfold _get_thumbnail_path. rewrite Henc.
  fold media_file. fold thumb_name. fold thumb_dir.
  unfold PurePath.joinpath at 1. rewrite Hsingle. reflexivity.
Qed.

(** C2 (where the code departs from it).  A file whose name is not
    UTF-8, here [caf\xe9.mp4] in [/media], is listed by the walk, has a
    recognized extension and a path string that cannot be encoded; no
    cache path is derived for it: [_get_thumbnail_path] raises
    [UnicodeEncodeError], and so do the bulk scan that reaches the file
    and the single-item lookup of it. *)
Theorem thumbnail_path_raises_on_undecodable_name :
  let source := "/media/" +:+ latin1_name in
  let w := fresh_world latin1_fs in
  FS.listdir (fs w) "/media" = Some ([], [latin1_name])
  /\ recognized latin1_name = true
  /\ OsPath.join "/media" latin1_name = source
  /\ Py.encode source = None
  /\ _get_thumbnail_path default_generator source = inl UnicodeEncodeError
  /\ async_generate_all_thumbnails quiet_host default_generator None w
     = Raise UnicodeEncodeError w
  /\ async_get_thumbnail quiet_host default_generator source w
     = Raise UnicodeEncodeError w.
Proof. repeat split; vm_compute; reflexivity. Qed.

(** X25.  The cache path of a source whose path string can be encoded is
    a function of the source path and of the name of the cache directory
    alone: generators that agree on that name give the same path, and no
    state enters.  Its parent is the parent of the source joined with
    the name of the cache directory, and its file name is the stem of
    the source (its name less its suffix), ["_"], the first 8 characters
    of the hexadecimal MD5 digest of the encoded source path, and
    [".jpg"]; these 8 characters are hexadecimal digits.  For a source
    whose path string cannot be encoded, [UnicodeEncodeError] is raised
    instead. *)
Theorem thumbnail_path_is_derived_from_source
        (self : ThumbnailGenerator) (media_path : string) :
  let media_file := PurePath.of_string media_path in
  (forall encoded,
      Py.encode media_path = Some encoded ->
      let digest8 := Py.take 8 (MD5.hexdigest encoded) in
      exists thumb_path,
        _get_thumbnail_path self media_path = inr thumb_path
        /\ PurePath.parent thumb_path
           = PurePath.joinpath (PurePath.parent media_file)
                               (thumbnail_folder self)
        /\ PurePath.name thumb_path
           = PurePath.stem media_file +:+ "_" +:+ digest8 +:+ ".jpg"
        /\ String.length digest8 = 8%nat
        /\ (forall c, In c (list_ascii_of_string digest8) -> In c hex_digits)
        /\ (forall other,
               thumbnail_folder other = thumbnail_folder self ->
               _get_thumbnail_path other media_path = inr thumb_path))
  /\ PurePath.name media_file
     = PurePath.stem media_file +:+ PurePath.suffix media_file
  /\ (Py.encode media_path = None ->
      _get_thumbnail_path self media_path = inl UnicodeEncodeError).
Proof.
  intros media_file. split; [| split].
  - intros encoded Henc digest8.
    pose proof (thumbnail_path_of_encoded self media_path encoded Henc)
      as Hthumb.
    cbv zeta in Hthumb. fold media_file in Hthumb. fold digest8 in Hthumb.
    eexists. split; [exact Hthumb |].
    split; [| split; [| split; [| split]]].
    + unfold PurePath.parent at 1. cbn [PurePath.root PurePath.parts].
      rewrite removelast_last.
      destruct (PurePath.joinpath (PurePath.parent media_file)
                                  (thumbnail_folder self)).
      reflexivity.
    + unfold PurePath.name at 1. cbn [PurePath.parts]. apply last_last.
    + unfold digest8. rewrite string_length_take, hexdigest_length.
      reflexivity.
    + intros c. apply digest_prefix_is_hex.
    + intros other Hother.
      rewrite (thumbnail_path_of_encoded other media_path encoded Henc).
      cbv zeta. rewrite Hother. reflexivity.
  - apply name_is_stem_and_suffix.
  - intros Henc. unfold _get_thumbnail_path. rewrite Henc. reflexivity.
Qed.

Lemma thumbnail_path_is_derived_from_source_witness :
  Py.encode "/media/cam/clip.mp4" = Some (Py.bytes "/media/cam/clip.mp4")
  /\ exists thumb_path,
      _get_thumbnail_path default_generator "/media/cam/clip.mp4"
      = inr thumb_path
      /\ PurePath.parent thumb_path
         = PurePath.joinpath (PurePath.parent
                                (PurePath.of_string "/media/cam/clip.mp4"))
                             ".thumbnails"
      /\ PurePath.name thumb_path
         = PurePath.stem (PurePath.of_string "/media/cam/clip.mp4")
           +:+ "_"
           +:+ Py.take 8 (MD5.hexdigest (Py.bytes "/media/cam/clip.mp4"))
           +:+ ".jpg".
Proof.
  assert (H : Py.encode "/media/cam/clip.mp4"
              = Some (Py.bytes "/media/cam/clip.mp4"))
    by (vm_compute; reflexivity).
  split; [exact H |].
  destruct (proj1 (thumbnail_path_is_derived_from_source
                     default_generator "/media/cam/clip.mp4") _ H)
    as (thumb_path & Hpath & Hparent & Hname & _).
  exists thumb_path. split; [exact Hpath |].
  split; [exact Hparent | exact Hname].
Defined.

Example thumbnail_path_of_clip :
  option_map PurePath.to_string
    (match _get_thumbnail_path default_generator "/media/cam/clip.mp4" with
     | inr thumb_path => Some thumb_path
     | inl _ => None
     end)
  = Some "/media/cam/.thumbnails/clip_352b2d8a.jpg".
Proof. vm_compute. reflexivity. Qed.

(* ===================================================================== *)
(** ** The memoized mapping *)
(* ===================================================================== *)

Section CacheStable.

Variable os : Host.

Lemma cache_stable_ret {A} (a : A) : cache_stable (ret a).
Proof. intros w. reflexivity. Qed.

Lemma cache_stable_raise {A} (e : exn) : cache_stable (@raise A e).
Proof. intros w. reflexivity. Qed.

Lemma cache_stable_bind {A B} (m : M A) (k : A -> M B) :
  cache_stable m -> (forall a, cache_stable (k a)) -> cache_stable (bind m k).
Proof.
  intros Hm Hk w. unfold bind. specialize (Hm w).
  destruct (m w) as [a w' | e w']; simpl in *.
  - rewrite Hk. exact Hm.
  - exact Hm.
Qed.

Lemma cache_stable_try_except {A} (body : M A) (handler : exn -> M A) :
  cache_stable body -> (forall e, cache_stable (handler e)) ->
  cache_stable (try_except body handler).
Proof.
  intros Hm Hk w. unfold try_except. specialize (Hm w).
  destruct (body w) as [a w' | e w']; simpl in *.
  - exact Hm.
  - rewrite Hk. exact Hm.
Qed.

Lemma cache_stable_gets {A} (f : World -> A) : cache_stable (gets f).
Proof. intros w. reflexivity. Qed.

Lemma cache_stable_modify (f : World -> World) :
  (forall w, _cache (f w) = _cache w) -> cache_stable (modify f).
Proof. intros Hf w. simpl. apply Hf. Qed.

Lemma cache_stable_log (l : level) (msg : string) (args : list string) :
  cache_stable (log l msg args).
Proof. apply cache_stable_modify. reflexivity. Qed.

Lemma cache_stable_for_each {A S} (l : list A) (body : A -> S -> M S) :
  (forall x s, cache_stable (body x s)) ->
  forall s, cache_stable (for_each l body s).
Proof.
  intros Hbody. induction l as [| x rest IH]; intros s; simpl.
  - apply cache_stable_ret.
  - apply cache_stable_bind; [apply Hbody | exact IH].
Qed.

Lemma cache_stable_create_subprocess_exec (cmd : list string) :
  cache_stable (create_subprocess_exec os cmd).
Proof.
  intros w. unfold create_subprocess_exec.
  destruct (spawn os _ cmd (fs w)); reflexivity.
Qed.

Lemma cache_stable_wait (p : process) : cache_stable (wait p).
Proof. apply cache_stable_modify. reflexivity. Qed.

Lemma cache_stable_wait_for_communicate (p : process) (timeout : Q) :
  cache_stable (wait_for_communicate p timeout).
Proof.
  unfold wait_for_communicate.
  apply cache_stable_bind; [apply cache_stable_modify; reflexivity |].
  intros _. destruct (Qle_bool _ _);
    [apply cache_stable_ret | apply cache_stable_raise].
Qed.

Lemma cache_stable_mkdir (path : PurePath.t) : cache_stable (mkdir os path).
Proof.
  intros w. unfold mkdir.
  destruct (mkdir_parents os _ (fs w)); reflexivity.
Qed.

Lemma cache_stable_lift {A} (f : World -> exn + A) :
  cache_stable (fun w => lift (f w) w).
Proof. intros w. unfold lift. destruct (f w); reflexivity. Qed.

Lemma cache_stable_lift_pure {A} (r : exn + A) : cache_stable (lift r).
Proof. apply (cache_stable_lift (fun _ => r)). Qed.

Lemma cache_stable_path_exists (path : PurePath.t) :
  cache_stable (path_exists path).
Proof. apply (cache_stable_lift (fun w => Path_exists (fs w) path)). Qed.

Lemma cache_stable_path_st_mtime (path : PurePath.t) :
  cache_stable (path_st_mtime path).
Proof.
  intros w. unfold path_st_mtime. destruct (FS.os_stat (fs w) _); reflexivity.
Qed.

Lemma cache_stable_stderr_text (err : string) :
  cache_stable (stderr_text err).
Proof.
  unfold stderr_text. destruct (String.eqb err "");
    [apply cache_stable_ret |].
  destruct (Py.decode err); [apply cache_stable_ret | apply cache_stable_raise].
Qed.

End CacheStable.

Create HintDb cache_stable.

#[local] Hint Resolve cache_stable_ret cache_stable_raise cache_stable_gets
  cache_stable_log cache_stable_create_subprocess_exec cache_stable_wait
  cache_stable_wait_for_communicate cache_stable_mkdir
  cache_stable_path_st_mtime cache_stable_path_exists cache_stable_lift_pure
  cache_stable_stderr_text : cache_stable.

Ltac cache_stable_step :=
  match goal with
  | |- cache_stable (bind _ _) => apply cache_stable_bind; [| intros ?]
  | |- cache_stable (try_except _ _) =>
      apply cache_stable_try_except; [| intros ?]
  | |- cache_stable (for_each _ _ _) =>
      apply cache_stable_for_each; intros ? ?
  | |- cache_stable (modify _) => apply cache_stable_modify; reflexivity
  | |- cache_stable (os_path_exists _) => apply cache_stable_gets
  | |- cache_stable (path_exists _) => apply cache_stable_path_exists
  | |- cache_stable (lift _) => apply cache_stable_lift_pure
  | |- cache_stable (fun w => lift _ w) => apply cache_stable_lift
  | |- cache_stable (if ?c then _ else _) => destruct c
  | |- cache_stable (match ?x with _ => _ end) => destruct x
  | |- cache_stable (let _ := _ in _) => cbv zeta
  | |- cache_stable _ => solve [auto with cache_stable]
  end.

Section MemoizedMapping.

Variable os : Host.
Variable self : ThumbnailGenerator.

Lemma cache_stable_check_ffmpeg : cache_stable (async_check_ffmpeg os).
Proof. unfold async_check_ffmpeg. repeat cache_stable_step. Qed.

#[local] Hint Resolve cache_stable_check_ffmpeg : cache_stable.

Lemma cache_stable_generate_video (v : string) (t : PurePath.t) :
  cache_stable (_generate_video_thumbnail os self v t).
Proof. unfold _generate_video_thumbnail. repeat cache_stable_step. Qed.

Lemma cache_stable_generate_image (i : string) (t : PurePath.t) :
  cache_stable (_generate_image_thumbnail os self i t).
Proof. unfold _generate_image_thumbnail. repeat cache_stable_step. Qed.

#[local] Hint Resolve cache_stable_generate_video cache_stable_generate_image
  : cache_stable.

Lemma cache_stable_scan_file (root filename : string) (stats : Stats) :
  cache_stable (scan_file os self root filename stats).
Proof. unfold scan_file. repeat cache_stable_step. Qed.

Lemma cache_stable_scan_directory
      (entry : string * list string * list string) (stats : Stats) :
  cache_stable (scan_directory os self entry stats).
Proof.
  destruct entry as [[root dirs] files].
  unfold scan_directory. repeat cache_stable_step.
  apply cache_stable_scan_file.
Qed.

Lemma cache_stable_scan_walk (depth : nat) :
  forall top stats, cache_stable (scan_walk os self depth top stats).
Proof.
  induction depth as [| depth IH]; intros top stats; cbn [scan_walk].
  - apply cache_stable_ret.
  - apply cache_stable_bind; [apply cache_stable_gets |].
    intros [[dirs files] |]; [| apply cache_stable_ret].
    apply cache_stable_bind; [apply cache_stable_scan_directory |].
    intros stats1. apply cache_stable_for_each. intros name stats2.
    apply IH.
Qed.

Lemma cache_stable_generate_all (path : option string) :
  cache_stable (async_generate_all_thumbnails os self path).
Proof.
  unfold async_generate_all_thumbnails. cbv zeta.
  apply cache_stable_bind; [| intros ?; repeat cache_stable_step].
  apply cache_stable_for_each. intros base_path stats.
  unfold scan_base_path.
  apply cache_stable_bind; [apply cache_stable_gets |].
  intros there. destruct (negb there); [repeat cache_stable_step |].
  apply cache_stable_scan_walk.
Qed.

(** What the resolution path of a lookup does to the mapping: nothing, or
    it maps the identifier to the cache path of the source it resolved
    to, which is then what it returns. *)
Lemma get_thumbnail_resolved_memo (media_path : string) (w : World) :
  let o := get_thumbnail_resolved os self media_path w in
  (_cache (world_after o) = _cache w
   /\ forall p w', o <> Return (Some p) w')
  \/ exists actual_path thumb_path,
      _resolve_media_path self (fs w) media_path = inr (Some actual_path)
      /\ FS.exists_ (fs w) actual_path = true
      /\ _get_thumbnail_path self actual_path = inr thumb_path
      /\ let thumb := PurePath.to_string thumb_path in
         _cache (world_after o) = <[media_path := thumb]> (_cache w)
         /\ exists w', o = Return (Some thumb) w'.
Proof.
  intros o. pose proof (eq_refl : o = get_thumbnail_resolved os self media_path w)
    as Ho. clearbody o.
  unfold get_thumbnail_resolved in Ho.
  unfold bind at 1 in Ho.
  destruct (_resolve_media_path self (fs w) media_path)
    as [e | [actual_path |]] eqn:Hres; unfold lift at 1 in Ho.
  1, 3: left; subst o; split; [reflexivity | intros p w'; discriminate].
  unfold bind at 1 in Ho.
  assert (Hfound : (if String.eqb actual_path "" then ret false
                    else os_path_exists actual_path) w
                   = Return (negb (String.eqb actual_path "")
                             && FS.exists_ (fs w) actual_path) w).
  { destruct (String.eqb actual_path ""); reflexivity. }
  rewrite Hfound in Ho. clear Hfound.
  destruct (negb (String.eqb actual_path "") && FS.exists_ (fs w) actual_path)
    eqn:Hfound.
  2: { left. subst o. split; [reflexivity | intros p w'; discriminate]. }
  apply andb_prop in Hfound. destruct Hfound as [_ Hexists].
  unfold bind at 1 in Ho.
  destruct (_get_thumbnail_path self actual_path) as [e | thumb_path]
    eqn:Hthumb; unfold lift at 1 in Ho.
  1: left; subst o; split; [reflexivity | intros p w'; discriminate].
  set (thumb := PurePath.to_string thumb_path) in *.
  unfold bind at 1, path_exists in Ho.
  destruct (Path_exists (fs w) thumb_path) as [e | present];
    unfold lift at 1 in Ho.
  1: left; subst o; split; [reflexivity | intros p w'; discriminate].
  unfold bind at 1 in Ho.
  destruct (mtime_test_outcome w present thumb_path actual_path)
    as [[current Hcur] | [e Hcur]]; cbv zeta in Hcur; rewrite Hcur in Ho.
  2: { left. subst o. split; [reflexivity | intros p w'; discriminate]. }
  clear Hcur. destruct current.
  - right. exists actual_path, thumb_path. split; [reflexivity |].
    split; [exact Hexists |]. split; [exact Hthumb |]. subst o.
    split; [reflexivity |]. eexists. reflexivity.
  - unfold bind at 1 in Ho.
    destruct (_is_video actual_path).
    + pose proof (cache_stable_generate_video actual_path thumb_path w) as Hg.
      unfold bind at 1 in Ho.
      destruct (_generate_video_thumbnail os self actual_path thumb_path w)
        as [[|] w2 | e w2]; simpl in Hg; subst o.
      * right. exists actual_path, thumb_path. split; [reflexivity |].
        split; [exact Hexists |]. split; [exact Hthumb |].
        simpl. rewrite Hg. split; [reflexivity |]. eexists. reflexivity.
      * left. split; [exact Hg | intros p w'; discriminate].
      * left. split; [exact Hg | intros p w'; discriminate].
    + destruct (_is_image actual_path).
      * pose proof (cache_stable_generate_image actual_path thumb_path w) as Hg.
        unfold bind at 1 in Ho.
        destruct (_generate_image_thumbnail os self actual_path thumb_path w)
          as [[|] w2 | e w2]; simpl in Hg; subst o.
        -- right. exists actual_path, thumb_path. split; [reflexivity |].
           split; [exact Hexists |]. split; [exact Hthumb |].
           simpl. rewrite Hg. split; [reflexivity |]. eexists. reflexivity.
        -- left. split; [exact Hg | intros p w'; discriminate].
        -- left. split; [exact Hg | intros p w'; discriminate].
      * left. subst o. split; [reflexivity | intros p w'; discriminate].
Qed.

(** The same for the whole lookup: the mapping is left as it is, and then
    a returned path is the one already mapped; or the identifier is mapped
    to the cache path of the source it resolved to, which is returned. *)
Lemma async_get_thumbnail_memo (media_path : string) (w : World) :
  let o := async_get_thumbnail os self media_path w in
  (_cache (world_after o) = _cache w
   /\ forall p w', o = Return (Some p) w' -> _cache w !! media_path = Some p)
  \/ exists actual_path thumb_path,
      _resolve_media_path self (fs w) media_path = inr (Some actual_path)
      /\ FS.exists_ (fs w) actual_path = true
      /\ _get_thumbnail_path self actual_path = inr thumb_path
      /\ let thumb := PurePath.to_string thumb_path in
         _cache (world_after o) = <[media_path := thumb]> (_cache w)
         /\ exists w', o = Return (Some thumb) w'.
Proof.
  cbv zeta.
  assert (Hres : async_get_thumbnail os self media_path w
                 = get_thumbnail_resolved os self media_path w
                 \/ exists p, _cache w !! media_path = Some p
                    /\ async_get_thumbnail os self media_path w
                       = Return (Some p) w).
  { unfold async_get_thumbnail, bind, os_path_exists, gets.
    destruct (_cache w !! media_path) as [p |]; [| left; reflexivity].
    destruct (FS.exists_ (fs w) p); [right | left; reflexivity].
    exists p. split; reflexivity. }
  destruct Hres as [-> | (p & Hp & ->)].
  - destruct (get_thumbnail_resolved_memo media_path w) as [[Hc Hn] | H].
    + left. split; [exact Hc |]. intros p w' H. destruct (Hn p w' H).
    + right. exact H.
  - left. split; [reflexivity |]. intros q w' H. inversion H. subst. exact Hp.
Qed.

End MemoizedMapping.

(** X1.  A path returned by a lookup is memoized: when the lookup of an
    identifier returns a path, the mapping holds that path under the
    identifier afterwards, so that the next lookup can take the fast
    path. *)
Theorem returned_thumbnail_is_memoized
        (os : Host) (self : ThumbnailGenerator) (media_path : string)
        (w w' : World) (thumb : string) :
  async_get_thumbnail os self media_path w = Return (Some thumb) w' ->
  _cache w' !! media_path = Some thumb.
Proof.
  intros H.
  destruct (async_get_thumbnail_memo os self media_path w)
    as [[Hc Hp] | (actual_path & thumb_path & _ & _ & _ & Hc & w1 & Hw1)];
    rewrite H in *; simpl in Hc.
  - rewrite Hc. eapply Hp. reflexivity.
  - inversion Hw1. subst. rewrite Hc. apply lookup_insert_eq.
Qed.

Lemma returned_thumbnail_is_memoized_witness :
  exists w',
    async_get_thumbnail quiet_host default_generator "/media/clip.mp4"
                        (fresh_world one_video_fs)
    = Return (Some "/media/.thumbnails/clip_83c80c7b.jpg") w'
    /\ _cache w' !! "/media/clip.mp4"
       = Some "/media/.thumbnails/clip_83c80c7b.jpg".
Proof.
  eexists. split; [vm_compute; reflexivity |].
  apply (returned_thumbnail_is_memoized quiet_host default_generator
           "/media/clip.mp4" (fresh_world one_video_fs)).
  vm_compute. reflexivity.
Defined.

(** X2.  A lookup changes the memoized mapping at most at the identifier
    it was called with, whether it returns a path, returns nothing or
    raises: every other identifier keeps its entry, or stays without one. *)
Theorem lookup_changes_the_memo_only_at_its_identifier
        (os : Host) (self : ThumbnailGenerator)
        (media_path other : string) (w : World) :
  other <> media_path ->
  _cache (world_after (async_get_thumbnail os self media_path w)) !! other
  = _cache w !! other.
Proof.
  intros Hne.
  destruct (async_get_thumbnail_memo os self media_path w)
    as [[Hc _] | (actual_path & thumb_path & _ & _ & _ & Hc & _)];
    rewrite Hc.
  - reflexivity.
  - apply lookup_insert_ne. congruence.
Qed.

Lemma lookup_changes_the_memo_only_at_its_identifier_witness :
  _cache (world_after
            (async_get_thumbnail quiet_host default_generator
               "/media/clip.mp4"
               (mk_world one_video_fs None {["/media/old.mp4" := "/tmp/x.jpg"]}
                         [] [])))
    !! "/media/old.mp4"
  = ({["/media/old.mp4" := "/tmp/x.jpg"]} : gmap string string)
      !! "/media/old.mp4".
Proof.
  apply (lookup_changes_the_memo_only_at_its_identifier quiet_host
           default_generator "/media/clip.mp4" "/media/old.mp4").
  discriminate.
Defined.

(** X3.  The bulk scan, the probe and both renders never touch the
    memoized mapping, whatever their outcome: thumbnails the scan renders
    or finds fresh are not memoized, and entries of earlier lookups are
    left in place. *)
Theorem only_lookups_write_the_memo
        (os : Host) (self : ThumbnailGenerator) (w : World) :
  (forall path,
      _cache (world_after (async_generate_all_thumbnails os self path w))
      = _cache w)
  /\ _cache (world_after (async_check_ffmpeg os w)) = _cache w
  /\ (forall source thumb_path,
         _cache (world_after
                   (_generate_video_thumbnail os self source thumb_path w))
         = _cache w
         /\ _cache (world_after
                      (_generate_image_thumbnail os self source thumb_path w))
            = _cache w).
Proof.
  split; [| split; [| split]].
  - intros path. apply cache_stable_generate_all.
  - apply cache_stable_check_ffmpeg.
  - apply cache_stable_generate_video.
  - apply cache_stable_generate_image.
Qed.

Lemma run_operation_keeps_cache_paths
      (os : Host) (self : ThumbnailGenerator) (op : operation) (w : World) :
  memo_holds_cache_paths self w ->
  memo_holds_cache_paths self (world_after (run_operation os self op w)).
Proof.
  intros Hw.
  assert (Hstable : forall {A} (m : M A),
             cache_stable m ->
             memo_holds_cache_paths self (world_after ((m ;;; ret tt) w))).
  { intros A m Hm k v. pose proof (Hm w) as Hc. unfold bind.
    destruct (m w); simpl in *; rewrite Hc; apply Hw. }
  destruct op; simpl.
  - apply Hstable, cache_stable_check_ffmpeg.
  - intros k v.
    destruct (async_get_thumbnail_memo os self media_path w)
      as [[Hc _] | (actual_path & thumb_path & _ & _ & Hthumb & Hc & _)].
    + unfold bind.
      destruct (async_get_thumbnail os self media_path w); simpl in *;
        rewrite Hc; apply Hw.
    + assert (Hc' : _cache (world_after
                      ((async_get_thumbnail os self media_path ;;; ret tt) w))
                    = <[media_path := PurePath.to_string thumb_path]>
                        (_cache w)).
      { unfold bind.
        destruct (async_get_thumbnail os self media_path w); exact Hc. }
      rewrite Hc'. destruct (decide (k = media_path)) as [-> | Hne].
      * rewrite lookup_insert_eq. intros [= <-].
        exists actual_path, thumb_path. split; [exact Hthumb | reflexivity].
      * rewrite lookup_insert_ne by congruence. apply Hw.
  - apply Hstable, cache_stable_generate_all.
  - apply Hstable, cache_stable_generate_video.
  - apply Hstable, cache_stable_generate_image.
  - intros k v. unfold clear_cache, modify. simpl.
    rewrite lookup_empty. discriminate.
Qed.

(** X4.  The memoized mapping only ever holds cache paths: if every value
    of the mapping is the cache path of some source (as in a new
    generator, whose mapping is empty), this is still so after any
    sequence of operations of the generator, and every path a later lookup
    returns is the cache path of some source. *)
Theorem memo_only_holds_cache_paths
        (os : Host) (self : ThumbnailGenerator) (ops : list operation)
        (w : World) :
  memo_holds_cache_paths self w ->
  memo_holds_cache_paths self (run_operations os self ops w)
  /\ forall media_path thumb w',
      async_get_thumbnail os self media_path (run_operations os self ops w)
      = Return (Some thumb) w' ->
      exists actual_path thumb_path,
        _get_thumbnail_path self actual_path = inr thumb_path
        /\ thumb = PurePath.to_string thumb_path.
Proof.
  intros Hw.
  assert (Hops : memo_holds_cache_paths self (run_operations os self ops w)).
  { unfold run_operations. revert w Hw.
    induction ops as [| op rest IH]; intros w Hw; simpl; [exact Hw |].
    apply IH. apply run_operation_keeps_cache_paths. exact Hw. }
  split; [exact Hops |].
  intros media_path thumb w' H.
  destruct (async_get_thumbnail_memo os self media_path
              (run_operations os self ops w))
    as [[_ Hp] | (actual_path & thumb_path & _ & _ & Hthumb & _ & w1 & Hw1)].
  - eapply Hops. eapply Hp. exact H.
  - rewrite H in Hw1. inversion Hw1.
    exists actual_path, thumb_path. split; [exact Hthumb | reflexivity].
Qed.

Lemma memo_only_holds_cache_paths_witness :
  memo_holds_cache_paths default_generator
    (run_operations quiet_host default_generator
       [GetThumbnail "/media/clip.mp4"; GenerateAll None; ClearCache;
        GetThumbnail "/media/clip.mp4"]
       (fresh_world one_video_fs)).
Proof.
  apply (memo_only_holds_cache_paths quiet_host default_generator
           [GetThumbnail "/media/clip.mp4"; GenerateAll None; ClearCache;
            GetThumbnail "/media/clip.mp4"]
           (fresh_world one_video_fs)).
  intros k v. simpl. rewrite lookup_empty. discriminate.
Defined.

(** X24.  A lookup that succeeded repeats itself: when a lookup returned
    a path and the file is there, the next lookup of the same identifier
    returns the same path and changes nothing (no resolution, no
    freshness test, no subprocess); when the file is not there, as after
    a render that exited with code 0 without writing it, the next lookup
    goes through the resolution again. *)
Theorem repeated_lookup_is_stable
        (os : Host) (self : ThumbnailGenerator) (media_path : string)
        (w w' : World) (thumb : string) :
  async_get_thumbnail os self media_path w = Return (Some thumb) w' ->
  async_get_thumbnail os self media_path w'
  = if FS.exists_ (fs w') thumb then Return (Some thumb) w'
    else get_thumbnail_resolved os self media_path w'.
Proof.
  intros H.
  assert (Hmemo : _cache w' !! media_path = Some thumb).
  { destruct (async_get_thumbnail_memo os self media_path w)
      as [[Hc Hp] | (actual_path & thumb_path & _ & _ & _ & Hc & w1 & Hw1)];
      rewrite H in *; simpl in Hc.
    - rewrite Hc. eapply Hp. reflexivity.
    - inversion Hw1. subst. rewrite Hc. apply lookup_insert_eq. }
  unfold async_get_thumbnail, bind, os_path_exists, gets.
  rewrite Hmemo. destruct (FS.exists_ (fs w') thumb); reflexivity.
Qed.

Lemma repeated_lookup_is_stable_witness :
  exists w',
    async_get_thumbnail quiet_host default_generator "/media/clip.mp4"
                        (fresh_world (cached_fs 100))
    = Return (Some "/media/.thumbnails/clip_83c80c7b.jpg") w'
    /\ async_get_thumbnail quiet_host default_generator "/media/clip.mp4" w'
       = Return (Some "/media/.thumbnails/clip_83c80c7b.jpg") w'.
Proof.
  eexists. split; [vm_compute; reflexivity |].
  rewrite (repeated_lookup_is_stable quiet_host default_generator
             "/media/clip.mp4" (fresh_world (cached_fs 100)) _
             "/media/.thumbnails/clip_83c80c7b.jpg"
             ltac:(vm_compute; reflexivity)).
  vm_compute. reflexivity.
Defined.

(* ===================================================================== *)
(** ** Failures of the probe and of the cache directory *)
(* ===================================================================== *)

Section Keeps.

Variable I : World -> Prop.

Lemma keeps_ret {A} (a : A) : keeps I (ret a).
Proof. intros w Hw. exact Hw. Qed.

Lemma keeps_raise {A} (e : exn) : keeps I (@raise A e).
Proof. intros w Hw. exact Hw. Qed.

Lemma keeps_bind {A B} (m : M A) (k : A -> M B) :
  keeps I m -> (forall a, keeps I (k a)) -> keeps I (bind m k).
Proof.
  intros Hm Hk w Hw. unfold bind. specialize (Hm w Hw).
  destruct (m w) as [a w' | e w']; simpl in *.
  - apply Hk. exact Hm.
  - exact Hm.
Qed.

Lemma keeps_try_except {A} (body : M A) (handler : exn -> M A) :
  keeps I body -> (forall e, keeps I (handler e)) ->
  keeps I (try_except body handler).
Proof.
  intros Hm Hk w Hw. unfold try_except. specialize (Hm w Hw).
  destruct (body w) as [a w' | e w']; simpl in *.
  - exact Hm.
  - apply Hk. exact Hm.
Qed.

Lemma keeps_gets {A} (f : World -> A) : keeps I (gets f).
Proof. intros w Hw. exact Hw. Qed.

Lemma keeps_log (l : level) (msg : string) (args : list string) :
  log_blind I -> keeps I (log l msg args).
Proof. intros Hblind w Hw. simpl. apply Hblind. exact Hw. Qed.

Lemma keeps_lift {A} (f : World -> exn + A) :
  keeps I (fun w => lift (f w) w).
Proof. intros w Hw. unfold lift. destruct (f w); exact Hw. Qed.

Lemma keeps_lift_pure {A} (r : exn + A) : keeps I (lift r).
Proof. apply (keeps_lift (fun _ => r)). Qed.

Lemma keeps_path_exists (path : PurePath.t) : keeps I (path_exists path).
Proof. apply (keeps_lift (fun w => Path_exists (fs w) path)). Qed.

Lemma keeps_path_st_mtime (path : PurePath.t) : keeps I (path_st_mtime path).
Proof.
  intros w Hw. unfold path_st_mtime. destruct (FS.os_stat (fs w) _); exact Hw.
Qed.

Lemma keeps_for_each {A S} (l : list A) (body : A -> S -> M S) :
  (forall x s, In x l -> keeps I (body x s)) ->
  forall s, keeps I (for_each l body s).
Proof.
  induction l as [| x rest IH]; intros Hbody s; simpl.
  - apply keeps_ret.
  - apply keeps_bind; [apply Hbody; left; reflexivity |].
    apply IH. intros y s' Hy. apply Hbody. right. exact Hy.
Qed.

(** The freshness test of the lookup and of the scan. *)
Lemma keeps_freshness_test (thumb_path source : PurePath.t) {A}
      (k : bool -> M A) :
  (forall current, keeps I (k current)) ->
  keeps I (thumb_exists <-- path_exists thumb_path ;;
           current <--
             (if thumb_exists then
                thumb_mtime <-- path_st_mtime thumb_path ;;
                media_mtime <-- path_st_mtime source ;;
                ret (thumb_mtime >=? media_mtime)
              else ret false) ;;
           k current).
Proof.
  intros Hk. apply keeps_bind; [apply keeps_path_exists |].
  intros thumb_exists.
  apply keeps_bind; [| exact Hk].
  destruct thumb_exists; [| apply keeps_ret].
  apply keeps_bind; [apply keeps_path_st_mtime |]. intros ?.
  apply keeps_bind; [apply keeps_path_st_mtime |]. intros ?.
  apply keeps_ret.
Qed.

End Keeps.

(** A loop carries a property of the accumulator and the world together
    from its start to its return, when every round does. *)
Lemma for_each_joint {A S} (K : S -> World -> Prop)
      (l : list A) (body : A -> S -> M S) :
  (forall x s w s' w', body x s w = Return s' w' -> K s w -> K s' w') ->
  forall s w s' w', for_each l body s w = Return s' w' -> K s w -> K s' w'.
Proof.
  intros Hbody.
  induction l as [| x rest IH]; intros s w s' w' H HK; simpl in H.
  - returned. exact HK.
  - returned.
    match goal with
    | H1 : body x s w = Return _ _, H2 : for_each rest body _ _ = Return _ _
      |- _ => eapply IH; [exact H2 |]; eapply Hbody; [exact H1 | exact HK]
    end.
Qed.

Section RenderFailures.

Variable os : Host.
Variable self : ThumbnailGenerator.

(** A render that returns with the tool known to be there started
    exactly one subprocess. *)
Lemma render_with_tool (source : string) (thumb_path : PurePath.t)
      (w w' : World) (success : bool) :
  _ffmpeg_available w = Some true ->
  (_generate_video_thumbnail os self source thumb_path w = Return success w'
   -> _ffmpeg_available w' = Some true
      /\ spawned w'
         = (spawned w ++ [video_command os self source thumb_path])%list)
  /\ (_generate_image_thumbnail os self source thumb_path w = Return success w'
      -> _ffmpeg_available w' = Some true
         /\ spawned w'
            = (spawned w ++ [image_command self source thumb_path])%list).
Proof.
  intros Hflag.
  pose proof (check_ffmpeg_known os true w Hflag) as Hprobe.
  destruct (mkdir_parents os (PurePath.to_string (PurePath.parent thumb_path))
              (fs w)) as [e | f1] eqn:Hmk.
  - destruct (render_mkdir_failure os self source thumb_path w w e Hprobe Hmk)
      as [Hv Hi].
    rewrite Hv, Hi. split; discriminate.
  - destruct (render_after_probe os self source thumb_path w w true f1 Hprobe
                (fun _ => Hmk))
      as [(wv & Hv & Hsv & _) (wi & Hi & Hsi & _)].
    split; intros H.
    + pose proof (quiet_generate_video os self true source thumb_path w Hflag)
        as [Hq _].
      rewrite H in Hv, Hq. inversion Hv; subst. auto.
    + pose proof (quiet_generate_image os self true source thumb_path w Hflag)
        as [Hq _].
      rewrite H in Hi, Hq. inversion Hi; subst. auto.
Qed.

End RenderFailures.

(** X5.  An error of the probe other than a missing executable is not
    remembered: when starting [ffmpeg -version] fails with an error that
    is not FileNotFoundError, the probe raises that error and leaves the
    availability unknown, both renders raise it as well instead of
    returning false, and the next probe starts the tool again. *)
Theorem probe_error_is_raised_and_not_remembered
        (os : Host) (self : ThumbnailGenerator) (w : World) (e : exn) :
  _ffmpeg_available w = None ->
  spawn os (length (spawned w)) probe_command (fs w) = inl e ->
  e <> FileNotFoundError ->
  let w1 := with_spawned (spawned w ++ [probe_command])%list w in
  async_check_ffmpeg os w = Raise e w1
  /\ _ffmpeg_available w1 = None
  /\ (forall source thumb_path,
         _generate_video_thumbnail os self source thumb_path w = Raise e w1
         /\ _generate_image_thumbnail os self source thumb_path w = Raise e w1)
  /\ spawned (world_after (async_check_ffmpeg os w1))
     = (spawned w1 ++ [probe_command])%list.
Proof.
  intros Hflag Hspawn He w1.
  assert (Hprobe : async_check_ffmpeg os w = Raise e w1).
  { unfold async_check_ffmpeg, bind, gets, try_except, create_subprocess_exec.
    rewrite Hflag. fold probe_command. rewrite Hspawn.
    destruct e; (congruence || reflexivity). }
  split; [exact Hprobe |]. split; [exact Hflag |]. split.
  - intros source thumb_path.
    unfold _generate_video_thumbnail, _generate_image_thumbnail, bind.
    rewrite Hprobe. split; reflexivity.
  - unfold async_check_ffmpeg, bind, gets, try_except, create_subprocess_exec.
    replace (_ffmpeg_available w1) with (@None bool) by (symmetry; exact Hflag).
    fold probe_command.
    destruct (spawn os (length (spawned w1)) probe_command (fs w1)) as [e' | p].
    + destruct e'; reflexivity.
    + simpl. destruct (negb (returncode p =? 0)); reflexivity.
Qed.

Lemma probe_error_is_raised_and_not_remembered_witness :
  let os := mk_host (fun _ _ _ => inl (OSError "Permission denied"))
                    (fun _ f => inr f) (fun _ => "0.5") in
  let w := fresh_world one_video_fs in
  async_check_ffmpeg os w
  = Raise (OSError "Permission denied")
          (with_spawned (spawned w ++ [probe_command])%list w).
Proof.
  intros os w.
  apply (probe_error_is_raised_and_not_remembered os default_generator w
           (OSError "Permission denied"));
    [reflexivity | reflexivity | discriminate].
Defined.

(** X6.  A cache directory that cannot be created makes a render raise:
    the directory is created before the [try], so with the tool available
    an error of [mkdir] leaves both renders as that exception, not as the
    result false, and no render subprocess has been started. *)
Theorem mkdir_failure_escapes_the_render
        (os : Host) (self : ThumbnailGenerator)
        (source : string) (thumb_path : PurePath.t) (w w0 : World) (e : exn) :
  async_check_ffmpeg os w = Return true w0 ->
  mkdir_parents os (PurePath.to_string (PurePath.parent thumb_path)) (fs w0)
  = inl e ->
  _generate_video_thumbnail os self source thumb_path w = Raise e w0
  /\ _generate_image_thumbnail os self source thumb_path w = Raise e w0.
Proof. apply render_mkdir_failure. Qed.

Lemma mkdir_failure_escapes_the_render_witness :
  let os := mk_host (fun _ _ f => inr (mk_process 0 "" 1 f))
                    (fun _ _ => inl (OSError "Read-only file system"))
                    (fun _ => "0.5") in
  let w := mk_world one_video_fs (Some true) ∅ [] [] in
  _generate_video_thumbnail os default_generator "/media/clip.mp4"
    (thumbnail_of default_generator "/media/clip.mp4") w
  = Raise (OSError "Read-only file system") w.
Proof.
  intros os w.
  apply (mkdir_failure_escapes_the_render os default_generator
           "/media/clip.mp4"
           (thumbnail_of default_generator "/media/clip.mp4") w w
           (OSError "Read-only file system"));
    reflexivity.
Defined.

(** X7.  One such failure ends the bulk scan.  Let the first file that
    the scan reaches (the first file in the listing of the first path it
    scans, whose own path does not contain the name of the cache
    directory) have a recognized extension and a cache path whose file
    does not exist; let the probe return true, as it does when the tool
    is known to be available or is found; and let the cache directory not
    be creatable.  Then the whole scan raises the error of [mkdir]: no
    statistics are returned and no summary is logged. *)
Theorem mkdir_failure_aborts_the_scan
        (os : Host) (self : ThumbnailGenerator) (w w0 : World) (e : exn)
        (path : option string) (base_path filename : string)
        (others dirs files : list string) (thumb_path : PurePath.t) :
  scanned_paths self path = base_path :: others ->
  FS.listdir (fs w) base_path = Some (dirs, filename :: files) ->
  Py.contains base_path (thumbnail_folder self) = false ->
  recognized filename = true ->
  _get_thumbnail_path self (OsPath.join base_path filename) = inr thumb_path ->
  Path_exists (fs w) thumb_path = inr false ->
  async_check_ffmpeg os w = Return true w0 ->
  mkdir_parents os (PurePath.to_string (PurePath.parent thumb_path)) (fs w0)
  = inl e ->
  async_generate_all_thumbnails os self path w = Raise e w0.
Proof.
  intros Hpaths Hlist Hroot Hrec Hthumb Hnone Hprobe Hmk.
  destruct (render_mkdir_failure os self (OsPath.join base_path filename)
              thumb_path w w0 e Hprobe Hmk) as [Hv Hi].
  assert (Hfile : forall stats,
             scan_file os self base_path filename stats w = Raise e w0).
  { intros stats. unfold scan_file. fold (extension_of filename).
    unfold recognized in Hrec. rewrite <- negb_orb, Hrec. cbn [negb].
    cbv zeta. unfold bind at 1. rewrite Hthumb. unfold lift at 1.
    unfold bind at 1. unfold path_exists. rewrite Hnone. unfold lift at 1.
    unfold bind at 1. unfold ret at 1.
    unfold bind at 1.
    destruct (bool_decide (extension_of filename ∈ VIDEO_EXTENSIONS));
      [rewrite Hv | rewrite Hi]; reflexivity. }
  unfold async_generate_all_thumbnails. cbv zeta.
  fold (scanned_paths self path). rewrite Hpaths.
  unfold bind at 1. cbn [for_each]. unfold bind at 1.
  unfold scan_base_path. unfold bind at 1.
  unfold os_path_exists, gets.
  rewrite (listdir_exists _ _ _ Hlist). cbn [negb].
  change FS.walk_depth with (S 4095).
  rewrite (scan_walk_listed os self _ _ _ _ _ _ Hlist).
  unfold bind at 1. unfold scan_directory at 1. rewrite Hroot.
  cbn [for_each]. unfold bind at 1. rewrite Hfile. reflexivity.
Qed.

Lemma mkdir_failure_aborts_the_scan_witness :
  let os := mk_host (fun _ _ f => inr (mk_process 0 "" 1 f))
                    (fun _ _ => inl (OSError "Read-only file system"))
                    (fun _ => "0.5") in
  let w := mk_world one_video_fs (Some true) ∅ [] [] in
  async_generate_all_thumbnails os default_generator None w
  = Raise (OSError "Read-only file system") w.
Proof.
  intros os w.
  apply (mkdir_failure_aborts_the_scan os default_generator w w
           (OSError "Read-only file system") None "/media" "clip.mp4"
           [] [] [] (thumbnail_of default_generator "/media/clip.mp4"));
    [reflexivity | vm_compute; reflexivity | vm_compute; reflexivity
     | vm_compute; reflexivity | vm_compute; reflexivity
     | vm_compute; reflexivity | reflexivity | reflexivity].
Defined.

(* ===================================================================== *)
(** ** What a bulk scan starts, and when it starts nothing *)
(* ===================================================================== *)

(** A loop whose every round returns and carries a property of the
    accumulator and the world returns and carries it. *)
Lemma for_each_steps {A S} (K : S -> World -> Prop)
      (l : list A) (body : A -> S -> M S) :
  (forall x, In x l -> forall s w, K s w ->
     exists s' w', body x s w = Return s' w' /\ K s' w') ->
  forall s w, K s w ->
    exists s' w', for_each l body s w = Return s' w' /\ K s' w'.
Proof.
  induction l as [| x rest IH]; intros Hbody s w HK; simpl.
  - exists s, w. auto.
  - destruct (Hbody x (or_introl eq_refl) s w HK) as (s1 & w1 & H1 & HK1).
    unfold bind. rewrite H1. apply IH; [| exact HK1].
    intros y Hy. apply Hbody. right. exact Hy.
Qed.

(** The freshness test does not change the world. *)
Lemma freshness_test_returns (thumb_path source : PurePath.t) {A}
      (k : bool -> M A) (w w' : World) (r : A) :
  (thumb_exists <-- path_exists thumb_path ;;
   current <--
     (if thumb_exists then
        thumb_mtime <-- path_st_mtime thumb_path ;;
        media_mtime <-- path_st_mtime source ;;
        ret (thumb_mtime >=? media_mtime)
      else ret false) ;;
   k current) w = Return r w' ->
  exists current, k current w = Return r w'.
Proof.
  unfold path_exists, path_st_mtime, bind, ret.
  destruct (Path_exists (fs w) thumb_path) as [e | [|]];
    unfold lift; [discriminate | |].
  - destruct (FS.os_stat (fs w) (PurePath.to_string thumb_path));
      [discriminate |].
    destruct (FS.os_stat (fs w) (PurePath.to_string source));
      [discriminate |].
    intros H. eexists. exact H.
  - intros H. eexists. exact H.
Qed.

Section ScanAccounting.

Variable os : Host.
Variable self : ThumbnailGenerator.

Lemma render_without_tool (source : string) (thumb_path : PurePath.t)
      (w : World) :
  _ffmpeg_available w = Some false ->
  _generate_video_thumbnail os self source thumb_path w = Return false w
  /\ _generate_image_thumbnail os self source thumb_path w = Return false w.
Proof.
  intros Hflag. pose proof (check_ffmpeg_known os false w Hflag) as Hprobe.
  unfold _generate_video_thumbnail, _generate_image_thumbnail, bind.
  rewrite Hprobe. split; reflexivity.
Qed.

(** A file with a recognized extension whose scan returns had its cache
    path derived and its freshness decided. *)
Lemma scan_file_decided (root filename : string) (stats stats' : Stats)
      (w w' : World) :
  recognized filename = true ->
  scan_file os self root filename stats w = Return stats' w' ->
  let file_path := OsPath.join root filename in
  let counted := count_scanned stats in
  exists thumb_path current,
    _get_thumbnail_path self file_path = inr thumb_path
    /\ (if current : bool then ret (count_skipped counted)
        else
          success <--
            (if bool_decide (extension_of filename ∈ VIDEO_EXTENSIONS)
             then _generate_video_thumbnail os self file_path thumb_path
             else _generate_image_thumbnail os self file_path thumb_path) ;;
          if success then ret (count_generated counted)
          else ret (count_failed counted)) w
       = Return stats' w'.
Proof.
  intros Hrec H file_path counted.
  unfold scan_file in H. fold (extension_of filename) in H.
  unfold recognized in Hrec. rewrite <- negb_orb, Hrec in H. cbn [negb] in H.
  cbv zeta in H. fold file_path in H. fold counted in H.
  apply bind_return in H. destruct H as (thumb_path & w1 & Hl & H).
  apply lift_return in Hl. destruct Hl as [Hthumb ->].
  apply freshness_test_returns in H. destruct H as [current H].
  exists thumb_path, current. split; [exact Hthumb | exact H].
Qed.

(** With the tool known to be there, each file counted as generated or
    failed is one started subprocess. *)
Lemma scan_file_attempts (n0 : Z) (root filename : string)
      (stats stats' : Stats) (w w' : World) :
  scan_file os self root filename stats w = Return stats' w' ->
  _ffmpeg_available w = Some true
  /\ Z.of_nat (length (spawned w)) = n0 + generated stats + failed stats ->
  _ffmpeg_available w' = Some true
  /\ Z.of_nat (length (spawned w')) = n0 + generated stats' + failed stats'.
Proof.
  intros H [Hflag Hcount].
  destruct (recognized filename) eqn:Hrec.
  2: { rewrite scan_file_unrecognized in H by exact Hrec. returned. auto. }
  apply scan_file_decided in H; [| exact Hrec]. cbv zeta in H.
  destruct H as (thumb_path & [|] & _ & H).
  - returned. simpl. auto.
  - returned.
    match goal with
    | Hr : (if ?c then _ else _) w = Return ?b ?w1 |- _ =>
        assert (Hw1 : _ffmpeg_available w1 = Some true
                      /\ length (spawned w1) = S (length (spawned w)));
        [destruct c;
         [apply (proj1 (render_with_tool os self _ _ w w1 b Hflag)) in Hr
         | apply (proj2 (render_with_tool os self _ _ w w1 b Hflag)) in Hr];
         destruct Hr as [? Hs]; (split; [assumption |]);
         rewrite Hs, length_app; simpl; lia |]
    end.
    destruct Hw1 as [Hflag1 Hlen].
    match goal with
    | Hr : (if ?c then _ else _) _ = Return stats' w' |- _ =>
        destruct c; returned; (split; [assumption |]); simpl; lia
    end.
Qed.

(** With the tool known to be missing, a file is never counted as
    generated. *)
Lemma scan_file_without_tool (root filename : string)
      (stats stats' : Stats) (w w' : World) :
  scan_file os self root filename stats w = Return stats' w' ->
  _ffmpeg_available w = Some false /\ generated stats = 0 ->
  _ffmpeg_available w' = Some false /\ generated stats' = 0.
Proof.
  intros H [Hflag Hzero].
  destruct (recognized filename) eqn:Hrec.
  2: { rewrite scan_file_unrecognized in H by exact Hrec. returned. auto. }
  apply scan_file_decided in H; [| exact Hrec]. cbv zeta in H.
  destruct H as (thumb_path & [|] & _ & H).
  - returned. simpl. auto.
  - returned.
    match goal with
    | Hr : (if ?c then _ else _) w = Return ?b ?w1 |- _ =>
        assert (Hw1 : b = false /\ w1 = w);
        [destruct c;
         [rewrite (proj1 (render_without_tool _ _ w Hflag)) in Hr
         | rewrite (proj2 (render_without_tool _ _ w Hflag)) in Hr];
         inversion Hr; auto |]
    end.
    destruct Hw1 as [-> ->]. returned. simpl. auto.
Qed.

Lemma keeps_scan_file_without_tool (f : FS.t) (started : list (list string))
      (root filename : string) (stats : Stats) :
  keeps (idle_without_tool f started)
        (scan_file os self root filename stats).
Proof.
  unfold scan_file. cbv zeta.
  match goal with |- keeps _ (if ?c then _ else _) => destruct c end;
    [apply keeps_ret |].
  apply keeps_bind; [apply keeps_lift_pure |]. intros thumb_path.
  apply keeps_freshness_test. intros [|]; [apply keeps_ret |].
  apply keeps_bind.
  - intros w Hw. pose proof Hw as [Hflag _].
    destruct (bool_decide _);
      [rewrite (proj1 (render_without_tool _ _ w Hflag))
      | rewrite (proj2 (render_without_tool _ _ w Hflag))]; exact Hw.
  - intros [|]; apply keeps_ret.
Qed.

Lemma log_blind_idle_without_tool (f : FS.t) (started : list (list string)) :
  log_blind (idle_without_tool f started).
Proof. intros w records H. exact H. Qed.

(** What every file of a walk keeps, the walk keeps. *)
Lemma keeps_scan_walk (I : World -> Prop) :
  (forall root filename stats,
      keeps I (scan_file os self root filename stats)) ->
  forall depth top stats, keeps I (scan_walk os self depth top stats).
Proof.
  intros Hfile.
  induction depth as [| depth IH]; intros top stats; cbn [scan_walk].
  - apply keeps_ret.
  - apply keeps_bind; [apply keeps_gets |].
    intros [[dirs files] |]; [| apply keeps_ret].
    apply keeps_bind.
    + unfold scan_directory. destruct (Py.contains _ _); [apply keeps_ret |].
      apply keeps_for_each. intros filename stats2 _. apply Hfile.
    + intros stats1. apply keeps_for_each. intros name stats2 _. apply IH.
Qed.

Lemma keeps_generate_all_without_tool
      (f : FS.t) (started : list (list string)) (path : option string) :
  keeps (idle_without_tool f started)
        (async_generate_all_thumbnails os self path).
Proof.
  unfold async_generate_all_thumbnails. cbv zeta.
  apply keeps_bind.
  - apply keeps_for_each. intros base_path stats _.
    unfold scan_base_path.
    apply keeps_bind; [apply keeps_gets |]. intros [|]; cbn [negb].
    + apply keeps_scan_walk. apply keeps_scan_file_without_tool.
    + apply keeps_bind; [| intros ?; apply keeps_ret].
      apply keeps_log, log_blind_idle_without_tool.
  - intros stats. apply keeps_bind; [| intros ?; apply keeps_ret].
    apply keeps_log, log_blind_idle_without_tool.
Qed.

(** A property of the statistics and the world that every file carries
    is carried by a walk. *)
Lemma scan_walk_joint (K : Stats -> World -> Prop) :
  (forall root filename s w s' w',
      scan_file os self root filename s w = Return s' w' -> K s w -> K s' w') ->
  forall depth top s w s' w',
    scan_walk os self depth top s w = Return s' w' -> K s w -> K s' w'.
Proof.
  intros Hfile.
  induction depth as [| depth IH]; intros top s w s' w' H HK;
    cbn [scan_walk] in H.
  - returned. exact HK.
  - returned.
    match goal with H : match ?l with _ => _ end _ = Return _ _ |- _ =>
      destruct l as [[dirs files] |] end.
    2: { returned. exact HK. }
    returned.
    match goal with
    | Hd : scan_directory _ _ _ _ _ = Return ?s1 ?w1,
      Hf : for_each dirs _ _ _ = Return _ _ |- _ =>
        assert (HK1 : K s1 w1);
        [| refine (for_each_joint K _ _ _ _ _ _ _ Hf HK1);
           intros name; apply IH]
    end.
    match goal with Hd : scan_directory _ _ _ _ _ = Return _ _ |- _ =>
      unfold scan_directory in Hd;
      destruct (Py.contains top (thumbnail_folder self)) end.
    + returned. exact HK.
    + match goal with Hd : for_each files _ _ _ = Return _ _ |- _ =>
        refine (for_each_joint K _ _ _ _ _ _ _ Hd HK) end.
      intros filename. apply Hfile.
Qed.

(** A property of the statistics and the world that every file of a scan
    carries, and that does not look at the log, is carried by the scan. *)
Lemma generate_all_joint (K : Stats -> World -> Prop) (path : option string) :
  (forall s w records, K s w -> K s (with_logged records w)) ->
  (forall root filename s w s' w',
      scan_file os self root filename s w = Return s' w' -> K s w -> K s' w') ->
  forall w stats w',
    async_generate_all_thumbnails os self path w = Return stats w' ->
    K (mk_stats 0 0 0 0) w -> K stats w'.
Proof.
  intros Hlog Hfile w stats w' H HK.
  unfold async_generate_all_thumbnails in H. cbv zeta in H.
  returned.
  match goal with Hl : log _ _ _ _ = Return _ _ |- _ => inversion Hl; subst end.
  apply Hlog.
  match goal with
  | Hf : for_each _ (scan_base_path _ _) _ _ = Return _ _ |- _ =>
      refine (for_each_joint K _ _ _ _ _ _ _ Hf HK)
  end.
  intros base_path s1 w1 s2 w2 Hbase HK1.
  unfold scan_base_path, os_path_exists in Hbase. returned.
  match goal with
  | Hb : (if ?c then _ else _) _ = Return _ _ |- _ => destruct c
  end.
  - returned.
    match goal with Hl : log _ _ _ _ = Return _ _ |- _ => inversion Hl; subst end.
    apply Hlog. exact HK1.
  - eapply scan_walk_joint; eassumption.
Qed.

End ScanAccounting.

(** X8.  Every file a scan counts as generated or failed is one started
    subprocess: when the tool is known to be available, a scan that
    returns has started exactly generated + failed subprocesses, one per
    render attempt, and none for the files it skipped. *)
Theorem scan_starts_one_subprocess_per_attempt
        (os : Host) (self : ThumbnailGenerator) (path : option string)
        (w w' : World) (stats : Stats) :
  _ffmpeg_available w = Some true ->
  async_generate_all_thumbnails os self path w = Return stats w' ->
  Z.of_nat (length (spawned w'))
  = Z.of_nat (length (spawned w)) + generated stats + failed stats.
Proof.
  intros Hflag H.
  set (n0 := Z.of_nat (length (spawned w))).
  refine (proj2 (generate_all_joint os self
            (fun s w0 => _ffmpeg_available w0 = Some true
                         /\ Z.of_nat (length (spawned w0))
                            = n0 + generated s + failed s)
            path _ _ w stats w' H _)).
  - intros s w0 records HK. exact HK.
  - intros root filename s w0 s' w0'. apply scan_file_attempts.
  - split; [exact Hflag |]. simpl. lia.
Qed.

Lemma scan_starts_one_subprocess_per_attempt_witness :
  exists stats w',
    async_generate_all_thumbnails quiet_host default_generator None
      (mk_world empty_cache_fs (Some true) ∅ [] []) = Return stats w'
    /\ Z.of_nat (length (spawned w')) = 0 + generated stats + failed stats.
Proof.
  eexists. eexists. split; [vm_compute; reflexivity |].
  apply (scan_starts_one_subprocess_per_attempt quiet_host default_generator
           None (mk_world empty_cache_fs (Some true) ∅ [] []));
    [reflexivity | vm_compute; reflexivity].
Defined.

(** X9.  With the tool known to be missing a scan is an inventory only:
    whatever its outcome it starts no subprocess and leaves the file
    system and the availability flag as they are, and when it returns
    nothing is counted as generated, so every recognized file without a
    fresh cache file is counted as failed. *)
Theorem scan_without_tool_generates_nothing
        (os : Host) (self : ThumbnailGenerator) (path : option string)
        (w : World) :
  _ffmpeg_available w = Some false ->
  let o := async_generate_all_thumbnails os self path w in
  spawned (world_after o) = spawned w
  /\ fs (world_after o) = fs w
  /\ _ffmpeg_available (world_after o) = Some false
  /\ forall stats w',
      o = Return stats w' ->
      generated stats = 0 /\ failed stats = scanned stats - skipped stats.
Proof.
  intros Hflag o.
  pose proof (keeps_generate_all_without_tool os self (fs w) (spawned w) path w
                (conj Hflag (conj eq_refl eq_refl))) as (Hf & Hfs & Hsp).
  fold o in Hf, Hfs, Hsp.
  split; [exact Hsp |]. split; [exact Hfs |]. split; [exact Hf |].
  intros stats w' H.
  assert (HK : (_ffmpeg_available w' = Some false /\ generated stats = 0)
               /\ consistent stats).
  { refine (generate_all_joint os self
              (fun s w0 => (_ffmpeg_available w0 = Some false
                            /\ generated s = 0) /\ consistent s)
              path _ _ w stats w' H _).
    - intros s w0 records HK. exact HK.
    - intros root filename s w0 s' w0' Hfile [HK Hc]. split.
      + eapply scan_file_without_tool; eassumption.
      + eapply scan_file_consistent; eassumption.
    - split; [split; [exact Hflag | reflexivity] |].
      unfold consistent. simpl. lia. }
  destruct HK as [[_ Hzero] Hc]. unfold consistent in Hc. lia.
Qed.

Lemma scan_without_tool_generates_nothing_witness :
  spawned (world_after
             (async_generate_all_thumbnails bare_host default_generator None
                (mk_world one_video_fs (Some false) ∅ [] [])))
  = [].
Proof.
  apply (scan_without_tool_generates_nothing bare_host default_generator None
           (mk_world one_video_fs (Some false) ∅ [] [])).
  reflexivity.
Defined.

Section FreshTree.

Variable os : Host.
Variable self : ThumbnailGenerator.

Lemma scan_file_fresh (w : World) (root filename : string) (s : Stats)
      (w0 : World) :
  negb (recognized filename)
  || match _get_thumbnail_path self (OsPath.join root filename) with
     | inr thumb_path =>
         isFresh (fs w) (PurePath.to_string thumb_path)
                 (OsPath.join root filename)
     | inl _ => false
     end = true ->
  only_skipped w s w0 ->
  exists s' w0',
    scan_file os self root filename s w0 = Return s' w0'
    /\ only_skipped w s' w0'.
Proof.
  intros Hfresh HK.
  destruct (recognized filename) eqn:Hrec.
  2: { exists s, w0. split;
         [apply scan_file_unrecognized; exact Hrec | exact HK]. }
  cbn [negb orb] in Hfresh.
  destruct (_get_thumbnail_path self (OsPath.join root filename))
    as [e | thumb_path] eqn:Hthumb; [discriminate |].
  destruct HK as [(Hfs & Hsp & Hflag & Hcache) (Hg & Hf & Hs)].
  pose proof Hfresh as Hfresh0.
  apply isFresh_iff in Hfresh.
  destruct Hfresh as (c & src & Hc & Hsrc & Hle).
  pose proof (stat_normalised _ _ _ Hsrc) as Hnorm.
  assert (Hpresent : Path_exists (fs w0) thumb_path = inr true).
  { unfold Path_exists. rewrite Hfs.
    rewrite (proj1 (os_stat_found _ _ _) Hc). reflexivity. }
  exists (count_skipped (count_scanned s)), w0. split.
  - unfold scan_file. fold (extension_of filename).
    unfold recognized in Hrec. rewrite <- negb_orb, Hrec. cbn [negb].
    cbv zeta. unfold bind at 1. rewrite Hthumb. unfold lift at 1.
    rewrite <- Hfs in Hnorm.
    rewrite (freshness_test w0 _ _ src true _ Hnorm Hpresent).
    replace (isFresh (fs w0) _ _) with true; [reflexivity |].
    symmetry. unfold isFresh in *. rewrite Hnorm. rewrite Hfs, Hc.
    rewrite Hc, Hsrc in Hfresh0. exact Hfresh0.
  - unfold only_skipped. simpl. repeat split; auto; lia.
Qed.

Lemma all_fresh_app (f : FS.t)
      (l1 l2 : list (string * list string * list string)) :
  all_fresh self f (l1 ++ l2) = all_fresh self f l1 && all_fresh self f l2.
Proof. unfold all_fresh. apply forallb_app. Qed.

Lemma all_fresh_flat_map {A} (f : FS.t)
      (g : A -> list (string * list string * list string)) (l : list A) :
  all_fresh self f (flat_map g l) = true ->
  forall x, In x l -> all_fresh self f (g x) = true.
Proof.
  induction l as [| y rest IH]; intros H x Hx; [destruct Hx |].
  cbn [flat_map] in H. rewrite all_fresh_app in H.
  apply andb_true_iff in H. destruct H as [Hy Hrest].
  destruct Hx as [<- | Hx]; [exact Hy | apply IH; assumption].
Qed.

(** On a tree whose cache files are all fresh the walk goes through the
    directories as they were when it started: nothing changes under
    it. *)
Lemma scan_walk_fresh (w : World) (depth : nat) :
  forall top s w0,
    all_fresh self (fs w) (FS.walk_from depth (fs w) top) = true ->
    only_skipped w s w0 ->
    exists s' w0',
      scan_walk os self depth top s w0 = Return s' w0'
      /\ only_skipped w s' w0'.
Proof.
  induction depth as [| depth IH]; intros top s w0 Hall HK.
  - exists s, w0. split; [reflexivity | exact HK].
  - cbn [scan_walk FS.walk_from] in *.
    unfold bind at 1. unfold gets at 1.
    replace (fs w0) with (fs w) by (symmetry; apply HK).
    destruct (FS.listdir (fs w) top) as [[dirs files] |].
    2: { exists s, w0. split; [reflexivity | exact HK]. }
    change (all_fresh self (fs w)
              ([(top, dirs, files)]
               ++ flat_map (fun name =>
                              FS.walk_from depth (fs w) (OsPath.join top name))
                           dirs) = true) in Hall.
    rewrite all_fresh_app in Hall. apply andb_true_iff in Hall.
    destruct Hall as [Hentry Hsub].
    assert (Hdir : exists s1 w1,
               scan_directory os self (top, dirs, files) s w0 = Return s1 w1
               /\ only_skipped w s1 w1).
    { unfold all_fresh in Hentry. cbn [forallb] in Hentry.
      rewrite andb_true_r in Hentry. unfold scan_directory.
      destruct (Py.contains top (thumbnail_folder self)).
      - exists s, w0. split; [reflexivity | exact HK].
      - cbn [orb] in Hentry. rewrite forallb_forall in Hentry.
        apply for_each_steps; [| exact HK].
        intros filename Hfile s2 w2 HK2.
        apply scan_file_fresh; [exact (Hentry _ Hfile) | exact HK2]. }
    destruct Hdir as (s1 & w1 & Hdir & HK1).
    unfold bind. rewrite Hdir.
    apply for_each_steps; [| exact HK1].
    intros name Hname s2 w2 HK2.
    apply IH; [| exact HK2].
    exact (all_fresh_flat_map _ _ _ Hsub name Hname).
Qed.

Lemma scan_base_path_fresh (w : World) (base_path : string) (s : Stats)
      (w0 : World) :
  all_fresh self (fs w) (FS.walk (fs w) base_path) = true ->
  only_skipped w s w0 ->
  exists s' w0',
    scan_base_path os self base_path s w0 = Return s' w0'
    /\ only_skipped w s' w0'.
Proof.
  intros Hall HK. unfold scan_base_path, os_path_exists.
  unfold bind at 1. unfold gets at 1.
  destruct (FS.exists_ (fs w0) base_path); cbn [negb].
  - apply scan_walk_fresh; assumption.
  - eexists. eexists. split; [reflexivity |].
    destruct HK as [(Hfs & Hsp & Hflag & Hcache) Hstats].
    split; [| exact Hstats]. simpl. auto.
Qed.

End FreshTree.

(** X10.  A scan of a tree whose cache files are all fresh is idle: when
    every file the scan would process has a cache file that is not older
    than it, the scan returns, counts every recognized file as skipped
    and none as generated or failed, starts no subprocess (not even the
    probe) and leaves the file system, the availability flag and the
    memoized mapping as they are. *)
Theorem scan_of_a_fresh_tree_is_idle
        (os : Host) (self : ThumbnailGenerator) (path : option string)
        (w : World) :
  (forall base_path,
      In base_path (scanned_paths self path) ->
      all_fresh self (fs w) (FS.walk (fs w) base_path) = true) ->
  exists stats w',
    async_generate_all_thumbnails os self path w = Return stats w'
    /\ skipped stats = scanned stats
    /\ generated stats = 0 /\ failed stats = 0
    /\ spawned w' = spawned w /\ fs w' = fs w
    /\ _ffmpeg_available w' = _ffmpeg_available w /\ _cache w' = _cache w.
Proof.
  intros Hall.
  unfold async_generate_all_thumbnails. cbv zeta.
  fold (scanned_paths self path).
  destruct (for_each_steps
              (only_skipped w)
              (scanned_paths self path) (scan_base_path os self))
    with (s := mk_stats 0 0 0 0) (w := w)
    as (stats & w1 & H & (Hfs & Hsp & Hflag & Hcache) & Hg & Hf & Hs).
  - intros base_path Hbase s w0 HK.
    apply scan_base_path_fresh; [apply Hall; exact Hbase | exact HK].
  - repeat split; reflexivity.
  - unfold bind at 1. rewrite H.
    eexists. eexists. split; [reflexivity |]. simpl. auto 10.
Qed.

Lemma scan_of_a_fresh_tree_is_idle_witness :
  exists stats w',
    async_generate_all_thumbnails quiet_host default_generator None
      (fresh_world (cached_fs 100)) = Return stats w'
    /\ skipped stats = scanned stats
    /\ generated stats = 0 /\ failed stats = 0
    /\ spawned w' = [] /\ fs w' = cached_fs 100
    /\ _ffmpeg_available w' = None /\ _cache w' = ∅.
Proof.
  apply (scan_of_a_fresh_tree_is_idle quiet_host default_generator None
           (fresh_world (cached_fs 100))).
  intros base_path [<- | []]. vm_compute. reflexivity.
Defined.

(** X11.  Media paths that do not exist are reported, not raised: when
    none of the paths to scan exists, the scan returns statistics that are
    all zero and only adds to the log, one warning per path in order and
    then the summary. *)
Theorem scan_of_missing_paths_only_warns
        (os : Host) (self : ThumbnailGenerator) (path : option string)
        (w : World) :
  (forall base_path,
      In base_path (scanned_paths self path) ->
      FS.exists_ (fs w) base_path = false) ->
  async_generate_all_thumbnails os self path w
  = Return (mk_stats 0 0 0 0)
           (with_logged
              (logged w
               ++ map missing_path_warning (scanned_paths self path)
               ++ [empty_summary])%list
              w).
Proof.
  intros Hmissing.
  unfold async_generate_all_thumbnails. cbv zeta.
  fold (scanned_paths self path).
  assert (Hloop : forall paths w0,
             (forall base_path, In base_path paths ->
                                FS.exists_ (fs w0) base_path = false) ->
             for_each paths (scan_base_path os self) (mk_stats 0 0 0 0) w0
             = Return (mk_stats 0 0 0 0)
                 (with_logged
                    (logged w0 ++ map missing_path_warning paths)%list w0)).
  { induction paths as [| base_path rest IH]; intros w0 Hw0.
    - simpl. rewrite app_nil_r. destruct w0; reflexivity.
    - cbn [for_each]. unfold bind at 1.
      unfold scan_base_path at 1, os_path_exists.
      unfold bind at 1. unfold gets at 1.
      rewrite (Hw0 base_path (or_introl eq_refl)). cbn [negb].
      unfold bind at 1. unfold log, modify, ret.
      rewrite IH.
      + destruct w0; simpl. rewrite <- app_assoc. reflexivity.
      + intros p Hp. destruct w0; simpl in *. apply Hw0. right. exact Hp. }
  unfold bind at 1. rewrite (Hloop _ w Hmissing).
  unfold bind, log, modify, ret. destruct w; simpl.
  rewrite <- app_assoc. reflexivity.
Qed.

Lemma scan_of_missing_paths_only_warns_witness :
  async_generate_all_thumbnails quiet_host default_generator
    (Some "/recordings") (fresh_world one_video_fs)
  = Return (mk_stats 0 0 0 0)
           (with_logged
              [missing_path_warning "/recordings"; empty_summary]
              (fresh_world one_video_fs)).
Proof.
  apply (scan_of_missing_paths_only_warns quiet_host default_generator
           (Some "/recordings") (fresh_world one_video_fs)).
  intros base_path [<- | []]. vm_compute. reflexivity.
Defined.

(* ===================================================================== *)
(** ** Paths of scanned files and of cache files *)
(* ===================================================================== *)

Lemma split_slash_app_slash (a t : string) :
  Py.split_slash (a +:+ "/" +:+ t)
  = (Py.split_slash a ++ Py.split_slash t)%list.
Proof.
  induction a as [| c a IH]; [reflexivity |].
  change (String c a +:+ "/" +:+ t) with (String c (a +:+ "/" +:+ t)).
  cbn [Py.split_slash]. rewrite IH.
  destruct (Ascii.eqb c "/"); [reflexivity |].
  destruct (split_slash_first a) as (h & r & ->). reflexivity.
Qed.

Lemma endswith_slash_inv (a : string) :
  OsPath.endswith_slash a = true -> exists a', a = a' +:+ "/".
Proof.
  unfold OsPath.endswith_slash.
  induction a as [| c a IH]; [discriminate |].
  destruct a as [| d a].
  - cbn [list_ascii_of_string List.last]. intros H.
    exists "". destruct (Ascii.eqb_spec c "/") as [-> | Hne]; [reflexivity |].
    destruct c as [[] [] [] [] [] [] [] []]; try discriminate H.
    congruence.
  - intros H. destruct IH as [a' Ha']; [exact H |].
    exists (String c a'). rewrite Ha'. reflexivity.
Qed.

Lemma endswith_slash_cons (c d : ascii) (a : string) :
  OsPath.endswith_slash (String c (String d a))
  = OsPath.endswith_slash (String d a).
Proof. reflexivity. Qed.

Lemma startswith_slash_cons (c : ascii) (s : string) :
  Py.startswith (String c s) "/" = Ascii.eqb c "/".
Proof.
  cbn [Py.startswith]. rewrite andb_true_r. apply Ascii.eqb_sym.
Qed.

Lemma lstrip_count_app (a b : string) :
  Py.startswith b "/" = false ->
  fst (Py.lstrip_slash (a +:+ b)) = fst (Py.lstrip_slash a).
Proof.
  intros Hb. induction a as [| c a IH].
  - change ("" +:+ b) with b. destruct b as [| d b]; [reflexivity |].
    rewrite startswith_slash_cons in Hb. cbn [Py.lstrip_slash].
    rewrite Hb. reflexivity.
  - change (String c a +:+ b) with (String c (a +:+ b)).
    cbn [Py.lstrip_slash]. destruct (Ascii.eqb c "/"); [| reflexivity].
    destruct (Py.lstrip_slash (a +:+ b)), (Py.lstrip_slash a).
    cbn [fst] in *. congruence.
Qed.

Lemma lstrip_count_app_slash (a t : string) :
  a <> "" -> OsPath.endswith_slash a = false ->
  fst (Py.lstrip_slash (a +:+ "/" +:+ t)) = fst (Py.lstrip_slash a).
Proof.
  induction a as [| c a IH]; intros Hne Hend; [congruence |].
  change (String c a +:+ "/" +:+ t) with (String c (a +:+ "/" +:+ t)).
  cbn [Py.lstrip_slash]. destruct (Ascii.eqb c "/") eqn:Hc; [| reflexivity].
  destruct a as [| d a].
  - apply Ascii.eqb_eq in Hc. subst c. discriminate Hend.
  - rewrite endswith_slash_cons in Hend.
    specialize (IH ltac:(discriminate) Hend).
    destruct (Py.lstrip_slash (String d a +:+ "/" +:+ t)),
             (Py.lstrip_slash (String d a)).
    cbn [fst] in *. congruence.
Qed.

Lemma no_slash_start (s : string) :
  has_slash s = false -> Py.startswith s "/" = false.
Proof.
  destruct s as [| c s]; [reflexivity |].
  rewrite startswith_slash_cons. cbn [has_slash]. intros H.
  apply orb_false_iff in H. tauto.
Qed.

(** [Path(name)] for one component. *)
Lemma of_string_name (name : string) :
  has_slash name = false -> PurePath.keep_component name = true ->
  PurePath.of_string name = PurePath.mk "" [name].
Proof.
  intros Hs Hkeep. rewrite (path_eta (PurePath.of_string name)).
  rewrite parts_of_string, (split_slash_whole name Hs).
  cbn [List.filter]. rewrite Hkeep. f_equal.
  unfold PurePath.of_string, PurePath.splitroot.
  pose proof (no_slash_start name Hs) as Hstart.
  destruct (Py.lstrip_slash name) as [n rel] eqn:Hstrip.
  destruct n as [| n]; [reflexivity |].
  rewrite (lstrip_slash_positive name n) in Hstart;
    [discriminate | rewrite Hstrip; reflexivity].
Qed.

(** [os.path.join] and the [/] of pathlib agree on a file name. *)
Lemma join_is_joinpath (root filename : string) :
  has_slash filename = false -> PurePath.keep_component filename = true ->
  PurePath.of_string (OsPath.join root filename)
  = PurePath.joinpath (PurePath.of_string root) filename.
Proof.
  intros Hs Hkeep.
  pose proof (no_slash_start filename Hs) as Hstart.
  unfold PurePath.joinpath. rewrite (of_string_name filename Hs Hkeep).
  cbn [PurePath.root PurePath.parts String.eqb].
  rewrite (path_eta (PurePath.of_string (OsPath.join root filename))).
  assert (Hfile : List.filter PurePath.keep_component (Py.split_slash filename)
                  = [filename]).
  { rewrite (split_slash_whole filename Hs). cbn [List.filter].
    rewrite Hkeep. reflexivity. }
  unfold OsPath.join. rewrite Hstart.
  destruct (String.eqb_spec root "") as [-> | Hne]; cbn [orb].
  - change ("" +:+ filename) with filename.
    rewrite !parts_of_string, Hfile. f_equal.
    apply root_of_string. cbn [Py.lstrip_slash fst].
    destruct (Py.lstrip_slash filename) as [n rel] eqn:Hstrip.
    destruct n as [| n]; [reflexivity |].
    rewrite (lstrip_slash_positive filename n) in Hstart;
      [discriminate | rewrite Hstrip; reflexivity].
  - destruct (OsPath.endswith_slash root) eqn:Hend.
    + f_equal.
      * apply root_of_string. apply lstrip_count_app. exact Hstart.
      * destruct (endswith_slash_inv root Hend) as [a' ->].
        rewrite append_associative.
        rewrite !parts_of_string, split_slash_app_slash, List.filter_app, Hfile.
        change (a' +:+ "/") with (a' +:+ "/" +:+ "").
        rewrite split_slash_app_slash, List.filter_app.
        cbn [Py.split_slash List.filter PurePath.keep_component String.eqb
             negb andb].
        rewrite app_nil_r. reflexivity.
    + f_equal.
      * apply root_of_string. apply lstrip_count_app_slash; assumption.
      * rewrite !parts_of_string, split_slash_app_slash, List.filter_app, Hfile.
        reflexivity.
Qed.

Lemma name_of_joinpath (p : PurePath.t) (name : string) :
  has_slash name = false -> PurePath.keep_component name = true ->
  PurePath.name (PurePath.joinpath p name) = name
  /\ PurePath.parent (PurePath.joinpath p name) = p.
Proof.
  intros Hs Hkeep. unfold PurePath.joinpath.
  rewrite (of_string_name name Hs Hkeep).
  cbn [PurePath.root PurePath.parts String.eqb].
  unfold PurePath.name, PurePath.parent. cbn [PurePath.root PurePath.parts].
  rewrite last_last, removelast_last. split; [reflexivity |].
  destruct p; reflexivity.
Qed.

(** X12.  The scan and the lookup see a file alike.  For a file name as a
    directory lists it (not empty, not ["."], without a slash), the path
    [os.path.join(root, filename)] the scan builds is, as a [Path], the
    directory joined with the file name: its name, stem and suffix are
    those of the file name and its parent is the directory.  So the
    extension test of the scan (on the file name) and [_is_video] and
    [_is_image] of the lookup (on the full path) agree, and no path is
    both a video and an image. *)
Theorem scan_and_lookup_classify_alike
        (root filename : string) :
  has_slash filename = false ->
  PurePath.keep_component filename = true ->
  let file_path := OsPath.join root filename in
  let file := PurePath.of_string file_path in
  file = PurePath.joinpath (PurePath.of_string root) filename
  /\ PurePath.name file = filename
  /\ PurePath.parent file = PurePath.of_string root
  /\ PurePath.stem file = PurePath.stem (PurePath.of_string filename)
  /\ _is_video file_path
     = bool_decide (extension_of filename ∈ VIDEO_EXTENSIONS)
  /\ _is_image file_path
     = bool_decide (extension_of filename ∈ IMAGE_EXTENSIONS)
  /\ (_is_video file_path || _is_image file_path = recognized filename)
  /\ _is_video file_path && _is_image file_path = false.
Proof.
  intros Hs Hkeep file_path file.
  pose proof (join_is_joinpath root filename Hs Hkeep) as Hjoin.
  fold file_path in Hjoin. fold file in Hjoin.
  destruct (name_of_joinpath (PurePath.of_string root) filename Hs Hkeep)
    as [Hname Hparent].
  rewrite <- Hjoin in Hname, Hparent.
  assert (Hown : PurePath.name (PurePath.of_string filename) = filename).
  { rewrite (of_string_name filename Hs Hkeep). reflexivity. }
  assert (Hsuffix : PurePath.suffix file
                    = PurePath.suffix (PurePath.of_string filename)).
  { unfold PurePath.suffix. rewrite Hname, Hown. reflexivity. }
  assert (Hstem : PurePath.stem file
                  = PurePath.stem (PurePath.of_string filename)).
  { unfold PurePath.stem. rewrite Hname, Hown. reflexivity. }
  assert (Hvideo : _is_video file_path
                   = bool_decide (extension_of filename ∈ VIDEO_EXTENSIONS)).
  { unfold _is_video, extension_of. fold file. rewrite Hsuffix. reflexivity. }
  assert (Himage : _is_image file_path
                   = bool_decide (extension_of filename ∈ IMAGE_EXTENSIONS)).
  { unfold _is_image, extension_of. fold file. rewrite Hsuffix. reflexivity. }
  repeat split; try assumption.
  - rewrite Hvideo, Himage. reflexivity.
  - rewrite Hvideo, Himage.
    destruct (bool_decide (extension_of filename ∈ VIDEO_EXTENSIONS)) eqn:Hv;
      [| reflexivity].
    apply bool_decide_eq_true in Hv. cbn [andb].
    apply bool_decide_eq_false. intros Hi.
    unfold VIDEO_EXTENSIONS in Hv. unfold IMAGE_EXTENSIONS in Hi.
    repeat rewrite elem_of_union in Hv. repeat rewrite elem_of_singleton in Hv.
    repeat rewrite elem_of_union in Hi. repeat rewrite elem_of_singleton in Hi.
    intuition congruence.
Qed.

Lemma scan_and_lookup_classify_alike_witness :
  PurePath.of_string (OsPath.join "/media/cam/" "clip.MP4")
  = PurePath.joinpath (PurePath.of_string "/media/cam/") "clip.MP4".
Proof.
  apply (scan_and_lookup_classify_alike "/media/cam/" "clip.MP4");
    reflexivity.
Defined.

Lemma append_same_length_tail (a b x y : string) :
  a +:+ x = b +:+ y -> String.length x = String.length y ->
  a = b /\ x = y.
Proof.
  revert b. induction a as [| c a IH]; intros [| d b] H Hlen.
  - auto.
  - change ("" +:+ x) with x in H. subst x.
    rewrite (string_length_app (String d b) y) in Hlen.
    cbn [String.length] in Hlen. lia.
  - change ("" +:+ y) with y in H. subst y.
    rewrite (string_length_app (String c a) x) in Hlen.
    cbn [String.length] in Hlen. lia.
  - change (String c (a +:+ x) = String d (b +:+ y)) in H.
    inversion H; subst.
    destruct (IH b) as [-> ->]; auto.
Qed.

Lemma string_tail_eq (c d : ascii) (a b : string) :
  String c a = String d b -> a = b.
Proof. intros H. injection H. auto. Qed.

Lemma digest_prefix_length (data : list Z) :
  String.length (Py.take 8 (MD5.hexdigest data)) = 8%nat.
Proof. rewrite string_length_take, hexdigest_length. reflexivity. Qed.

Section CachePaths.

Variable self : ThumbnailGenerator.

(** The file name of a cache path is one component. *)
Lemma thumb_name_is_a_component (media_path : string) (encoded : list Z) :
  let thumb_name :=
    PurePath.stem (PurePath.of_string media_path) +:+ "_"
    +:+ Py.take 8 (MD5.hexdigest encoded) +:+ ".jpg" in
  has_slash thumb_name = false /\ PurePath.keep_component thumb_name = true.
Proof.
  cbv zeta. split.
  - rewrite !has_slash_app, stem_has_no_slash, digest_prefix_has_no_slash.
    reflexivity.
  - assert (Hlen : (2 <= String.length
                          (PurePath.stem (PurePath.of_string media_path)
                           +:+ "_" +:+ Py.take 8 (MD5.hexdigest encoded)
                           +:+ ".jpg"))%nat).
    { rewrite !string_length_app, digest_prefix_length. simpl. lia. }
    destruct (_ +:+ _) as [| c [| d s]]; simpl in Hlen; try lia.
    unfold PurePath.keep_component. cbn [String.eqb].
    destruct (Ascii.eqb c "."); reflexivity.
Qed.

(** A cache path is derived from a path string that could be encoded. *)
Lemma thumbnail_path_encoded (media_path : string) (thumb_path : PurePath.t) :
  _get_thumbnail_path self media_path = inr thumb_path ->
  exists encoded,
    Py.encode media_path = Some encoded
    /\ thumb_path
       = PurePath.joinpath
           (PurePath.joinpath (PurePath.parent (PurePath.of_string media_path))
                              (thumbnail_folder self))
           (PurePath.stem (PurePath.of_string media_path) +:+ "_"
            +:+ Py.take 8 (MD5.hexdigest encoded) +:+ ".jpg").
Proof.
  unfold _get_thumbnail_path.
  destruct (Py.encode media_path) as [encoded |]; [| discriminate].
  intros [= <-]. exists encoded. split; reflexivity.
Qed.

Lemma thumbnail_path_name_and_parent (media_path : string)
      (encoded : list Z) (thumb_path : PurePath.t) :
  Py.encode media_path = Some encoded ->
  _get_thumbnail_path self media_path = inr thumb_path ->
  PurePath.name thumb_path
  = PurePath.stem (PurePath.of_string media_path) +:+ "_"
    +:+ Py.take 8 (MD5.hexdigest encoded) +:+ ".jpg"
  /\ PurePath.parent thumb_path
     = PurePath.joinpath (PurePath.parent (PurePath.of_string media_path))
                         (thumbnail_folder self).
Proof.
  intros Henc Hthumb.
  destruct (thumb_name_is_a_component media_path encoded) as [Hs Hkeep].
  apply thumbnail_path_encoded in Hthumb.
  destruct Hthumb as (encoded' & Henc' & ->).
  rewrite Henc in Henc'. injection Henc' as <-.
  apply name_of_joinpath; assumption.
Qed.

Lemma join_slash_last (ps : list string) (x : string) :
  exists pre, Py.join_slash (ps ++ [x]) = pre +:+ x.
Proof.
  induction ps as [| p ps IH]; [exists ""; reflexivity |].
  destruct IH as [pre Hpre].
  destruct ps as [| q ps].
  - exists (p +:+ "/"). cbn [app Py.join_slash].
    symmetry. apply append_associative.
  - exists (p +:+ "/" +:+ pre).
    change (Py.join_slash ((p :: q :: ps) ++ [x]))
      with (p +:+ "/" +:+ Py.join_slash ((q :: ps) ++ [x])).
    rewrite Hpre, !append_associative.
    change ("/" +:+ pre +:+ x) with (String "/" (pre +:+ x)).
    change (("/" +:+ pre) +:+ x) with (String "/" (pre +:+ x)).
    reflexivity.
Qed.

End CachePaths.

(** X13.  When two sources share a cache file.  The cache paths of two
    source paths whose strings can be encoded are equal exactly when the
    sources have the same cache directory, the same stem and the same
    first 8 digits of the MD5 digest of their encoded path strings; a
    different digest prefix is enough to keep two files of one directory
    with the same stem (as [a.mp4] and [a.jpg]) apart. *)
Theorem cache_paths_collide_iff
        (self : ThumbnailGenerator) (source1 source2 : string)
        (encoded1 encoded2 : list Z) :
  Py.encode source1 = Some encoded1 ->
  Py.encode source2 = Some encoded2 ->
  let cache_dir source :=
    PurePath.joinpath (PurePath.parent (PurePath.of_string source))
                      (thumbnail_folder self) in
  let digest8 encoded := Py.take 8 (MD5.hexdigest encoded) in
  _get_thumbnail_path self source1 = _get_thumbnail_path self source2
  <-> cache_dir source1 = cache_dir source2
      /\ PurePath.stem (PurePath.of_string source1)
         = PurePath.stem (PurePath.of_string source2)
      /\ digest8 encoded1 = digest8 encoded2.
Proof.
  intros Henc1 Henc2. cbv zeta. split.
  - intros H.
    destruct (_get_thumbnail_path self source1) as [e | thumb_path] eqn:H1.
    { unfold _get_thumbnail_path in H1. rewrite Henc1 in H1. discriminate. }
    symmetry in H.
    destruct (thumbnail_path_name_and_parent self source1 _ _ Henc1 H1)
      as [Hn1 Hp1].
    destruct (thumbnail_path_name_and_parent self source2 _ _ Henc2 H)
      as [Hn2 Hp2].
    rewrite Hn2 in Hn1. rewrite Hp2 in Hp1.
    split; [symmetry; exact Hp1 |].
    apply append_same_length_tail in Hn1.
    + destruct Hn1 as [Hstem Htail]. split; [symmetry; exact Hstem |].
      pose proof (string_tail_eq "_"%char "_"%char
                    (Py.take 8 (MD5.hexdigest encoded2) +:+ ".jpg")
                    (Py.take 8 (MD5.hexdigest encoded1) +:+ ".jpg") Htail)
        as Hd.
      apply append_same_length_tail in Hd; [symmetry; apply Hd | reflexivity].
    + change ("_" +:+ ?x) with (String "_" x). cbn [String.length].
      rewrite !string_length_app, !digest_prefix_length. reflexivity.
  - intros (Hdir & Hstem & Hdigest).
    unfold _get_thumbnail_path. rewrite Henc1, Henc2.
    cbv zeta. rewrite Hdir, Hstem, Hdigest.
    reflexivity.
Qed.

Lemma cache_paths_collide_iff_witness :
  _get_thumbnail_path default_generator "/media/a.mp4"
  <> _get_thumbnail_path default_generator "/media/a.jpg".
Proof.
  intros H.
  apply (cache_paths_collide_iff default_generator
           "/media/a.mp4" "/media/a.jpg"
           (Py.bytes "/media/a.mp4") (Py.bytes "/media/a.jpg")) in H;
    [| vm_compute; reflexivity | vm_compute; reflexivity].
  destruct H as (_ & _ & H). vm_compute in H. discriminate H.
Defined.

Example same_stem_different_cache_files :
  _get_thumbnail_path default_generator "/media/a.mp4"
  <> _get_thumbnail_path default_generator "/media/a.jpg"
  /\ _get_thumbnail_path default_generator "/media/a.mp4"
     <> _get_thumbnail_path default_generator "/media//a.mp4".
Proof. split; vm_compute; discriminate. Qed.

(** X14.  Cache files live in directories the guard of the scan looks
    for: for a cache-directory name that is one path component (not
    empty, not ["."], without a slash), the directory of every cache path
    has that name as its last component, so the path string of the
    directory, and of the cache file, contains the name. *)
Theorem cache_directory_path_contains_its_name
        (self : ThumbnailGenerator) (source : string)
        (thumb_path : PurePath.t) :
  has_slash (thumbnail_folder self) = false ->
  PurePath.keep_component (thumbnail_folder self) = true ->
  _get_thumbnail_path self source = inr thumb_path ->
  PurePath.name (PurePath.parent thumb_path) = thumbnail_folder self
  /\ Py.contains (PurePath.to_string (PurePath.parent thumb_path))
                 (thumbnail_folder self) = true
  /\ Py.contains (PurePath.to_string thumb_path) (thumbnail_folder self)
     = true.
Proof.
  intros Hs Hkeep Hthumb.
  destruct (thumbnail_path_encoded self source thumb_path Hthumb)
    as (encoded & Henc & Hpath).
  destruct (thumbnail_path_name_and_parent self source _ _ Henc Hthumb)
    as [Hname Hparent].
  set (media_dir := PurePath.parent (PurePath.of_string source)) in *.
  assert (Hdir : PurePath.joinpath media_dir (thumbnail_folder self)
                 = PurePath.mk (PurePath.root media_dir)
                     (PurePath.parts media_dir ++ [thumbnail_folder self])).
  { unfold PurePath.joinpath.
    rewrite (of_string_name _ Hs Hkeep). reflexivity. }
  assert (Hstr : forall r ps x,
             exists pre,
               PurePath.to_string (PurePath.mk r (ps ++ [x])) = pre +:+ x).
  { intros r ps x. destruct (join_slash_last ps x) as [pre Hpre].
    exists (r +:+ pre). unfold PurePath.to_string.
    cbn [PurePath.root PurePath.parts].
    destruct r; [| rewrite Hpre; symmetry; apply append_associative].
    destruct (ps ++ [x])%list eqn:Hl; [destruct ps; discriminate Hl |].
    rewrite Hpre. reflexivity. }
  split; [| split].
  - rewrite Hparent, Hdir. unfold PurePath.name. cbn [PurePath.parts].
    apply last_last.
  - rewrite Hparent, Hdir.
    destruct (Hstr (PurePath.root media_dir) (PurePath.parts media_dir)
                (thumbnail_folder self)) as [pre ->].
    apply contains_app_r.
  - destruct (thumb_name_is_a_component source encoded) as [Hs' Hkeep'].
    rewrite Hpath.
    unfold PurePath.joinpath at 1. rewrite (of_string_name _ Hs' Hkeep').
    cbn [PurePath.root PurePath.parts String.eqb].
    rewrite Hdir. cbn [PurePath.root PurePath.parts].
    rewrite <- app_assoc. cbn [app].
    set (thumb_name := PurePath.stem (PurePath.of_string source) +:+ _).
    unfold PurePath.to_string. cbn [PurePath.root PurePath.parts].
    assert (Hjoin : exists pre post,
               Py.join_slash (PurePath.parts media_dir
                              ++ [thumbnail_folder self; thumb_name])
               = pre +:+ thumbnail_folder self +:+ post).
    { generalize (PurePath.parts media_dir) as ps.
      induction ps as [| p ps IH].
      - exists "", ("/" +:+ thumb_name). reflexivity.
      - destruct IH as (pre & post & IH).
        exists (p +:+ "/" +:+ pre), post.
        destruct ps as [| q ps];
          cbn [app Py.join_slash] in *; rewrite IH;
          rewrite !append_associative; reflexivity. }
    destruct Hjoin as (pre & post & Hjoin).
    assert (Hin : forall r, Py.contains
                    (r +:+ pre +:+ thumbnail_folder self +:+ post)
                    (thumbnail_folder self) = true).
    { intros r. rewrite <- !append_associative.
      apply contains_app_l. apply contains_app_r. }
    destruct (PurePath.root media_dir) eqn:Hr.
    + destruct (PurePath.parts media_dir
                ++ [thumbnail_folder self; thumb_name])%list eqn:Hl.
      * destruct (PurePath.parts media_dir); discriminate Hl.
      * rewrite Hjoin. apply (Hin "").
    + rewrite Hjoin. apply Hin.
Qed.

Lemma cache_directory_path_contains_its_name_witness :
  PurePath.name
    (PurePath.parent (thumbnail_of default_generator "/media/a.mp4"))
  = ".thumbnails".
Proof.
  apply (cache_directory_path_contains_its_name default_generator
           "/media/a.mp4" (thumbnail_of default_generator "/media/a.mp4"));
    reflexivity.
Defined.

(** X15.  An empty cache-directory name disables the scan: the empty
    string is a substring of every path, so the guard skips every
    directory, and the scan returns statistics that are all zero, having
    started nothing and changed no file, whatever the media paths hold. *)
Theorem scan_with_empty_cache_name_scans_nothing
        (os : Host) (self : ThumbnailGenerator) (path : option string)
        (w : World) :
  thumbnail_folder self = "" ->
  exists w',
    async_generate_all_thumbnails os self path w
    = Return (mk_stats 0 0 0 0) w'
    /\ fs w' = fs w /\ spawned w' = spawned w.
Proof.
  intros Hempty.
  set (K := fun (s : Stats) (w0 : World) =>
              s = mk_stats 0 0 0 0 /\ fs w0 = fs w /\ spawned w0 = spawned w).
  unfold async_generate_all_thumbnails. cbv zeta.
  destruct (for_each_steps K (scanned_paths self path)
              (scan_base_path os self))
    with (s := mk_stats 0 0 0 0) (w := w)
    as (stats & w1 & H & -> & Hfs & Hsp).
  - intros base_path _ s w0 HK.
    unfold scan_base_path, os_path_exists.
    unfold bind at 1. unfold gets at 1.
    destruct (FS.exists_ (fs w0) base_path); cbn [negb].
    + rewrite scan_walk_skipped by (rewrite Hempty; apply contains_empty).
      exists s, w0. split; [reflexivity | exact HK].
    + eexists. eexists. split; [reflexivity |]. exact HK.
  - repeat split; reflexivity.
  - fold (scanned_paths self path). unfold bind at 1. rewrite H.
    eexists. split; [reflexivity |]. simpl. auto.
Qed.

Lemma scan_with_empty_cache_name_scans_nothing_witness :
  exists w',
    async_generate_all_thumbnails quiet_host
      (mk_generator ["/media"] 320 180 70 (1 # 2) "") None
      (fresh_world one_video_fs)
    = Return (mk_stats 0 0 0 0) w'
    /\ fs w' = one_video_fs /\ spawned w' = [].
Proof.
  apply (scan_with_empty_cache_name_scans_nothing quiet_host
           (mk_generator ["/media"] 320 180 70 (1 # 2) "") None
           (fresh_world one_video_fs)).
  reflexivity.
Defined.

(* ===================================================================== *)
(** ** The configuration forms *)
(* ===================================================================== *)

Section Strip.

Import PyStr.

Lemma rstrip_cons (c : ascii) (s : string) :
  rstrip s <> "" -> rstrip (String c s) = String c (rstrip s).
Proof. cbn [rstrip]. destruct (rstrip s); [congruence | reflexivity]. Qed.

Lemma rstrip_idempotent (s : string) : rstrip (rstrip s) = rstrip s.
Proof.
  induction s as [| c s IH]; [reflexivity |].
  cbn [rstrip]. destruct (rstrip s) as [| d r] eqn:Hr.
  - destruct (isspace c) eqn:Hc; [reflexivity |].
    cbn [rstrip]. rewrite Hc. reflexivity.
  - rewrite rstrip_cons; rewrite IH; [reflexivity | discriminate].
Qed.

Lemma lstrip_starts_plain (s : string) : starts_plain (lstrip s) = true.
Proof.
  induction s as [| c s IH]; [reflexivity |].
  cbn [lstrip]. destruct (isspace c) eqn:Hc; [exact IH |].
  cbn [starts_plain]. rewrite Hc. reflexivity.
Qed.

Lemma lstrip_plain (s : string) : starts_plain s = true -> lstrip s = s.
Proof.
  destruct s as [| c s]; [reflexivity |].
  cbn [starts_plain lstrip]. intros H. apply negb_true_iff in H.
  rewrite H. reflexivity.
Qed.

Lemma rstrip_starts_plain (s : string) :
  starts_plain s = true -> starts_plain (rstrip s) = true.
Proof.
  destruct s as [| c s]; [reflexivity |].
  cbn [starts_plain rstrip]. intros H.
  destruct (rstrip s); [| exact H].
  apply negb_true_iff in H. rewrite H. cbn [starts_plain].
  rewrite H. reflexivity.
Qed.

Lemma strip_idempotent (s : string) : strip (strip s) = strip s.
Proof.
  unfold strip.
  rewrite (lstrip_plain (rstrip (lstrip s))).
  - apply rstrip_idempotent.
  - apply rstrip_starts_plain, lstrip_starts_plain.
Qed.

Lemma lstrip_length (s : string) :
  (String.length (lstrip s) <= String.length s)%nat.
Proof.
  induction s as [| c s IH]; [reflexivity |].
  cbn [lstrip]. destruct (isspace c); cbn [String.length]; lia.
Qed.

Lemma rstrip_length (s : string) :
  (String.length (rstrip s) <= String.length s)%nat.
Proof.
  induction s as [| c s IH]; [reflexivity |].
  cbn [rstrip]. destruct (rstrip s); [destruct (isspace c) |];
    cbn [String.length] in *; lia.
Qed.

Lemma lstrip_fixed (s : string) :
  String.length (lstrip s) = String.length s -> lstrip s = s.
Proof.
  destruct s as [| c s]; [reflexivity |].
  cbn [lstrip]. destruct (isspace c); [| reflexivity].
  pose proof (lstrip_length s). cbn [String.length]. lia.
Qed.

(** A string that [strip] leaves as it is is left so by [lstrip] and by
    [rstrip]. *)
Lemma strip_fixed (s : string) :
  strip s = s -> lstrip s = s /\ rstrip s = s.
Proof.
  unfold strip. intros H.
  assert (Hl : lstrip s = s).
  { apply lstrip_fixed.
    pose proof (lstrip_length s). pose proof (rstrip_length (lstrip s)).
    rewrite H in *. lia. }
  split; [exact Hl |]. rewrite Hl in H. exact H.
Qed.

Lemma has_char_lstrip (x : ascii) (s : string) :
  ConfigFlow.has_char x s = false ->
  ConfigFlow.has_char x (lstrip s) = false.
Proof.
  induction s as [| c s IH]; [reflexivity |].
  cbn [lstrip]. destruct (isspace c); [| auto].
  cbn [ConfigFlow.has_char]. intros H. apply orb_false_iff in H.
  apply IH. tauto.
Qed.

Lemma has_char_rstrip (x : ascii) (s : string) :
  ConfigFlow.has_char x s = false ->
  ConfigFlow.has_char x (rstrip s) = false.
Proof.
  induction s as [| c s IH]; [reflexivity |].
  cbn [ConfigFlow.has_char]. intros H. apply orb_false_iff in H.
  destruct H as [Hc Hs]. specialize (IH Hs).
  cbn [rstrip]. destruct (rstrip s).
  - destruct (isspace c); [reflexivity |].
    cbn [ConfigFlow.has_char]. rewrite Hc. reflexivity.
  - cbn [ConfigFlow.has_char] in *. rewrite Hc. exact IH.
Qed.

Lemma has_char_strip (x : ascii) (s : string) :
  ConfigFlow.has_char x s = false ->
  ConfigFlow.has_char x (strip s) = false.
Proof. intros H. apply has_char_rstrip, has_char_lstrip, H. Qed.

Lemma has_char_app (x : ascii) (a b : string) :
  ConfigFlow.has_char x (a +:+ b)
  = ConfigFlow.has_char x a || ConfigFlow.has_char x b.
Proof.
  induction a as [| c a IH]; [reflexivity |].
  change (String c a +:+ b) with (String c (a +:+ b)).
  cbn [ConfigFlow.has_char]. rewrite IH. apply orb_assoc.
Qed.

Lemma split_first (sep : ascii) (s : string) :
  exists h t, split sep s = h :: t.
Proof.
  destruct s as [| c s]; [eexists; eexists; reflexivity |].
  cbn [split]. destruct (Ascii.eqb c sep).
  - eexists; eexists; reflexivity.
  - destruct (split sep s); eexists; eexists; reflexivity.
Qed.

(** The pieces of a split do not hold the separator. *)
Lemma split_pieces (sep : ascii) (s x : string) :
  In x (split sep s) -> ConfigFlow.has_char sep x = false.
Proof.
  revert x. induction s as [| c s IH]; intros x Hin.
  - destruct Hin as [<- | []]. reflexivity.
  - cbn [split] in Hin. destruct (Ascii.eqb c sep) eqn:Hc.
    + destruct Hin as [<- | Hin]; [reflexivity | auto].
    + destruct (split sep s) as [| h t].
      * destruct Hin as [<- | []]. cbn [ConfigFlow.has_char].
        rewrite Hc. reflexivity.
      * destruct Hin as [<- | Hin].
        -- cbn [ConfigFlow.has_char]. rewrite Hc. apply IH. left. reflexivity.
        -- apply IH. right. exact Hin.
Qed.

Lemma split_whole (sep : ascii) (s : string) :
  ConfigFlow.has_char sep s = false -> split sep s = [s].
Proof.
  induction s as [| c s IH]; intros H; [reflexivity |].
  cbn [ConfigFlow.has_char] in H. apply orb_false_iff in H.
  destruct H as [Hc H]. cbn [split]. rewrite Hc, (IH H). reflexivity.
Qed.

Lemma split_segment (sep : ascii) (x t : string) :
  ConfigFlow.has_char sep x = false ->
  split sep (x +:+ String sep t) = x :: split sep t.
Proof.
  induction x as [| c x IH]; intros H.
  - change ("" +:+ String sep t) with (String sep t).
    cbn [split]. rewrite Ascii.eqb_refl. reflexivity.
  - cbn [ConfigFlow.has_char] in H. apply orb_false_iff in H.
    destruct H as [Hc H].
    change (String c x +:+ String sep t) with (String c (x +:+ String sep t)).
    cbn [split]. rewrite Hc, (IH H). reflexivity.
Qed.

(** Splitting a list of comma-free items joined with [", "]: every item
    but the first comes back with the space in front. *)
Lemma split_join (pre x : string) (rest : list string) :
  ConfigFlow.has_char "," pre = false ->
  (forall y, In y (x :: rest) -> ConfigFlow.has_char "," y = false) ->
  split "," (pre +:+ join ", " (x :: rest))
  = (pre +:+ x) :: map (fun y => " " +:+ y) rest.
Proof.
  revert pre x. induction rest as [| y rest IH]; intros pre x Hpre Hall.
  - cbn [join map]. apply split_whole. rewrite has_char_app, Hpre.
    apply Hall. left. reflexivity.
  - change (join ", " (x :: y :: rest))
      with (x +:+ ", " +:+ join ", " (y :: rest)).
    rewrite <- append_associative.
    change (", " +:+ join ", " (y :: rest))
      with (String "," (" " +:+ join ", " (y :: rest))).
    rewrite split_segment.
    + rewrite (IH " " y); [reflexivity | reflexivity |].
      intros z Hz. apply Hall. right. exact Hz.
    + rewrite has_char_app, Hpre. apply Hall. left. reflexivity.
Qed.

End Strip.

Section PathLists.

Import ConfigFlow.

Lemma plain_path_spec (p : string) :
  plain_path p = true <->
  p <> "" /\ PyStr.strip p = p /\ has_char "," p = false.
Proof.
  unfold plain_path. rewrite !andb_true_iff, !negb_true_iff.
  rewrite String.eqb_neq, String.eqb_eq. tauto.
Qed.

Lemma split_paths_plain (paths_str p : string) :
  In p (split_paths paths_str) -> plain_path p = true.
Proof.
  unfold split_paths. intros H. apply in_map_iff in H.
  destruct H as (q & <- & Hq). apply filter_In in Hq.
  destruct Hq as [Hin Hne]. apply plain_path_spec.
  split; [| split].
  - apply negb_true_iff, String.eqb_neq in Hne. exact Hne.
  - apply strip_idempotent.
  - apply has_char_strip. eapply split_pieces. exact Hin.
Qed.

(** Joining plain paths with [", "] and splitting the result gives the
    paths back. *)
Lemma split_paths_join (paths : list string) :
  (forall p, In p paths -> plain_path p = true) ->
  split_paths (PyStr.join ", " paths) = paths.
Proof.
  intros Hall. destruct paths as [| x rest]; [reflexivity |].
  assert (Hplain : forall p, In p (x :: rest) ->
                     p <> "" /\ PyStr.strip p = p /\ has_char "," p = false).
  { intros p Hp. apply plain_path_spec, Hall, Hp. }
  unfold split_paths.
  change (PyStr.join ", " (x :: rest)) with ("" +:+ PyStr.join ", " (x :: rest)).
  rewrite split_join; [| reflexivity | intros y Hy; apply Hplain, Hy].
  change ("" +:+ x) with x.
  cbn [List.filter map].
  destruct (Hplain x (or_introl eq_refl)) as (Hne & Hstrip & _).
  rewrite Hstrip. apply String.eqb_neq in Hne. rewrite Hne. cbn [negb map].
  rewrite Hstrip. f_equal.
  assert (Hrest : forall y, In y rest ->
                    PyStr.strip (" " +:+ y) = y /\ y <> "").
  { intros y Hy. destruct (Hplain y (or_intror Hy)) as (Hn & Hs & _).
    split; [| exact Hn]. exact Hs. }
  clear - Hrest. induction rest as [| y rest IH]; [reflexivity |].
  cbn [map List.filter].
  destruct (Hrest y (or_introl eq_refl)) as [Hs Hn].
  rewrite Hs. apply String.eqb_neq in Hn. rewrite Hn. cbn [negb map].
  rewrite Hs. f_equal. apply IH. intros z Hz. apply Hrest. right. exact Hz.
Qed.

(** The loop of [validate_media_paths] keeps, in order, the stripped
    paths that are not empty and name a directory. *)
Lemma validate_media_paths_filter (f : FS.t) (paths : list string) :
  validate_media_paths f paths
  = List.filter (fun p => negb (String.eqb p "") && os_path_isdir f p)
                (map PyStr.strip paths).
Proof.
  unfold validate_media_paths.
  set (ok := fun p => negb (String.eqb p "") && os_path_isdir f p).
  assert (H : forall acc,
             fold_left
               (fun valid_paths path =>
                  let path := PyStr.strip path in
                  if negb (String.eqb path "") && os_path_isdir f path
                  then (valid_paths ++ [path])%list else valid_paths)
               paths acc
             = (acc ++ List.filter ok (map PyStr.strip paths))%list).
  { induction paths as [| p rest IH]; intros acc.
    - simpl. rewrite app_nil_r. reflexivity.
    - cbn [fold_left map List.filter]. cbv zeta. rewrite IH. unfold ok at 2.
      destruct (negb (String.eqb (PyStr.strip p) "")
                && os_path_isdir f (PyStr.strip p));
        [rewrite <- app_assoc |]; reflexivity. }
  apply (H []).
Qed.

Lemma validate_media_paths_plain (f : FS.t) (paths : list string) :
  (forall p, In p paths -> plain_path p = true) ->
  validate_media_paths f paths = List.filter (os_path_isdir f) paths.
Proof.
  intros Hall. rewrite validate_media_paths_filter.
  induction paths as [| p rest IH]; [reflexivity |].
  cbn [map List.filter].
  destruct (proj1 (plain_path_spec p) (Hall p (or_introl eq_refl)))
    as (Hne & Hstrip & _).
  rewrite Hstrip. apply String.eqb_neq in Hne. rewrite Hne. cbn [negb andb].
  rewrite IH by (intros q Hq; apply Hall; right; exact Hq). reflexivity.
Qed.

Lemma filter_all {A} (ok : A -> bool) (l : list A) :
  (forall x, In x l -> ok x = true) -> List.filter ok l = l.
Proof.
  induction l as [| x l IH]; intros H; [reflexivity |].
  cbn [List.filter]. rewrite (H x (or_introl eq_refl)).
  f_equal. apply IH. intros y Hy. apply H. right. exact Hy.
Qed.

End PathLists.

(** X16.  [validate_media_paths] keeps, in their order, the given paths
    that name a directory once stripped: every path it returns is not
    empty, has no whitespace at its ends and is an existing directory,
    and validating its result again (on the same file system) changes
    nothing. *)
Theorem validated_paths_are_directories (f : FS.t) (paths : list string) :
  ConfigFlow.validate_media_paths f paths
  = List.filter (fun p => negb (String.eqb p "") && os_path_isdir f p)
                (map PyStr.strip paths)
  /\ (forall p, In p (ConfigFlow.validate_media_paths f paths) ->
               p <> "" /\ PyStr.strip p = p /\ os_path_isdir f p = true
               /\ exists given, In given paths /\ p = PyStr.strip given)
  /\ ConfigFlow.validate_media_paths f
       (ConfigFlow.validate_media_paths f paths)
     = ConfigFlow.validate_media_paths f paths.
Proof.
  assert (Hin : forall p, In p (ConfigFlow.validate_media_paths f paths) ->
                  p <> "" /\ PyStr.strip p = p /\ os_path_isdir f p = true
                  /\ exists given, In given paths /\ p = PyStr.strip given).
  { intros p Hp. rewrite validate_media_paths_filter in Hp.
    apply filter_In in Hp. destruct Hp as [Hp Hok].
    apply andb_true_iff in Hok. destruct Hok as [Hne Hdir].
    apply negb_true_iff, String.eqb_neq in Hne.
    apply in_map_iff in Hp. destruct Hp as (given & <- & Hgiven).
    split; [exact Hne |]. split; [apply strip_idempotent |].
    split; [exact Hdir |]. exists given. auto. }
  split; [apply validate_media_paths_filter |]. split; [exact Hin |].
  rewrite (validate_media_paths_filter f
             (ConfigFlow.validate_media_paths f paths)).
  set (l := ConfigFlow.validate_media_paths f paths) in *.
  assert (Hmap : map PyStr.strip l = l).
  { clearbody l. induction l as [| x l IH]; [reflexivity |].
    cbn [map]. rewrite (proj1 (proj2 (Hin x (or_introl eq_refl)))).
    f_equal. apply IH. intros y Hy. apply Hin. right. exact Hy. }
  rewrite Hmap. apply filter_all. intros x Hx.
  destruct (Hin x Hx) as (Hne & _ & Hdir & _).
  apply String.eqb_neq in Hne. rewrite Hne, Hdir. reflexivity.
Qed.

(** X17.  The path list of a form survives being shown again: the paths
    read from any submitted string are not empty, have no whitespace at
    their ends and hold no comma, and joining them with [", "] (as the
    options form displays them) and reading that string gives the same
    list.  A directory whose name holds a comma can therefore not be
    configured. *)
Theorem split_paths_round_trip (paths_str : string) :
  let paths := ConfigFlow.split_paths paths_str in
  (forall p, In p paths -> ConfigFlow.plain_path p = true)
  /\ ConfigFlow.split_paths (PyStr.join ", " paths) = paths.
Proof.
  cbv zeta. split.
  - intros p. apply split_paths_plain.
  - apply split_paths_join. intros p. apply split_paths_plain.
Qed.

Lemma submitted_paths_valid (f : FS.t) (user_input : ConfigFlow.UserInput)
      (p : string) :
  In p (ConfigFlow.submitted_paths f user_input) ->
  ConfigFlow.plain_path p = true /\ os_path_isdir f p = true.
Proof.
  unfold ConfigFlow.submitted_paths. cbv zeta.
  rewrite validate_media_paths_plain by (intros q; apply split_paths_plain).
  intros H. apply filter_In in H. destruct H as [Hin Hdir].
  split; [eapply split_paths_plain; exact Hin | exact Hdir].
Qed.

(** X18.  What the first form can lead to.  An entry is created only
    with a list of media paths that is not empty and whose members are
    existing directories (not empty, stripped, comma-free), and only when
    none is configured yet; a submission without any valid path shows the
    form again with the error [no_valid_paths], also when the integration
    is already configured; the flow aborts only for a valid submission to
    a configured integration. *)
Theorem first_form_creates_only_valid_entries
        (f : FS.t) (configured : bool) (user_input : ConfigFlow.UserInput) :
  let valid_paths := ConfigFlow.submitted_paths f user_input in
  match ConfigFlow.async_step_user f configured (Some user_input) with
  | ConfigFlow.CreateEntry title data =>
      configured = false
      /\ data = ConfigFlow.entry_data valid_paths user_input
      /\ ConfigFlow.conf_media_paths data <> []
      /\ forall p, In p (ConfigFlow.conf_media_paths data) ->
                   ConfigFlow.plain_path p = true /\ os_path_isdir f p = true
  | ConfigFlow.ShowForm step_id defaults errors =>
      valid_paths = [] /\ errors = [("media_paths", "no_valid_paths")]
  | ConfigFlow.AbortFlow reason =>
      configured = true /\ valid_paths <> []
  end.
Proof.
  cbv zeta. unfold ConfigFlow.async_step_user. cbv zeta.
  destruct (ConfigFlow.submitted_paths f user_input) as [| p rest] eqn:Hv.
  - split; reflexivity.
  - destruct configured.
    + split; [reflexivity | discriminate].
    + split; [reflexivity |]. split; [reflexivity |].
      split; [discriminate |].
      cbn [ConfigFlow.entry_data ConfigFlow.conf_media_paths].
      rewrite <- Hv. intros q. apply submitted_paths_valid.
Qed.

(** X19.  Submitting the options form unchanged keeps the
    configuration: when the stored media paths are plain paths that are
    still directories, the form shown for them, submitted with its
    defaults, creates an entry with the same media paths and the same
    settings. *)
Theorem options_form_unchanged_keeps_configuration
        (f : FS.t) (data options : ConfigFlow.Stored) :
  let current := ConfigFlow.merge data options in
  let paths := default ["/media"] (ConfigFlow.stored_media_paths current) in
  paths <> [] ->
  (forall p, In p paths ->
             ConfigFlow.plain_path p = true /\ os_path_isdir f p = true) ->
  ConfigFlow.async_step_init f data options
    (Some (ConfigFlow.submit_unchanged
             (ConfigFlow.options_defaults data options)))
  = ConfigFlow.CreateEntry ""
      (ConfigFlow.mk_entry_data
         paths
         (default DEFAULT_THUMBNAIL_WIDTH
                  (ConfigFlow.stored_thumbnail_width current))
         (default DEFAULT_THUMBNAIL_HEIGHT
                  (ConfigFlow.stored_thumbnail_height current))
         (default DEFAULT_THUMBNAIL_QUALITY
                  (ConfigFlow.stored_thumbnail_quality current))
         (default DEFAULT_FRAME_POSITION
                  (ConfigFlow.stored_frame_position current))
         (default DEFAULT_THUMBNAIL_FOLDER
                  (ConfigFlow.stored_thumbnail_folder current))
         (default DEFAULT_AUTO_GENERATE
                  (ConfigFlow.stored_auto_generate current))).
Proof.
  intros current paths Hne Hall.
  unfold ConfigFlow.async_step_init. cbv zeta.
  assert (Hsub : ConfigFlow.submitted_paths f
                   (ConfigFlow.submit_unchanged
                      (ConfigFlow.options_defaults data options))
                 = paths).
  { change (ConfigFlow.submitted_paths f
              (ConfigFlow.submit_unchanged
                 (ConfigFlow.options_defaults data options)))
      with (ConfigFlow.validate_media_paths f
              (ConfigFlow.split_paths (PyStr.join ", " paths))).
    rewrite split_paths_join by (intros p Hp; apply Hall, Hp).
    rewrite validate_media_paths_plain by (intros p Hp; apply Hall, Hp).
    apply filter_all. intros p Hp. apply Hall, Hp. }
  rewrite Hsub. destruct paths as [| p rest] eqn:Hp; [congruence |].
  reflexivity.
Qed.

Lemma options_form_unchanged_keeps_configuration_witness :
  let f := FS.mk (FS.Dir 0 [("media", FS.Dir 10 [("cam", FS.Dir 10 [])]);
                            ("recordings", FS.Dir 10 [])]) [] in
  let data :=
    ConfigFlow.mk_stored (Some ["/media/cam"; "/recordings"]) (Some 320)
      (Some 180) (Some 70) (Some (1 # 2)) (Some ".thumbnails") (Some true) in
  let options :=
    ConfigFlow.mk_stored None (Some 160) None None None None None in
  ConfigFlow.async_step_init f data options
    (Some (ConfigFlow.submit_unchanged
             (ConfigFlow.options_defaults data options)))
  = ConfigFlow.CreateEntry ""
      (ConfigFlow.mk_entry_data ["/media/cam"; "/recordings"] 160 180 70
         (1 # 2) ".thumbnails" true).
Proof.
  intros f data options.
  apply (options_form_unchanged_keeps_configuration f data options).
  - discriminate.
  - intros p [<- | [<- | []]]; split; vm_compute; reflexivity.
Defined.

(* ===================================================================== *)
(** ** The generator kept by the integration *)
(* ===================================================================== *)

Section DomainData.

Import Integration.

Lemma dict_set_flag_first (key : string) (value : domain_value)
      (d : domain_data) :
  key <> "frontend_loaded" -> flag_first d -> flag_first (dict_set key value d).
Proof.
  intros Hkey (b & rest & ->). cbn [dict_set].
  destruct (String.eqb_spec "frontend_loaded" key) as [<- | _];
    [congruence |].
  eexists. eexists. reflexivity.
Qed.

Lemma dict_pop_flag_first (key : string) (d : domain_data) :
  key <> "frontend_loaded" -> flag_first d -> flag_first (dict_pop key d).
Proof.
  intros Hkey (b & rest & ->). cbn [dict_pop].
  destruct (String.eqb_spec "frontend_loaded" key) as [<- | _];
    [congruence |].
  eexists. eexists. reflexivity.
Qed.

Lemma flag_first_contains (d : domain_data) :
  flag_first d -> dict_contains "frontend_loaded" d = true.
Proof. intros (b & rest & ->). reflexivity. Qed.

Lemma setup_keeps_flag_first (os : Host) (registered : bool)
      (entry_id : string) (data options : ConfigFlow.Stored)
      (d : domain_data) (w : World) :
  entry_id <> "frontend_loaded" -> flag_first d ->
  flag_first
    (fst (async_setup_entry os registered entry_id data options (Some d) w)).
Proof.
  intros Hid Hd. unfold async_setup_entry.
  change (default [] (Some d)) with d.
  rewrite (flag_first_contains d Hd).
  destruct (async_check_ffmpeg os (new_generator_state w)); cbn [fst].
  - apply dict_set_flag_first; assumption.
  - exact Hd.
Qed.

Lemma first_setup_flag_first (os : Host) (entry_id : string)
      (data options : ConfigFlow.Stored) (d0 : option domain_data)
      (w : World) :
  d0 = None \/ d0 = Some [] ->
  entry_id <> "frontend_loaded" ->
  flag_first
    (fst (async_setup_entry os true entry_id data options d0 w)).
Proof.
  intros Hd0 Hid.
  assert (Hempty : default [] d0 = []) by (destruct Hd0; subst; reflexivity).
  unfold async_setup_entry. rewrite Hempty.
  cbn [dict_contains existsb].
  match goal with
  | |- context [async_check_ffmpeg os ?w0] =>
      destruct (async_check_ffmpeg os w0)
  end; cbn [fst].
  - apply dict_set_flag_first; [exact Hid |].
    eexists. eexists. reflexivity.
  - eexists. eexists. reflexivity.
Qed.

Lemma unload_keeps_flag_first (entry_id : string) (d : domain_data) :
  entry_id <> "frontend_loaded" -> flag_first d ->
  flag_first (fst (async_unload_entry entry_id d))
  /\ snd (async_unload_entry entry_id d) = false.
Proof.
  intros Hid Hd. unfold async_unload_entry.
  assert (H : flag_first (if dict_contains entry_id d
                          then dict_pop entry_id d else d)).
  { destruct (dict_contains entry_id d);
      [apply dict_pop_flag_first; assumption | exact Hd]. }
  cbn [fst snd]. split; [exact H |].
  destruct H as (b & rest & ->). reflexivity.
Qed.

Lemma events_keep_flag_first (os : Host) (events : list event)
      (d : domain_data) (w : World) :
  Forall (fun ev => event_entry_id ev <> "frontend_loaded") events ->
  flag_first d ->
  flag_first (fst (fold_left (run_event os) events (d, w))).
Proof.
  intros Hevents. revert d w.
  induction Hevents as [| ev rest Hev _ IH]; intros d w Hd; [exact Hd |].
  cbn [fold_left].
  destruct ev as [registered entry_id data options | entry_id];
    cbn [run_event event_entry_id] in *.
  - pose proof (setup_keeps_flag_first os registered entry_id data options
                  d w Hev Hd) as H.
    destruct (async_setup_entry os registered entry_id data options
                (Some d) w) as [d' o].
    apply IH. exact H.
  - apply IH. apply unload_keeps_flag_first; assumption.
Qed.

Lemma flag_first_hides_generator (d : domain_data) :
  flag_first d -> _get_generator (Some d) = TypeError.
Proof. intros (b & rest & ->). reflexivity. Qed.

End DomainData.

(** X20.  Once the card has been registered, the websocket commands
    cannot reach the generator.  The first set-up whose registration of
    the card succeeds stores the flag ["frontend_loaded"] in the
    dictionary of the integration before any entry; from then on, through
    any later set-ups and unloads of entries, [_get_generator] meets the
    flag first and its test ["generator" in True] raises a TypeError, so
    [websocket_get_thumbnail] and [websocket_generate_thumbnails] end in
    that error instead of a reply. *)
Theorem card_registration_hides_the_generator
        (os : Host) (entry_id : string) (data options : ConfigFlow.Stored)
        (d0 : option Integration.domain_data) (w : World)
        (later : list Integration.event) :
  d0 = None \/ d0 = Some [] ->
  entry_id <> "frontend_loaded" ->
  Forall (fun ev => Integration.event_entry_id ev <> "frontend_loaded")
         later ->
  let first :=
    Integration.async_setup_entry os true entry_id data options d0 w in
  let d :=
    fst (fold_left (Integration.run_event os) later
                   (fst first, world_after (snd first))) in
  Integration._get_generator (Some d) = Integration.TypeError
  /\ (forall read_thumbnail media_content_id,
         Integration.websocket_get_thumbnail os read_thumbnail (Some d)
           media_content_id
         = Integration.RaisesTypeError)
  /\ (forall path,
         Integration.websocket_generate_thumbnails os (Some d) path
         = Integration.RaisesTypeError).
Proof.
  intros Hd0 Hid Hlater first d.
  assert (Hd : Integration.flag_first d).
  { apply events_keep_flag_first; [exact Hlater |].
    apply first_setup_flag_first; assumption. }
  pose proof (flag_first_hides_generator d Hd) as Hget.
  split; [exact Hget |]. split.
  - intros read_thumbnail media_content_id.
    unfold Integration.websocket_get_thumbnail. rewrite Hget. reflexivity.
  - intros path.
    unfold Integration.websocket_generate_thumbnails. rewrite Hget.
    reflexivity.
Qed.

Lemma card_registration_hides_the_generator_witness :
  let stored :=
    ConfigFlow.mk_stored (Some ["/media"]) None None None None None None in
  let none := ConfigFlow.mk_stored None None None None None None None in
  let first :=
    Integration.async_setup_entry quiet_host true "01J8ENTRY" stored none
      None (fresh_world one_video_fs) in
  Integration._get_generator
    (Some (fst (fold_left (Integration.run_event quiet_host)
                  [Integration.Unload "01J8ENTRY";
                   Integration.Setup false "01J8ENTRY" stored none]
                  (fst first, world_after (snd first)))))
  = Integration.TypeError.
Proof.
  intros stored none first.
  apply (card_registration_hides_the_generator quiet_host "01J8ENTRY"
           stored none None (fresh_world one_video_fs)
           [Integration.Unload "01J8ENTRY";
            Integration.Setup false "01J8ENTRY" stored none]).
  - left. reflexivity.
  - discriminate.
  - repeat constructor; discriminate.
Defined.

(** X21.  The generator is found only when the flag was never stored:
    when the first set-up returns although registering the card raised
    RuntimeError, the dictionary holds the entry alone, [_get_generator]
    returns the generator built from the merged configuration of the
    entry, and the handlers run to a reply. *)
Theorem generator_is_found_without_the_flag
        (os : Host) (entry_id : string) (data options : ConfigFlow.Stored)
        (d0 : option Integration.domain_data) (w w' : World) :
  d0 = None \/ d0 = Some [] ->
  let first :=
    Integration.async_setup_entry os false entry_id data options d0 w in
  let generator :=
    Integration.make_generator (ConfigFlow.merge data options) in
  snd first = Return true w' ->
  fst first
  = [(entry_id,
      Integration.EntryDict generator (ConfigFlow.merge data options))]
  /\ Integration._get_generator (Some (fst first))
     = Integration.Generator generator
  /\ forall read_thumbnail media_content_id,
      Integration.websocket_get_thumbnail os read_thumbnail (Some (fst first))
        media_content_id
      = Integration.Runs
          (Integration.get_thumbnail_reply os read_thumbnail generator
             media_content_id).
Proof.
  intros Hd0 first generator Hret.
  assert (Hempty : default [] d0 = []) by (destruct Hd0; subst; reflexivity).
  assert (Hfirst : fst first
                   = [(entry_id,
                       Integration.EntryDict generator
                         (ConfigFlow.merge data options))]).
  { unfold first, Integration.async_setup_entry in *. rewrite Hempty in *.
    cbn [Integration.dict_contains existsb] in *.
    match goal with
    | |- context [async_check_ffmpeg os ?w0] =>
        destruct (async_check_ffmpeg os w0)
    end; cbn [fst snd] in *; [reflexivity | discriminate]. }
  split; [exact Hfirst |]. rewrite Hfirst. split; [reflexivity |].
  intros read_thumbnail media_content_id. reflexivity.
Qed.

Lemma generator_is_found_without_the_flag_witness :
  let stored :=
    ConfigFlow.mk_stored (Some ["/media"]) None None None None None None in
  let none := ConfigFlow.mk_stored None None None None None None None in
  Integration._get_generator
    (Some (fst (Integration.async_setup_entry quiet_host false "01J8ENTRY"
                  stored none None (fresh_world one_video_fs))))
  = Integration.Generator default_generator.
Proof.
  intros stored none.
  eapply (generator_is_found_without_the_flag quiet_host "01J8ENTRY"
            stored none None (fresh_world one_video_fs)).
  - left. reflexivity.
  - vm_compute. reflexivity.
Defined.

(** X22.  The services outlive the entries: once the flag
    ["frontend_loaded"] is stored, the dictionary of the integration is
    never empty, so unloading an entry, even the last one, does not
    remove the services [generate_thumbnails] and [clear_cache]; without
    the flag, unloading the only entry removes them. *)
Theorem unload_keeps_the_services_once_the_card_is_registered
        (entry_id : string) (d : Integration.domain_data) :
  entry_id <> "frontend_loaded" ->
  (Integration.flag_first d ->
   snd (Integration.async_unload_entry entry_id d) = false
   /\ Integration.flag_first (fst (Integration.async_unload_entry entry_id d)))
  /\ (forall generator config,
         d = [(entry_id, Integration.EntryDict generator config)] ->
         Integration.async_unload_entry entry_id d = ([], true)).
Proof.
  intros Hid. split.
  - intros Hd.
    destruct (unload_keeps_flag_first entry_id d Hid Hd). auto.
  - intros generator config ->. unfold Integration.async_unload_entry.
    cbn [Integration.dict_contains existsb fst Integration.dict_pop].
    rewrite String.eqb_refl. reflexivity.
Qed.

Lemma unload_keeps_the_services_once_the_card_is_registered_witness :
  snd (Integration.async_unload_entry "01J8ENTRY"
         [("frontend_loaded", Integration.Flag true);
          ("01J8ENTRY",
           Integration.EntryDict default_generator
             (ConfigFlow.mk_stored None None None None None None None))])
  = false.
Proof.
  apply (unload_keeps_the_services_once_the_card_is_registered "01J8ENTRY").
  - discriminate.
  - eexists. eexists. reflexivity.
Defined.

(** X23.  With a generator at hand, [websocket_get_thumbnail] answers
    every request and never raises: it sends the thumbnail only when the
    lookup returned a path, the file is there when the reply is built and
    reading it succeeded; an exception of the lookup (as the error of a
    cache directory that cannot be created) or of the read becomes the
    error reply [thumbnail_error] with the text of the exception. *)
Theorem get_thumbnail_always_replies
        (os : Host) (read_thumbnail : FS.t -> string -> exn + string)
        (generator : ThumbnailGenerator) (media_content_id : string)
        (w : World) :
  exists reply w',
    Integration.get_thumbnail_reply os read_thumbnail generator
      media_content_id w = Return reply w'
    /\ (forall encoded,
           reply = Integration.ThumbnailResult encoded ->
           exists thumb_path,
             async_get_thumbnail os generator media_content_id w
             = Return (Some thumb_path) w'
             /\ FS.exists_ (fs w') thumb_path = true
             /\ read_thumbnail (fs w') thumb_path = inr encoded)
    /\ (forall e w1,
           async_get_thumbnail os generator media_content_id w = Raise e w1 ->
           reply = Integration.ErrorReply "thumbnail_error" (str_exn e)).
Proof.
  unfold Integration.get_thumbnail_reply, try_except.
  unfold bind at 1.
  destruct (async_get_thumbnail os generator media_content_id w)
    as [[thumb_path |] w1 | e w1].
  - unfold bind at 1.
    destruct (String.eqb thumb_path "") eqn:Hempty.
    + eexists. eexists. split; [reflexivity |].
      split; [intros encoded H; discriminate H | intros e w2 H; discriminate H].
    + unfold os_path_exists, gets.
      destruct (FS.exists_ (fs w1) thumb_path) eqn:Hthere.
      * unfold bind.
        destruct (read_thumbnail (fs w1) thumb_path) as [e | encoded] eqn:Hread.
        -- eexists. eexists. split; [reflexivity |].
           split; [intros enc H; discriminate H | intros e' w2 H; discriminate H].
        -- eexists. eexists. split; [reflexivity |]. split.
           ++ intros enc H. inversion H; subst. exists thumb_path. auto.
           ++ intros e' w2 H. discriminate H.
      * eexists. eexists. split; [reflexivity |].
        split; [intros enc H; discriminate H | intros e' w2 H; discriminate H].
  - eexists. eexists. split; [reflexivity |].
    split; [intros enc H; discriminate H | intros e' w2 H; discriminate H].
  - eexists. eexists. split; [reflexivity |]. split.
    + intros enc H. discriminate H.
    + intros e' w2 H. inversion H; subst. reflexivity.
Qed.

(* ===================================================================== *)
(** ** Errors of the existence tests and of the cache path *)
(* ===================================================================== *)

Section Raising.

Variable os : Host.
Variable self : ThumbnailGenerator.

(** The lookup raises what the resolution raises. *)
Lemma lookup_raises_resolution_error (media_path : string) (w : World)
      (e : exn) :
  _resolve_media_path self (fs w) media_path = inl e ->
  get_thumbnail_resolved os self media_path w = Raise e w.
Proof.
  intros Hres. unfold get_thumbnail_resolved, bind.
  rewrite Hres. reflexivity.
Qed.

(** The lookup of a source that resolved, up to the freshness test. *)
Lemma lookup_of_resolved (media_path actual_path : string) (w : World) :
  _resolve_media_path self (fs w) media_path = inr (Some actual_path) ->
  forall e,
    _get_thumbnail_path self actual_path = inl e
    \/ (exists thumb_path,
           _get_thumbnail_path self actual_path = inr thumb_path
           /\ Path_exists (fs w) thumb_path = inl e) ->
    get_thumbnail_resolved os self media_path w = Raise e w.
Proof.
  intros Hres e He.
  pose proof (resolve_media_path_exists _ _ _ _ Hres) as Hex.
  assert (Hne : String.eqb actual_path "" = false).
  { destruct actual_path; [| reflexivity].
    rewrite exists_empty in Hex. discriminate Hex. }
  unfold get_thumbnail_resolved.
  unfold bind at 1. rewrite Hres. unfold lift at 1. rewrite Hne.
  unfold bind at 1. unfold os_path_exists at 1, gets at 1. rewrite Hex.
  unfold bind at 1.
  destruct He as [He | (thumb_path & Hthumb & He)].
  - rewrite He. reflexivity.
  - rewrite Hthumb. unfold lift at 1.
    unfold bind at 1, path_exists. rewrite He. reflexivity.
Qed.

Lemma scan_file_raises (root filename : string) (stats : Stats) (w : World) :
  recognized filename = true ->
  forall e,
    _get_thumbnail_path self (OsPath.join root filename) = inl e
    \/ (exists thumb_path,
           _get_thumbnail_path self (OsPath.join root filename)
           = inr thumb_path
           /\ Path_exists (fs w) thumb_path = inl e) ->
    scan_file os self root filename stats w = Raise e w.
Proof.
  intros Hrec e He. unfold scan_file. fold (extension_of filename).
  unfold recognized in Hrec. rewrite <- negb_orb, Hrec. cbn [negb].
  cbv zeta. unfold bind at 1.
  destruct He as [He | (thumb_path & Hthumb & He)].
  - rewrite He. reflexivity.
  - rewrite Hthumb. unfold lift at 1.
    unfold bind at 1, path_exists. rewrite He. reflexivity.
Qed.

End Raising.

(** X26.  A failing existence test ends the resolution with its error.
    For an identifier in the media-source namespace, when the places
    before one do not exist and the existence test of that place fails
    with an error of the operating system other than not-found,
    [_resolve_media_path] raises that error, and so does the lookup
    (once the memoized mapping gave no answer), leaving everything as it
    is: no later place is tried and nothing is returned. *)
Theorem resolution_raises_the_error_of_a_test
        (os : Host) (self : ThumbnailGenerator) (w : World)
        (media_content_id : string)
        (before : list PurePath.t) (place : PurePath.t)
        (after : list PurePath.t) (e : exn) :
  Py.startswith media_content_id media_source_prefix = true ->
  candidates self media_content_id = (before ++ place :: after)%list ->
  (forall p, In p before -> Path_exists (fs w) p = inr false) ->
  Path_exists (fs w) place = inl e ->
  _resolve_media_path self (fs w) media_content_id = inl e
  /\ get_thumbnail_resolved os self media_content_id w = Raise e w
  /\ (_cache w !! media_content_id = None ->
      async_get_thumbnail os self media_content_id w = Raise e w).
Proof.
  intros Hp Hsplit Hbefore Hplace.
  assert (Hres : _resolve_media_path self (fs w) media_content_id = inl e).
  { rewrite (resolve_namespace self (fs w) media_content_id Hp).
    unfold candidates in Hsplit.
    apply map_eq_app in Hsplit.
    destruct Hsplit as (bases1 & bases2 & Hbases & Hb1 & Hb2).
    destruct bases2 as [| base bases2]; [discriminate Hb2 |].
    cbn [map] in Hb2. inversion Hb2 as [[Hbase Hafter]].
    rewrite Hbases. rewrite first_under_search.
    - rewrite Hbase, Hplace. reflexivity.
    - intros b Hb. apply Hbefore. rewrite <- Hb1.
      apply in_map_iff. exists b. auto. }
  split; [exact Hres |].
  pose proof (lookup_raises_resolution_error os self _ _ _ Hres) as Hlookup.
  split; [exact Hlookup |].
  intros Hmemo. unfold async_get_thumbnail, bind, gets.
  rewrite Hmemo. exact Hlookup.
Qed.

Lemma resolution_raises_the_error_of_a_test_witness :
  async_get_thumbnail quiet_host default_generator
    "media-source://media_source/local/private/clip.mp4"
    (fresh_world (denying_fs private_fs "/media/private/clip.mp4"))
  = Raise (OSError "Permission denied")
          (fresh_world (denying_fs private_fs "/media/private/clip.mp4")).
Proof.
  apply (proj2 (proj2 (resolution_raises_the_error_of_a_test
                  quiet_host default_generator
                  (fresh_world (denying_fs private_fs "/media/private/clip.mp4"))
                  "media-source://media_source/local/private/clip.mp4"
                  [] (PurePath.of_string "/media/private/clip.mp4")
                  [PurePath.of_string "/media/private/clip.mp4"]
                  (OSError "Permission denied")
                  eq_refl eq_refl
                  (fun p (H : In p []) => match H with end)
                  eq_refl))).
  reflexivity.
Defined.

(** X27.  An error on the way to the freshness decision is raised.  When
    the cache path of a source cannot be derived, its path string not
    being encodable, or the existence test of the cache file fails with
    an error of the operating system other than not-found, the lookup
    that resolved the source raises that error, and so does the scan of
    a file with a recognized extension; neither changes anything before
    it raises, nothing is rendered, and the scan returns no statistics. *)
Theorem errors_before_the_freshness_decision_are_raised
        (os : Host) (self : ThumbnailGenerator) (w : World) (e : exn) :
  (forall media_path actual_path,
      _resolve_media_path self (fs w) media_path = inr (Some actual_path) ->
      _get_thumbnail_path self actual_path = inl e
      \/ (exists thumb_path,
             _get_thumbnail_path self actual_path = inr thumb_path
             /\ Path_exists (fs w) thumb_path = inl e) ->
      get_thumbnail_resolved os self media_path w = Raise e w)
  /\ (forall root filename stats,
         recognized filename = true ->
         _get_thumbnail_path self (OsPath.join root filename) = inl e
         \/ (exists thumb_path,
                _get_thumbnail_path self (OsPath.join root filename)
                = inr thumb_path
                /\ Path_exists (fs w) thumb_path = inl e) ->
         scan_file os self root filename stats w = Raise e w)
  /\ (forall path base_path others dirs filename files,
         scanned_paths self path = base_path :: others ->
         FS.listdir (fs w) base_path = Some (dirs, filename :: files) ->
         Py.contains base_path (thumbnail_folder self) = false ->
         recognized filename = true ->
         _get_thumbnail_path self (OsPath.join base_path filename) = inl e
         \/ (exists thumb_path,
                _get_thumbnail_path self (OsPath.join base_path filename)
                = inr thumb_path
                /\ Path_exists (fs w) thumb_path = inl e) ->
         async_generate_all_thumbnails os self path w = Raise e w).
Proof.
  split; [| split].
  - intros media_path actual_path Hres He.
    eapply lookup_of_resolved; eassumption.
  - intros root filename stats Hrec He.
    apply scan_file_raises; assumption.
  - intros path base_path others dirs filename files
           Hpaths Hlist Hroot Hrec He.
    unfold async_generate_all_thumbnails. cbv zeta.
    fold (scanned_paths self path). rewrite Hpaths.
    unfold bind at 1. cbn [for_each]. unfold bind at 1.
    unfold scan_base_path. unfold bind at 1.
    unfold os_path_exists, gets.
    rewrite (listdir_exists _ _ _ Hlist). cbn [negb].
    change FS.walk_depth with (S 4095).
    rewrite (scan_walk_listed os self _ _ _ _ _ _ Hlist).
    unfold bind at 1. unfold scan_directory at 1. rewrite Hroot.
    cbn [for_each]. unfold bind at 1.
    rewrite (scan_file_raises os self _ _ _ w Hrec e He). reflexivity.
Qed.

Lemma errors_before_the_freshness_decision_are_raised_witness :
  let w := fresh_world (denying_fs (cached_fs 100)
                               "/media/.thumbnails/clip_83c80c7b.jpg") in
  async_generate_all_thumbnails quiet_host default_generator None w
  = Raise (OSError "Permission denied") w.
Proof.
  intros w.
  apply (proj2 (proj2 (errors_before_the_freshness_decision_are_raised
                  quiet_host default_generator w
                  (OSError "Permission denied")))
           None "/media" [] [".thumbnails"] "clip.mp4" ["notes.txt"]);
    [reflexivity | vm_compute; reflexivity | vm_compute; reflexivity
     | vm_compute; reflexivity |].
  right. exists (thumbnail_of default_generator "/media/clip.mp4").
  split; vm_compute; reflexivity.
Defined.
